(** * clipQueue: input signatures, the signature matcher, legacy hotkey
      parsing and the clipboard-queue controller

    A shallow embedding of the Go sources

      - [platform/windows/input.go]   (InputSignature, SignatureMatcher),
      - [platform/windows/hotkeys.go] and [internal/config] (parseHotkey),
      - [internal/app] controller     (Controller and its operations),

    together with the properties stated about them.  Go integers are
    modelled as [Z] with their wrap-around written out, byte slices as
    [list byte], Go maps as [gmap], and the calls into the operating
    system (clipboard read/write, sequence number, simulated keystrokes)
    as an explicit world that is threaded through every operation. *)

From Stdlib Require Import ZArith List Bool Lia.
From Stdlib Require Import Strings.String Strings.Ascii Strings.Byte.
From stdpp Require Import base option list gmap strings pretty.

Local Open Scope string_scope.
Local Open Scope list_scope.
Local Open Scope Z_scope.

(** ** Machine integers and bytes *)

Definition wrap (w : Z) (z : Z) : Z := z mod 2 ^ w.

(** Go's [int] on the 64-bit Windows target: two's complement wrap. *)
Definition wrap_int (z : Z) : Z := (z + 2 ^ 63) mod 2 ^ 64 - 2 ^ 63.

Definition Z_of_byte (b : byte) : Z := Z.of_N (Byte.to_N b).

Definition byte_of_Z (z : Z) : byte :=
  match Byte.of_N (Z.to_N (z mod 256)) with
  | Some b => b
  | None => x00
  end.

Fixpoint bytes_Equal (a b : list byte) : bool :=
  match a, b with
  | [], [] => true
  | x :: a', y :: b' => Byte.eqb x y && bytes_Equal a' b'
  | _, _ => false
  end.

(** [binary.LittleEndian.Uint16] on the first two bytes. *)
Definition le_uint16 (lo hi : byte) : Z := Z_of_byte lo + 256 * Z_of_byte hi.

(** [binary.Write(buf, binary.LittleEndian, uint16(n))]: the conversion to
    [uint16] keeps the low 16 bits. *)
Definition put_le_uint16 (n : Z) : list byte :=
  let v := wrap 16 n in [byte_of_Z v; byte_of_Z (v / 256)].

(** ** Formatting verbs used by the display hint *)

Definition hex_digit (d : Z) : ascii :=
  if d <? 10 then ascii_of_nat (Z.to_nat (48 + d))
  else ascii_of_nat (Z.to_nat (55 + d)).

Fixpoint hex_go (fuel : nat) (n : Z) (acc : string) : string :=
  match fuel with
  | O => acc
  | S fuel' =>
      let acc' := String (hex_digit (n mod 16)) acc in
      if n / 16 =? 0 then acc' else hex_go fuel' (n / 16) acc'
  end.

(** [fmt.Sprintf("%X", n)] for an unsigned value below [2^64]. *)
Definition fmt_X (n : Z) : string := hex_go 16 n "".

(** [fmt.Sprintf("%d", n)]. *)
Definition fmt_d (n : Z) : string := pretty n.

Fixpoint strings_Join (parts : list string) (sep : string) : string :=
  match parts with
  | [] => ""
  | [p] => p
  | p :: rest => p +:+ sep +:+ strings_Join rest sep
  end.

(** ** The key-name table shared by the three packages *)

Definition keyMap_entries : list (string * Z) :=
  [ ("A", 0x41); ("B", 0x42); ("C", 0x43); ("D", 0x44); ("E", 0x45);
    ("F", 0x46); ("G", 0x47); ("H", 0x48); ("I", 0x49); ("J", 0x4A);
    ("K", 0x4B); ("L", 0x4C); ("M", 0x4D); ("N", 0x4E); ("O", 0x4F);
    ("P", 0x50); ("Q", 0x51); ("R", 0x52); ("S", 0x53); ("T", 0x54);
    ("U", 0x55); ("V", 0x56); ("W", 0x57); ("X", 0x58); ("Y", 0x59);
    ("Z", 0x5A);
    ("0", 0x30); ("1", 0x31); ("2", 0x32); ("3", 0x33); ("4", 0x34);
    ("5", 0x35); ("6", 0x36); ("7", 0x37); ("8", 0x38); ("9", 0x39);
    ("F1", 0x70); ("F2", 0x71); ("F3", 0x72); ("F4", 0x73);
    ("F5", 0x74); ("F6", 0x75); ("F7", 0x76); ("F8", 0x77);
    ("F9", 0x78); ("F10", 0x79); ("F11", 0x7A); ("F12", 0x7B);
    ("VOLUMEMUTE", 0xAD); ("VOLUMEDOWN", 0xAE); ("VOLUMEUP", 0xAF);
    ("MEDIANEXTTRACK", 0xB0); ("MEDIAPREVTRACK", 0xB1);
    ("MEDIASTOP", 0xB2); ("MEDIAPLAYPAUSE", 0xB3); ("LAUNCHMAIL", 0xB4);
    ("LAUNCHMEDIASELECT", 0xB5); ("LAUNCHAPP1", 0xB6);
    ("LAUNCHAPP2", 0xB7);
    ("AUDIOVOLUMEMUTE", 0xAD); ("AUDIOVOLUMEDOWN", 0xAE);
    ("AUDIOVOLUMEUP", 0xAF); ("GRAVE", 0xC0); ("TILDE", 0xC0) ].

Definition keyMap : gmap string Z := list_to_map keyMap_entries.

(** * platform/windows/input.go *)

Module Input.

(** [InputSourceType] is a [uint8]; the named constants are 0..4 and any
    other byte is a legal (unnamed) value of the type. *)
Definition SourceKeyboard : byte := x00.
Definition SourceMouseButton : byte := x01.
Definition SourceMouseWheel : byte := x02.
Definition SourceHID : byte := x03.
Definition SourceUnknown : byte := x04.

Definition ModCtrl : Z := 1.
Definition ModAlt : Z := 2.
Definition ModShift : Z := 4.
Definition ModWin : Z := 8.

Record InputSignature := mkSig {
  Hash : Z;                 (* uint64 *)
  RawData : list byte;
  SourceType : byte;        (* InputSourceType *)
  DisplayHint : string;
  RecordedAt : Z;           (* time.Time; 0 is the zero time *)
  ModifierState : byte      (* uint8 *)
}.

Definition set_Hash (h : Z) (s : InputSignature) : InputSignature :=
  {| Hash := h; RawData := RawData s; SourceType := SourceType s;
     DisplayHint := DisplayHint s; RecordedAt := RecordedAt s;
     ModifierState := ModifierState s |}.

Definition set_DisplayHint (d : string) (s : InputSignature)
  : InputSignature :=
  {| Hash := Hash s; RawData := RawData s; SourceType := SourceType s;
     DisplayHint := d; RecordedAt := RecordedAt s;
     ModifierState := ModifierState s |}.

(** FNV-1a, 64 bit ([hash/fnv.New64a]): for every byte, xor then multiply
    by the prime, modulo [2^64]. *)
Definition fnv_offset64 : Z := 14695981039346656037.
Definition fnv_prime64 : Z := 1099511628211.

Definition fnv_Write (h : Z) (bs : list byte) : Z :=
  fold_left (fun h b => wrap 64 (Z.lxor h (Z_of_byte b) * fnv_prime64)) bs h.

Definition computeHash (s : InputSignature) : Z :=
  fnv_Write (fnv_Write (fnv_Write fnv_offset64 [SourceType s])
                       [ModifierState s])
            (RawData s).

Definition Equals (s other : InputSignature) : bool :=
  if negb (Hash s =? Hash other) then false
  else if negb (Byte.eqb (SourceType s) (SourceType other)) then false
  else if negb (Byte.eqb (ModifierState s) (ModifierState other)) then false
  else bytes_Equal (RawData s) (RawData other).

Definition ToBytes (s : InputSignature) : list byte :=
  [x01; SourceType s; ModifierState s]
    ++ put_le_uint16 (Z.of_nat (length (RawData s)))
    ++ RawData s.

Inductive SigError :=
| ErrTooShort                 (* "signature data too short" *)
| ErrVersion (version : byte) (* "unsupported signature version: %d" *).

(** [buf.Read(dst)] on what is left of the reader, for a destination of
    [n] zeroed bytes: as many bytes as are available are copied, the rest
    of the destination keeps its zeros. *)
Definition read_into (n : nat) (avail : list byte) : list byte :=
  take n avail ++ replicate (n - length avail) x00.

Section DisplayHint.
(** [vkToName] ranges over the Go map [keyMap]; the order of that
    iteration is not fixed by the language, so it is a parameter. *)
Variable keyMap_range : list (string * Z).

Fixpoint vkToName_from (entries : list (string * Z)) (vk : Z) : string :=
  match entries with
  | [] => ""
  | (name, code) :: rest =>
      if code =? vk then name else vkToName_from rest vk
  end.

Definition vkToName (vk : Z) : string := vkToName_from keyMap_range vk.

Definition modifier_parts (mods : byte) : list string :=
  let m := Z_of_byte mods in
  (if Z.land m ModCtrl =? 0 then [] else ["Ctrl"]) ++
  (if Z.land m ModAlt =? 0 then [] else ["Alt"]) ++
  (if Z.land m ModShift =? 0 then [] else ["Shift"]) ++
  (if Z.land m ModWin =? 0 then [] else ["Win"]).

Definition source_part (s : InputSignature) : string :=
  let raw := RawData s in
  match SourceType s with
  | x00 =>
      match raw with
      | lo :: hi :: _ =>
          let vk := le_uint16 lo hi in
          let name := vkToName vk in
          if String.eqb name "" then "Key[0x" +:+ fmt_X vk +:+ "]" else name
      | _ => "Key[?]"
      end
  | x01 =>
      match raw with
      | btn :: _ => "Mouse" +:+ fmt_d (Z_of_byte btn)
      | [] => "Mouse[?]"
      end
  | x02 =>
      match raw with
      | lo :: hi :: _ =>
          let u := le_uint16 lo hi in
          (* int16(u) > 0 *)
          if (0 <? u) && (u <? 2 ^ 15) then "WheelUp" else "WheelDown"
      | _ => "Wheel[?]"
      end
  | x03 =>
      match raw with
      | b :: _ => "HID[" +:+ fmt_X (Z_of_byte b) +:+ "...]"
      | [] => "HID[?]"
      end
  | _ => "Input[0x" +:+ fmt_X (Z.land (Hash s) 0xFFFF) +:+ "]"
  end.

Definition generateDisplayHint (s : InputSignature) : string :=
  strings_Join (modifier_parts (ModifierState s) ++ [source_part s]) "+".

(** [NewInputSignature]: [now] is the value of [time.Now()]. *)
Definition NewInputSignature (now : Z) (sourceType : byte)
    (rawData : list byte) (modifiers : byte) : InputSignature :=
  let sig := {| Hash := 0; RawData := rawData; SourceType := sourceType;
                DisplayHint := ""; RecordedAt := now;
                ModifierState := modifiers |} in
  let sig := set_Hash (computeHash sig) sig in
  set_DisplayHint (generateDisplayHint sig) sig.

Definition SignatureFromBytes (data : list byte)
  : SigError + InputSignature :=
  if Z.of_nat (length data) <? 4 then inl ErrTooShort
  else
    match data with
    | version :: srcType :: mods :: rest =>
        if negb (Byte.eqb version x01) then inl (ErrVersion version)
        else
          (* binary.Read leaves rawLen at 0 when two bytes cannot be
             read, and consumes what was there *)
          let '(rawLen, rest') :=
            match rest with
            | lo :: hi :: tl => (le_uint16 lo hi, tl)
            | _ => (0, [])
            end in
          let sig := {| Hash := 0;
                        RawData := read_into (Z.to_nat rawLen) rest';
                        SourceType := srcType; DisplayHint := "";
                        RecordedAt := 0; ModifierState := mods |} in
          let sig := set_Hash (computeHash sig) sig in
          inr (set_DisplayHint (generateDisplayHint sig) sig)
    | _ => inl ErrTooShort
    end.

End DisplayHint.

(** ** SignatureMatcher *)

Section Matcher.
(** The callbacks are Go closures; [Cb] names them, and a nil func is
    [None]. *)
Context {Cb : Type}.

Record RegisteredSignature := mkReg {
  Signature : InputSignature;
  Callback : option Cb;
  ID : string
}.

(** [signatures map[uint64][]*RegisteredSignature], from the hash to
    the entries registered under it, in order of registration. *)
Abbreviation SignatureMatcher := (gmap Z (list RegisteredSignature)).

Definition NewSignatureMatcher : SignatureMatcher := ∅.

Definition Register (m : SignatureMatcher) (sig : InputSignature)
    (id : string) (callback : option Cb) : SignatureMatcher :=
  let reg := {| Signature := sig; Callback := callback; ID := id |} in
  <[Hash sig := default [] (m !! Hash sig) ++ [reg]]> m.

(** The inner loop of [Unregister] over one bucket: the bucket without
    its first entry named [id], if there is one. *)
Fixpoint remove_first_id (id : string) (regs : list RegisteredSignature)
  : option (list RegisteredSignature) :=
  match regs with
  | [] => None
  | reg :: rest =>
      if String.eqb (ID reg) id then Some rest
      else option_map (cons reg) (remove_first_id id rest)
  end.

(** [Unregister] ranges over the map; [order] is the order in which the
    range statement visits the keys. *)
Fixpoint Unregister_range (order : list Z) (m : SignatureMatcher)
    (id : string) : SignatureMatcher :=
  match order with
  | [] => m
  | hash :: later =>
      match m !! hash with
      | None => Unregister_range later m id
      | Some regs =>
          match remove_first_id id regs with
          | Some regs' =>
              if Z.of_nat (length regs') =? 0 then delete hash m
              else <[hash := regs']> m
          | None => Unregister_range later m id
          end
      end
  end.

Definition Unregister (order : list Z) (m : SignatureMatcher)
    (id : string) : SignatureMatcher :=
  Unregister_range order m id.

Definition UnregisterAll (m : SignatureMatcher) : SignatureMatcher := ∅.

Fixpoint Match_range (regs : list RegisteredSignature)
    (sig : InputSignature) : option Cb :=
  match regs with
  | [] => None
  | reg :: rest =>
      if Equals (Signature reg) sig then Callback reg
      else Match_range rest sig
  end.

Definition Match (m : SignatureMatcher) (sig : InputSignature)
  : option Cb :=
  match m !! Hash sig with
  | None => None
  | Some regs => Match_range regs sig
  end.

End Matcher.

Arguments RegisteredSignature : clear implicits.
Abbreviation SignatureMatcher Cb := (gmap Z (list (RegisteredSignature Cb))).

End Input.

(** * Legacy hotkey strings: internal/config and platform/windows/hotkeys.go *)

Module Hotkey.

Definition MOD_ALT : Z := 0x0001.
Definition MOD_CONTROL : Z := 0x0002.
Definition MOD_SHIFT : Z := 0x0004.
Definition MOD_WIN : Z := 0x0008.

(** [strings.Split(s, "+")]: the separator is one ASCII byte, so the split
    is the same on bytes as on runes. *)
Fixpoint split_plus (cur : string) (s : string) : list string :=
  match s with
  | EmptyString => [String.rev cur]
  | String c rest =>
      if Ascii.eqb c "+"%char then String.rev cur :: split_plus "" rest
      else split_plus (String c cur) rest
  end.

Definition strings_Split_plus (s : string) : list string := split_plus "" s.

(** [strings.ToUpper] and [strings.TrimSpace] restricted to ASCII: bytes
    above 127 are left alone.  The parsers below take the two library
    functions as parameters; these are their instances for ASCII input. *)
Definition ascii_upper (c : ascii) : ascii :=
  let n := Z.of_nat (nat_of_ascii c) in
  if (97 <=? n) && (n <=? 122) then ascii_of_nat (Z.to_nat (n - 32)) else c.

Fixpoint ToUpper_ascii (s : string) : string :=
  match s with
  | EmptyString => EmptyString
  | String c rest => String (ascii_upper c) (ToUpper_ascii rest)
  end.

Definition ascii_space (c : ascii) : bool :=
  let n := Z.of_nat (nat_of_ascii c) in
  ((9 <=? n) && (n <=? 13)) || (n =? 32).

Fixpoint trim_left (s : string) : string :=
  match s with
  | String c rest => if ascii_space c then trim_left rest else s
  | EmptyString => EmptyString
  end.

Definition TrimSpace_ascii (s : string) : string :=
  String.rev (trim_left (String.rev (trim_left s))).

Inductive HotkeyError :=
| ErrUnknownKey (part : string)     (* "unknown key: %s" *)
| ErrNoValidKey (hotkey : string)   (* "no valid key found in hotkey: %s" *).

(** The loop state of both parsers: [modifiers], [vk], [foundKey]. *)
Record ParseState := mkPS { modifiers : Z; vk : Z; foundKey : bool }.

Definition is_modifier (part : string) : option Z :=
  if String.eqb part "CTRL" || String.eqb part "CONTROL" then Some MOD_CONTROL
  else if String.eqb part "ALT" then Some MOD_ALT
  else if String.eqb part "SHIFT" then Some MOD_SHIFT
  else if String.eqb part "WIN" then Some MOD_WIN
  else None.

Section Parsers.
Variable ToUpper : string -> string.
Variable TrimSpace : string -> string.

(** One turn of the [for _, part := range parts] loop: [inl part] is the
    early return taken in the [default] branch for an unknown name. *)
Definition parse_part (st : ParseState) (part0 : string)
  : string + ParseState :=
  let part := TrimSpace part0 in
  match is_modifier part with
  | Some bit =>
      inr {| modifiers := Z.lor (modifiers st) bit; vk := vk st;
             foundKey := foundKey st |}
  | None =>
      match keyMap !! part with
      | Some code =>
          inr {| modifiers := modifiers st; vk := code; foundKey := true |}
      | None => inl part
      end
  end.

Fixpoint parse_parts (st : ParseState) (parts : list string)
  : string + ParseState :=
  match parts with
  | [] => inr st
  | part0 :: rest =>
      match parse_part st part0 with
      | inl bad => inl bad
      | inr st' => parse_parts st' rest
      end
  end.

Definition parts_of (hotkeyString : string) : list string :=
  strings_Split_plus (ToUpper hotkeyString).

Definition init_state : ParseState :=
  {| modifiers := 0; vk := 0; foundKey := false |}.

(** [parseHotkey] of package [config]. *)
Definition config_parseHotkey (hotkeyString : string)
  : Z * Z * option HotkeyError :=
  match parse_parts init_state (parts_of hotkeyString) with
  | inl bad => (0, 0, Some (ErrUnknownKey bad))
  | inr st =>
      if negb (foundKey st) then (0, 0, Some (ErrNoValidKey hotkeyString))
      else (modifiers st, vk st, None)
  end.

(** The method [Hotkeys.parseHotkey] of package [windows]: the same loop, but
    both failure branches log and [return 0, 0, nil]. *)
Definition Hotkeys_parseHotkey (hotkeyString : string)
  : Z * Z * option HotkeyError :=
  match parse_parts init_state (parts_of hotkeyString) with
  | inl bad => (0, 0, None)
  | inr st =>
      if negb (foundKey st) then (0, 0, None)
      else (modifiers st, vk st, None)
  end.

End Parsers.

End Hotkey.

(** * The clipboard backend (platform/windows/clipboard.go, at its boundary) *)

Module Clipboard.

Inductive ContentType := Empty | Text | Files | Image.

Definition ContentType_eqb (a b : ContentType) : bool :=
  match a, b with
  | Empty, Empty | Text, Text | Files, Files | Image, Image => true
  | _, _ => false
  end.

(** [ClipboardContent].  The controller reads the fields [ID] and
    [Timestamp]; [Timestamp] is an instant in nanoseconds. *)
Record ClipboardContent := mkContent {
  cType : ContentType;
  cText : string;
  cFiles : list string;
  cImagePNG : list byte;
  cSizeBytes : Z;
  cPreview : string;
  cID : string;
  cTimestamp : Z
}.

(** Go's [error]: [None] is [nil]. *)
Definition error := option string.

(** The calls the controller makes into the operating system, as
    transitions of a world [W]. *)
Class Backend (W : Type) := {
  Read : W -> (ClipboardContent * error) * W;
  Write : ClipboardContent -> W -> error * W;
  GetClipboardSequenceNumber : W -> Z;
  SendCtrlV : W -> error * W;
  TypeString : string -> W -> error * W
}.

(** [time.Second] and [Time.Sub], whose [Duration] result saturates at
    the bounds of [int64]. *)
Definition Second : Z := 1000000000.

Definition Time_Sub (t u : Z) : Z :=
  let d := t - u in
  if d <? - 2 ^ 63 then - 2 ^ 63
  else if 2 ^ 63 - 1 <? d then 2 ^ 63 - 1
  else d.

End Clipboard.

(** * internal/app: the controller *)

Module App.
Import Clipboard.

Record Config := mkConfig {
  Queue_DefaultOrder : string;
  Clipboard_RestoreDelayMs : Z
}.

Record Macro := mkMacro {
  Macro_Text : string;
  Macro_Mode : string
}.

(** [mu] is [true] while the controller's mutex is held. *)
Record Controller := mkController {
  mu : bool;
  queueEnabled : bool;
  queue : list ClipboardContent;
  history : list ClipboardContent;
  snapshotOnEnable : option ClipboardContent;
  selfEventsRing : list Z;
  ringIndex : Z;
  ringSize : Z;
  cfg : Config;
  orderStrategy : string
}.

Definition set_mu (b : bool) (c : Controller) : Controller :=
  mkController b (queueEnabled c) (queue c) (history c) (snapshotOnEnable c)
    (selfEventsRing c) (ringIndex c) (ringSize c) (cfg c) (orderStrategy c).
Definition set_queueEnabled (b : bool) (c : Controller) : Controller :=
  mkController (mu c) b (queue c) (history c) (snapshotOnEnable c)
    (selfEventsRing c) (ringIndex c) (ringSize c) (cfg c) (orderStrategy c).
Definition set_queue (q : list ClipboardContent) (c : Controller)
  : Controller :=
  mkController (mu c) (queueEnabled c) q (history c) (snapshotOnEnable c)
    (selfEventsRing c) (ringIndex c) (ringSize c) (cfg c) (orderStrategy c).
Definition set_history (h : list ClipboardContent) (c : Controller)
  : Controller :=
  mkController (mu c) (queueEnabled c) (queue c) h (snapshotOnEnable c)
    (selfEventsRing c) (ringIndex c) (ringSize c) (cfg c) (orderStrategy c).
Definition set_snapshotOnEnable (s : option ClipboardContent)
    (c : Controller) : Controller :=
  mkController (mu c) (queueEnabled c) (queue c) (history c) s
    (selfEventsRing c) (ringIndex c) (ringSize c) (cfg c) (orderStrategy c).
Definition set_ring (r : list Z) (i : Z) (c : Controller) : Controller :=
  mkController (mu c) (queueEnabled c) (queue c) (history c)
    (snapshotOnEnable c) r i (ringSize c) (cfg c) (orderStrategy c).
Definition set_orderStrategy (o : string) (c : Controller) : Controller :=
  mkController (mu c) (queueEnabled c) (queue c) (history c)
    (snapshotOnEnable c) (selfEventsRing c) (ringIndex c) (ringSize c)
    (cfg c) o.

(** What an operation does that is visible from outside the controller's
    fields.  [EvStateChange held ...] is one call of [onStateChange];
    [held] tells whether the mutex was held at the call. *)
Inductive Event :=
| EvLock
| EvUnlock
| EvStateChange (held : bool) (enabled : bool) (count : Z) (mode : string)
| EvSleep (ms : Z)
| EvRead
| EvWrite (item : ClipboardContent)
| EvSendCtrlV
| EvTypeString (text : string)
| EvDequeued (item : ClipboardContent).

Inductive Fault :=
| IndexOutOfRange      (* runtime panic *)
| DivideByZero         (* runtime panic *)
| UnlockOfUnlocked     (* fatal error: sync: unlock of unlocked mutex *)
| Blocked              (* Lock on a mutex that is held: waits *).

Inductive Outcome (S A : Type) :=
| Done (a : A) (s : S)
| Stop (f : Fault) (s : S).
Arguments Done {S A}.
Arguments Stop {S A}.

Section Operations.
Context {W : Type} `{Backend W}.

Record St := mkSt { ctl : Controller; world : W; trace : list Event }.

Definition M (A : Type) : Type := St -> Outcome St A.

Definition ret {A} (a : A) : M A := fun s => Done a s.
Definition bind {A B} (m : M A) (f : A -> M B) : M B :=
  fun s => match m s with
           | Done a s' => f a s'
           | Stop e s' => Stop e s'
           end.
Definition fault {A} (e : Fault) : M A := fun s => Stop e s.

Notation "x <~ c1 ;; c2" := (bind c1 (fun x => c2))
  (at level 20, c1 at level 99, c2 at level 200, only parsing).
Notation "c1 ;> c2" := (bind c1 (fun _ => c2))
  (at level 100, c2 at level 200, right associativity, only parsing).

Definition get : M Controller := fun s => Done (ctl s) s.
Definition modify (f : Controller -> Controller) : M unit :=
  fun s => Done tt (mkSt (f (ctl s)) (world s) (trace s)).
Definition emit (e : Event) : M unit :=
  fun s => Done tt (mkSt (ctl s) (world s) (trace s ++ [e])).
Definition call {A} (f : W -> A * W) : M A :=
  fun s => let '(a, w) := f (world s) in Done a (mkSt (ctl s) w (trace s)).
Definition ask {A} (f : W -> A) : M A := fun s => Done (f (world s)) s.

(** ** The mutex and the state-change callback *)

Definition Lock : M unit :=
  c <~ get ;;
  if mu c then fault Blocked
  else modify (set_mu true) ;> emit EvLock.

Definition Unlock : M unit :=
  c <~ get ;;
  if mu c then modify (set_mu false) ;> emit EvUnlock
  else fault UnlockOfUnlocked.

(** [c.onStateChange(enabled, count, mode)] *)
Definition onStateChange (enabled : bool) (count : Z) (mode : string)
  : M unit :=
  c <~ get ;;
  emit (EvStateChange (mu c) enabled count mode).

Definition Sleep (ms : Z) : M unit := emit (EvSleep ms).

Definition windows_Read : M (ClipboardContent * error) :=
  emit EvRead ;> call Read.
Definition windows_Write (item : ClipboardContent) : M error :=
  emit (EvWrite item) ;> call (Write item).
Definition windows_GetClipboardSequenceNumber : M Z :=
  ask GetClipboardSequenceNumber.
Definition windows_SendCtrlV : M error :=
  emit EvSendCtrlV ;> call SendCtrlV.
Definition windows_TypeString (text : string) : M error :=
  emit (EvTypeString text) ;> call (TypeString text).

Definition len {A} (l : list A) : Z := Z.of_nat (length l).

(** ** NewController *)

Definition ringBufferSize : Z := 8.

Definition NewController (cfg0 : Config) : Controller :=
  let order := Queue_DefaultOrder cfg0 in
  let order :=
    if negb (String.eqb order "LIFO") && negb (String.eqb order "FIFO")
    then "LIFO" else order in
  {| mu := false; queueEnabled := false; queue := []; history := [];
     snapshotOnEnable := None;
     selfEventsRing := replicate (Z.to_nat ringBufferSize) 0;
     ringIndex := 0; ringSize := ringBufferSize; cfg := cfg0;
     orderStrategy := order |}.

(** ** The self-event ring *)

Definition addSelfEventLocked (seq : Z) : M unit :=
  c <~ get ;;
  if (0 <=? ringIndex c) && (ringIndex c <? len (selfEventsRing c)) then
    let ring := <[Z.to_nat (ringIndex c) := seq]> (selfEventsRing c) in
    modify (set_ring ring (ringIndex c)) ;>
    if ringSize c =? 0 then fault DivideByZero
    else
      modify (set_ring ring
                (Z.rem (wrap_int (ringIndex c + 1)) (ringSize c)))
  else fault IndexOutOfRange.

Definition addSelfEvent (seq : Z) : M unit :=
  Lock ;>
  addSelfEventLocked seq ;>
  Unlock.

Fixpoint isSelfEvent_range (ring : list Z) (seq : Z) : bool :=
  match ring with
  | [] => false
  | s :: rest => if s =? seq then true else isSelfEvent_range rest seq
  end.

Definition isSelfEvent (c : Controller) (seq : Z) : bool :=
  isSelfEvent_range (selfEventsRing c) seq.

(** ** ClearQueue, ToggleOrder *)

Definition ClearQueue : M unit :=
  Lock ;>
  c <~ get ;;
  (if len (queue c) =? 0 then
     onStateChange (queueEnabled c) 0 (orderStrategy c)
   else
     modify (set_queue []) ;>
     onStateChange (queueEnabled c) 0 (orderStrategy c)) ;>
  Unlock.

Definition ToggleOrder : M unit :=
  Lock ;>
  c <~ get ;;
  (if String.eqb (orderStrategy c) "LIFO"
   then modify (set_orderStrategy "FIFO")
   else modify (set_orderStrategy "LIFO")) ;>
  c <~ get ;;
  onStateChange (queueEnabled c) (len (queue c)) (orderStrategy c) ;>
  Unlock.

(** ** ToggleQueue *)

Definition ToggleQueue : M unit :=
  Lock ;>
  c <~ get ;;
  if negb (queueEnabled c) then
    Unlock ;>
    r <~ windows_Read ;;
    Lock ;>
    modify (set_snapshotOnEnable (Some (fst r))) ;>
    modify (set_queue []) ;>
    modify (set_queueEnabled true) ;>
    Unlock ;>
    c <~ get ;;
    onStateChange (queueEnabled c) (len (queue c)) (orderStrategy c)
  else
    modify (set_queueEnabled false) ;>
    modify (set_queue []) ;>
    let snapshotToRestore := snapshotOnEnable c in
    modify (set_snapshotOnEnable None) ;>
    Unlock ;>
    match snapshotToRestore with
    | Some snap =>
        windows_Write snap ;>
        seq <~ windows_GetClipboardSequenceNumber ;;
        addSelfEvent seq
    | None => ret tt
    end ;>
    c <~ get ;;
    onStateChange (queueEnabled c) 0 (orderStrategy c).

(** ** OnClipboardUpdate *)

(** The deduplication test against the last history entry. *)
Definition isDuplicate (hist : list ClipboardContent)
    (content : ClipboardContent) : bool :=
  if 0 <? len hist then
    match last hist with
    | Some lastItem =>
        if ContentType_eqb (cType content) (cType lastItem)
           && (Time_Sub (cTimestamp content) (cTimestamp lastItem)
               <? Second)
        then
          if ContentType_eqb (cType content) Text
          then String.eqb (cText content) (cText lastItem)
          else cSizeBytes content =? cSizeBytes lastItem
        else false
    | None => false
    end
  else false.

(** Add to history with rotation (keep last 50). *)
Definition addToHistory (hist : list ClipboardContent)
    (content : ClipboardContent) : list ClipboardContent :=
  let hist := if 50 <=? len hist then drop 1 hist else hist in
  hist ++ [content].

Definition OnClipboardUpdate : M unit :=
  Sleep 50 ;>
  Lock ;>
  (seq <~ windows_GetClipboardSequenceNumber ;;
   c <~ get ;;
   if isSelfEvent c seq then ret tt
   else
     r <~ windows_Read ;;
     let '(content, err) := r in
     match err with
     | Some _ => ret tt
     | None =>
         if ContentType_eqb (cType content) Empty then ret tt
         else if isDuplicate (history c) content then ret tt
         else
           modify (set_history (addToHistory (history c) content)) ;>
           if queueEnabled c then
             modify (set_queue (queue c ++ [content])) ;>
             c <~ get ;;
             onStateChange (queueEnabled c) (len (queue c))
                           (orderStrategy c)
           else ret tt
     end) ;>
  Unlock.

(** ** PasteNext *)

(** The item taken from the queue and what is left of it; the queue is
    not empty where this is used. *)
Definition dequeue (order : string) (q : list ClipboardContent)
  : option (ClipboardContent * list ClipboardContent) :=
  if String.eqb order "LIFO" then
    match last q with
    | Some item => Some (item, take (Z.to_nat (len q - 1)) q)
    | None => None
    end
  else
    match q with
    | item :: rest => Some (item, rest)
    | [] => None
    end.

Definition PasteNext : M unit :=
  Lock ;>
  c <~ get ;;
  if negb (queueEnabled c) then Unlock
  else if len (queue c) =? 0 then Unlock
  else
    match dequeue (orderStrategy c) (queue c) with
    | None => fault IndexOutOfRange
    | Some (item, rest) =>
        modify (set_queue rest) ;>
        emit (EvDequeued item) ;>
        c <~ get ;;
        onStateChange (queueEnabled c) (len (queue c)) (orderStrategy c) ;>
        Unlock ;>
        r <~ windows_Read ;;
        let '(before, err) := r in
        match err with
        | Some _ => ret tt
        | None =>
            err <~ windows_Write item ;;
            match err with
            | Some _ => ret tt
            | None =>
                seq <~ windows_GetClipboardSequenceNumber ;;
                addSelfEvent seq ;>
                Sleep 100 ;>
                err <~ windows_SendCtrlV ;;
                match err with
                | Some _ =>
                    windows_Write before ;>
                    seq <~ windows_GetClipboardSequenceNumber ;;
                    addSelfEvent seq
                | None =>
                    Sleep (Clipboard_RestoreDelayMs (cfg c)) ;>
                    windows_Write before ;>
                    seq <~ windows_GetClipboardSequenceNumber ;;
                    addSelfEvent seq
                end
            end
        end
    end.

(** ** Accessors *)

Definition GetQueue : M (list ClipboardContent) :=
  Lock ;> c <~ get ;; Unlock ;> ret (queue c).

Definition GetHistory : M (list ClipboardContent) :=
  Lock ;> c <~ get ;; Unlock ;> ret (history c).

Definition GetOrderStrategy : M string :=
  Lock ;> c <~ get ;; Unlock ;> ret (orderStrategy c).

(** ** SetOrderStrategy, RemoveItem *)

Definition SetOrderStrategy (order : string) : M error :=
  Lock ;>
  c <~ get ;;
  r <~ (if negb (String.eqb order "LIFO") && negb (String.eqb order "FIFO")
        then ret (Some "unsupported order strategy")
        else if String.eqb (orderStrategy c) order then ret None
        else
          modify (set_orderStrategy order) ;>
          c <~ get ;;
          onStateChange (queueEnabled c) (len (queue c))
                        (orderStrategy c) ;>
          ret None) ;;
  Unlock ;>
  ret r.

Definition RemoveItem (index : Z) : M error :=
  Lock ;>
  c <~ get ;;
  r <~ (if (index <? 0) || (len (queue c) <=? index)
        then ret (Some "invalid index")
        else
          modify (set_queue (take (Z.to_nat index) (queue c)
                             ++ drop (Z.to_nat (index + 1)) (queue c))) ;>
          c <~ get ;;
          onStateChange (queueEnabled c) (len (queue c))
                        (orderStrategy c) ;>
          ret None) ;;
  Unlock ;>
  ret r.

(** ** ExecuteMacro, CopyItem *)

Definition ExecuteMacro (macro : Macro) : M error :=
  if String.eqb (Macro_Mode macro) "type" then
    windows_TypeString (Macro_Text macro)
  else if String.eqb (Macro_Mode macro) "paste" then
    r <~ windows_Read ;;
    let '(oldContent, err) := r in
    match err with
    | Some e => ret (Some e)
    | None =>
        let content :=
          {| cType := Text; cText := Macro_Text macro; cFiles := [];
             cImagePNG := []; cSizeBytes := 0; cPreview := "";
             cID := ""; cTimestamp := 0 |} in
        err <~ windows_Write content ;;
        match err with
        | Some e => ret (Some e)
        | None =>
            seq <~ windows_GetClipboardSequenceNumber ;;
            addSelfEvent seq ;>
            Sleep 100 ;>
            err <~ windows_SendCtrlV ;;
            match err with
            | Some e =>
                windows_Write oldContent ;>
                seq <~ windows_GetClipboardSequenceNumber ;;
                addSelfEvent seq ;>
                ret (Some e)
            | None =>
                c <~ get ;;
                Sleep (Clipboard_RestoreDelayMs (cfg c)) ;>
                err <~ windows_Write oldContent ;;
                match err with
                | Some e => ret (Some e)
                | None =>
                    seq <~ windows_GetClipboardSequenceNumber ;;
                    addSelfEvent seq ;>
                    ret None
                end
            end
        end
    end
  else ret (Some "unsupported macro mode").

(** The [for _, item := range c.history] loop of [CopyItem]. *)
Fixpoint CopyItem_range (items : list ClipboardContent) (id : string)
  : M error :=
  match items with
  | [] => ret (Some "item not found in history")
  | item :: rest =>
      if String.eqb (cID item) id then
        err <~ windows_Write item ;;
        match err with
        | Some e => ret (Some e)
        | None =>
            seq <~ windows_GetClipboardSequenceNumber ;;
            addSelfEventLocked seq ;>
            ret None
        end
      else CopyItem_range rest id
  end.

Definition CopyItem (id : string) : M error :=
  Lock ;>
  c <~ get ;;
  r <~ CopyItem_range (history c) id ;;
  Unlock ;>
  ret r.

(** ** Operations as data, for statements over runs of the controller *)

Inductive Op :=
| OpClearQueue
| OpToggleOrder
| OpToggleQueue
| OpOnClipboardUpdate
| OpPasteNext
| OpGetQueue
| OpGetHistory
| OpGetOrderStrategy
| OpSetOrderStrategy (order : string)
| OpRemoveItem (index : Z)
| OpExecuteMacro (macro : Macro)
| OpCopyItem (id : string)
| OpAddSelfEvent (seq : Z).

Definition run_op (o : Op) : M unit :=
  match o with
  | OpClearQueue => ClearQueue
  | OpToggleOrder => ToggleOrder
  | OpToggleQueue => ToggleQueue
  | OpOnClipboardUpdate => OnClipboardUpdate
  | OpPasteNext => PasteNext
  | OpGetQueue => GetQueue ;> ret tt
  | OpGetHistory => GetHistory ;> ret tt
  | OpGetOrderStrategy => GetOrderStrategy ;> ret tt
  | OpSetOrderStrategy order => SetOrderStrategy order ;> ret tt
  | OpRemoveItem index => RemoveItem index ;> ret tt
  | OpExecuteMacro macro => ExecuteMacro macro ;> ret tt
  | OpCopyItem id => CopyItem id ;> ret tt
  | OpAddSelfEvent seq => addSelfEvent seq
  end.

(** A run: the operations one after the other. *)
Fixpoint run_ops (ops : list Op) : M unit :=
  match ops with
  | [] => ret tt
  | o :: rest => run_op o ;> run_ops rest
  end.

End Operations.

Arguments St W : clear implicits.
Arguments M W A : clear implicits.

End App.

(** * A scripted backend, to run the controller on concrete inputs *)

Module Sim.
Import Clipboard.

(** [pending] is what the next calls of [Read] will find on the clipboard,
    [seqNo] the clipboard sequence number; every [Write] advances it. *)
Record World := mkWorld { pending : list ClipboardContent; seqNo : Z }.

Definition emptyContent : ClipboardContent :=
  {| cType := Empty; cText := ""; cFiles := []; cImagePNG := [];
     cSizeBytes := 0; cPreview := "Empty clipboard"; cID := "";
     cTimestamp := 0 |}.

Definition textContent (id text : string) (ts : Z) : ClipboardContent :=
  {| cType := Text; cText := text; cFiles := []; cImagePNG := [];
     cSizeBytes := Z.of_nat (String.length text); cPreview := text;
     cID := id; cTimestamp := ts |}.

#[global] Instance scripted : Backend World := {|
  Read w :=
    match pending w with
    | x :: rest => ((x, None), mkWorld rest (seqNo w))
    | [] => ((emptyContent, None), w)
    end;
  Write item w := (None, mkWorld (pending w) (wrap 32 (seqNo w + 1)));
  GetClipboardSequenceNumber w := seqNo w;
  SendCtrlV w := (None, w);
  TypeString text w := (None, w)
|}.

Definition start (c : App.Controller) (w : World) : App.St World :=
  App.mkSt c w [].

Definition defaultCfg : App.Config :=
  {| App.Queue_DefaultOrder := "LIFO"; App.Clipboard_RestoreDelayMs := 250 |}.

End Sim.

(** * Vocabulary of the statements *)

Import Input Clipboard App.

(** ** Signatures and the matcher *)

(** Structural equality of two signatures: the identity of a signature
    is its source type, its modifiers and its raw bytes. *)
Definition struct_eq (a b : InputSignature) : Prop :=
  SourceType a = SourceType b /\ ModifierState a = ModifierState b
  /\ RawData a = RawData b.

Section MatcherVocabulary.
Context {Cb : Type}.

(** Every entry sits in the bucket of its own [Hash] field; [Register]
    files it there and nothing moves it. *)
Definition buckets_ok (m : SignatureMatcher Cb) : Prop :=
  forall h regs, m !! h = Some regs ->
    Forall (fun r => Hash (Signature r) = h) regs.

(** The bucket [Match] looks into for the query [q]. *)
Definition bucket (m : SignatureMatcher Cb) (q : InputSignature)
  : list (RegisteredSignature Cb) :=
  default [] (m !! Hash q).

(** [r] is the first entry of [regs] that is structurally equal to [q]. *)
Definition first_struct_eq (regs : list (RegisteredSignature Cb))
    (q : InputSignature) (r : RegisteredSignature Cb) : Prop :=
  exists pre post,
    regs = pre ++ r :: post
    /\ Forall (fun r' => ~ struct_eq (Signature r') q) pre
    /\ struct_eq (Signature r) q.

End MatcherVocabulary.

(** Concrete signatures: two that share the hash field 7 and differ in
    their raw bytes, and a query equal to the second that was recorded at
    another time. *)
Definition sig_a : InputSignature :=
  {| Hash := 7; RawData := [x41; x00]; SourceType := SourceKeyboard;
     DisplayHint := "A"; RecordedAt := 1; ModifierState := x03 |}.
Definition sig_b : InputSignature :=
  {| Hash := 7; RawData := [x42; x00]; SourceType := SourceKeyboard;
     DisplayHint := "B"; RecordedAt := 2; ModifierState := x03 |}.
Definition query_b : InputSignature :=
  {| Hash := 7; RawData := [x42; x00]; SourceType := SourceKeyboard;
     DisplayHint := ""; RecordedAt := 9; ModifierState := x03 |}.

Definition two_in_one_bucket : SignatureMatcher nat :=
  Register (Register NewSignatureMatcher sig_a "a" (Some 1%nat))
           sig_b "b" (Some 2%nat).

(** Ctrl+Alt+C as the keyboard hook reports it. *)
Definition sig_ctrl_alt_c : InputSignature :=
  NewInputSignature keyMap_entries 0 SourceKeyboard
    [x43; x00; x2e; x00; x00; x00; x00; x00; x00; x01] x03.

(** A signature whose raw data is 65536 bytes long. *)
Definition big_signature : InputSignature :=
  NewInputSignature keyMap_entries 0 SourceHID
    (replicate (Z.to_nat 65536) x2a) x00.

(** Version 1, keyboard, no modifiers, declared length 5, no payload. *)
Definition truncated_input : list byte := [x01; x00; x00; x05; x00].

(** ** Hotkey strings *)

(** A part that, once trimmed, is neither a modifier name nor a key of
    [keyMap]. *)
Definition unknown_part (TrimSpace : string -> string) (part0 : string)
  : Prop :=
  Hotkey.is_modifier (TrimSpace part0) = None
  /\ keyMap !! TrimSpace part0 = None.

(** ** The controller *)

(** The ring can take one more entry: the cursor is inside it. *)
Definition ring_ok (c : Controller) : Prop :=
  0 <= ringIndex c < len (selfEventsRing c) /\ ringSize c <> 0.

(** The ring as [NewController] builds it and [addSelfEvent] keeps it. *)
Definition RingInv (c : Controller) : Prop :=
  len (selfEventsRing c) = 8 /\ ringSize c = 8 /\ 0 <= ringIndex c < 8.

(** The controller between two operations. *)
Definition Inv (c : Controller) : Prop :=
  mu c = false /\ RingInv c /\ len (history c) <= 50.

(** [c'] differs from [c] at most in the ring. *)
Definition same_but_ring (c c' : Controller) : Prop :=
  mu c' = mu c /\ queueEnabled c' = queueEnabled c /\ queue c' = queue c
  /\ history c' = history c /\ snapshotOnEnable c' = snapshotOnEnable c
  /\ cfg c' = cfg c /\ orderStrategy c' = orderStrategy c.

(** What "same content" means to the deduplication: the same type, and
    equal text for text, equal size for everything else. *)
Definition same_content (x y : ClipboardContent) : Prop :=
  cType x = cType y
  /\ (if ContentType_eqb (cType x) Text then cText x = cText y
      else cSizeBytes x = cSizeBytes y).

(** The controller after an update that is taken into the history. *)
Definition recorded (c : Controller) (x : ClipboardContent) : Controller :=
  let c1 := set_history (addToHistory (history c) x) c in
  if queueEnabled c then set_queue (queue c ++ [x]) c1 else c1.

(** What [PasteNext] needs to find, and leaves behind, to go on
    dequeuing. *)
Definition ready (order : string) (c : Controller) : Prop :=
  mu c = false /\ RingInv c /\ queueEnabled c = true
  /\ orderStrategy c = order.

(** The items a run has taken from the queue, in order. *)
Fixpoint dequeued_of (t : list Event) : list ClipboardContent :=
  match t with
  | [] => []
  | EvDequeued item :: rest => item :: dequeued_of rest
  | _ :: rest => dequeued_of rest
  end.

(** Whether some state-change callback ran with the mutex held. *)
Fixpoint callback_under_lock (t : list Event) : bool :=
  match t with
  | [] => false
  | EvStateChange true _ _ _ :: _ => true
  | _ :: rest => callback_under_lock rest
  end.

Section Triples.
Context {W : Type} `{Backend W}.

(** [wp m Q s]: started in [s], [m] returns (no panic, no wait on the
    mutex), and [Q] holds of its result and final state. *)
Definition wp {A} (m : M W A) (Q : A -> St W -> Prop) (s : St W) : Prop :=
  exists a s', m s = Done a s' /\ Q a s'.

(** [m] returns and keeps the invariant. *)
Definition keeps (m : M W unit) : Prop :=
  forall s, Inv (ctl s) -> wp m (fun _ s' => Inv (ctl s')) s.

End Triples.

Arguments keeps W m : clear implicits.

(** Concrete controllers and clipboard contents. *)
Definition fresh : Controller := NewController Sim.defaultCfg.

Definition item_a : ClipboardContent := Sim.textContent "id-a" "alpha" 10.
Definition item_b : ClipboardContent := Sim.textContent "id-b" "beta" 20.
Definition item_c : ClipboardContent := Sim.textContent "id-c" "gamma" 30.

Definition queued_abc (order : string) : Controller :=
  set_orderStrategy order
    (set_queue [item_a; item_b; item_c] (set_queueEnabled true fresh)).

(** The same text copied three times: at 0 ms, 500 ms and 1600 ms. *)
Definition hello_0 : ClipboardContent := Sim.textContent "h0" "hello" 0.
Definition hello_500 : ClipboardContent :=
  Sim.textContent "h1" "hello" 500000000.
Definition hello_900 : ClipboardContent :=
  Sim.textContent "h2" "hello" 900000000.
Definition hello_1600 : ClipboardContent :=
  Sim.textContent "h3" "hello" 1600000000.

(** The [k]-th of a row of entries copied two seconds apart. *)
Definition stamped (k : nat) : ClipboardContent :=
  Sim.textContent "e" "entry" (Z.of_nat k * (2 * Second)).

(** * Callers: hook events, hotkey strings turned into signatures *)

(** [binary.LittleEndian.PutUint32]. *)
Definition put_le_uint32 (n : Z) : list byte :=
  let v := wrap 32 n in
  [byte_of_Z v; byte_of_Z (v / 2 ^ 8); byte_of_Z (v / 2 ^ 16);
   byte_of_Z (v / 2 ^ 24)].

(** ** The keyboard hook of the input listener (platform/windows) *)

Module Listener.

Definition WM_KEYDOWN : Z := 0x0100.
Definition WM_SYSKEYDOWN : Z := 0x0104.

Definition VK_LCONTROL : Z := 0xA2.
Definition VK_RCONTROL : Z := 0xA3.
Definition VK_LMENU : Z := 0xA4.
Definition VK_RMENU : Z := 0xA5.
Definition VK_LSHIFT : Z := 0xA0.
Definition VK_RSHIFT : Z := 0xA1.
Definition VK_LWIN : Z := 0x5B.
Definition VK_RWIN : Z := 0x5C.

(** The fields are [uint32]. *)
Record KBDLLHOOKSTRUCT := mkKbd {
  VkCode : Z;
  ScanCode : Z;
  Flags : Z;
  Time : Z;
  DwExtraInfo : Z
}.

Definition isModifierKey (vkCode : Z) : bool :=
  (vkCode =? VK_LCONTROL) || (vkCode =? VK_RCONTROL)
  || (vkCode =? VK_LMENU) || (vkCode =? VK_RMENU)
  || (vkCode =? VK_LSHIFT) || (vkCode =? VK_RSHIFT)
  || (vkCode =? VK_LWIN) || (vkCode =? VK_RWIN).

(** The ten raw bytes of a keyboard event: virtual key, scan code, flags
    and the message kind. *)
Definition keyboard_rawData (kb : KBDLLHOOKSTRUCT) (wParam : Z)
  : list byte :=
  put_le_uint16 (VkCode kb) ++ put_le_uint16 (ScanCode kb)
    ++ put_le_uint32 (Flags kb) ++ put_le_uint16 wParam.

Section Hook.
Context {Cb : Type}.
(** [WM_KEYUP] and [WM_SYSKEYUP] are used by the hook and declared
    outside the sources at hand. *)
Variable WM_KEYUP : Z.
Variable WM_SYSKEYUP : Z.
(** [isKeyDown], the keyboard state read through [GetAsyncKeyState]. *)
Variable isKeyDown : Z -> bool.
(** What [time.Now()] and [CallNextHook] return during the callback. *)
Variable now : Z.
Variable next : Z.
Variable keyMap_range : list (string * Z).

(** [captureChan] is a channel of capacity one: [None] when empty. *)
Record InputListener := mkListener {
  matcher : SignatureMatcher Cb;
  captureMode : bool;
  captureChan : option InputSignature
}.

Definition NewInputListener : InputListener :=
  {| matcher := NewSignatureMatcher; captureMode := false;
     captureChan := None |}.

(** [StartCapture]: the [select] with a [default] arm takes a stale
    signature out of the channel if there is one. *)
Definition StartCapture (l : InputListener) : InputListener :=
  {| matcher := matcher l; captureMode := true; captureChan := None |}.

Definition StopCapture (l : InputListener) : InputListener :=
  {| matcher := matcher l; captureMode := false;
     captureChan := captureChan l |}.

Definition getCurrentModifiers : byte :=
  let mods := 0 in
  let mods := if isKeyDown VK_LCONTROL || isKeyDown VK_RCONTROL
              then Z.lor mods ModCtrl else mods in
  let mods := if isKeyDown VK_LMENU || isKeyDown VK_RMENU
              then Z.lor mods ModAlt else mods in
  let mods := if isKeyDown VK_LSHIFT || isKeyDown VK_RSHIFT
              then Z.lor mods ModShift else mods in
  let mods := if isKeyDown VK_LWIN || isKeyDown VK_RWIN
              then Z.lor mods ModWin else mods in
  byte_of_Z mods.

(** The signature the keyboard hook builds for an event. *)
Definition keyboard_signature (kb : KBDLLHOOKSTRUCT) (wParam : Z)
  : InputSignature :=
  NewInputSignature keyMap_range now SourceKeyboard
    (keyboard_rawData kb wParam) getCurrentModifiers.

(** The callback of [setKeyboardHook]: the value returned to the system
    (1 blocks the event), the listener afterwards, and the callback that
    was started with [go], if any. *)
Definition keyboardCallback (l : InputListener) (nCode wParam : Z)
    (kb : KBDLLHOOKSTRUCT) : Z * InputListener * option Cb :=
  if (0 <=? nCode)
     && ((wParam =? WM_KEYDOWN) || (wParam =? WM_SYSKEYDOWN)
         || (wParam =? WM_KEYUP) || (wParam =? WM_SYSKEYUP))
  then
    if isModifierKey (VkCode kb) then (next, l, None)
    else
      let sig := keyboard_signature kb wParam in
      if captureMode l then
        let chan := match captureChan l with
                    | None => Some sig
                    | Some waiting => Some waiting
                    end in
        (1, {| matcher := matcher l; captureMode := false;
               captureChan := chan |}, None)
      else
        match Match (matcher l) sig with
        | Some callback => (1, l, Some callback)
        | None => (next, l, None)
        end
  else (next, l, None).

End Hook.

Arguments InputListener Cb : clear implicits.

End Listener.

(** ** Host.parseHotkeyToSignature (platform/windows) *)

Module Host.

(** The loop state of the legacy branch: [mods] and [vk]. *)
Definition legacy_part (TrimSpace : string -> string) (st : Z * Z)
    (part0 : string) : Z * Z :=
  let '(mods, vk) := st in
  let part := TrimSpace part0 in
  if String.eqb part "CTRL" || String.eqb part "CONTROL"
  then (Z.lor mods ModCtrl, vk)
  else if String.eqb part "ALT" then (Z.lor mods ModAlt, vk)
  else if String.eqb part "SHIFT" then (Z.lor mods ModShift, vk)
  else if String.eqb part "WIN" then (Z.lor mods ModWin, vk)
  else
    match keyMap !! part with
    | Some code => (mods, code)
    | None => (mods, vk)
    end.

Section Parse.
Variable ToUpper : string -> string.
Variable TrimSpace : string -> string.
(** [base64.StdEncoding.DecodeString]; [None] is a decoding error. *)
Variable DecodeString : string -> option (list byte).
(** [base64.StdEncoding.EncodeToString]. *)
Variable EncodeToString : list byte -> string.
Variable now : Z.
Variable keyMap_range : list (string * Z).

(** [InputSignature.ToBase64] of input.go. *)
Definition ToBase64 (s : InputSignature) : string :=
  EncodeToString (ToBytes s).

(** What [CaptureHotkeyWithDisplay] returns once [WaitForCapture] has
    handed it the signature [sig]: the id and the display name. *)
Definition CaptureHotkeyWithDisplay_result (sig : InputSignature)
  : string * string :=
  ("sig:" +:+ ToBase64 sig, DisplayHint sig).

Definition SignatureFromBase64 (encoded : string)
  : option InputSignature :=
  match DecodeString encoded with
  | None => None
  | Some data =>
      match SignatureFromBytes keyMap_range data with
      | inl _ => None
      | inr sig => Some sig
      end
  end.

(** The legacy branch, for "CTRL+ALT+C". *)
Definition legacy_signature (hotkeyStr : string) : option InputSignature :=
  let '(mods, vk) :=
    fold_left (legacy_part TrimSpace)
      (Hotkey.strings_Split_plus (ToUpper hotkeyStr)) (0, 0) in
  if vk =? 0 then None
  else
    let rawData := put_le_uint16 vk ++ replicate 8 x00 in
    Some (NewInputSignature keyMap_range now SourceKeyboard rawData
            (byte_of_Z mods)).

Definition parseHotkeyToSignature (hotkeyStr : string)
  : option InputSignature :=
  if String.prefix "sig:" hotkeyStr then
    SignatureFromBase64
      (String.substring 4 (String.length hotkeyStr - 4) hotkeyStr)
  else legacy_signature hotkeyStr.

End Parse.

End Host.

(** ** config.generateSignatureFromHotkey (internal/config) *)

Module Config.

(** In the constant block of package [config], [SourceKeyboard] is the
    fifth constant and is given the value of [iota] there. *)
Definition SourceKeyboard : byte := x04.

Section Generate.
Variable ToUpper : string -> string.
Variable TrimSpace : string -> string.
(** [base64.StdEncoding.EncodeToString]. *)
Variable EncodeToString : list byte -> string.

(** The buffer that is handed to the encoder. *)
Definition signature_buffer (modifiers vk : Z) : list byte :=
  let rawData := put_le_uint16 vk in
  [x01; SourceKeyboard; byte_of_Z modifiers]
    ++ put_le_uint16 (Z.of_nat (length rawData)) ++ rawData.

Definition generateSignatureFromHotkey (hotkeyString : string)
  : string * option Hotkey.HotkeyError :=
  match Hotkey.config_parseHotkey ToUpper TrimSpace hotkeyString with
  | (_, _, Some err) => ("", Some err)
  | (modifiers, vk, None) =>
      (EncodeToString (signature_buffer modifiers vk), None)
  end.

End Generate.

End Config.

(** ** Runs of the matcher *)

Section MatcherRuns.
Context {Cb : Type}.

Inductive MatcherOp :=
| MRegister (sig : InputSignature) (id : string) (callback : option Cb)
| MUnregister (order : list Z) (id : string)
| MUnregisterAll.

Definition matcher_step (m : SignatureMatcher Cb) (o : MatcherOp)
  : SignatureMatcher Cb :=
  match o with
  | MRegister sig id callback => Register m sig id callback
  | MUnregister order id => Unregister order m id
  | MUnregisterAll => UnregisterAll m
  end.

Definition matcher_run (ops : list MatcherOp) : SignatureMatcher Cb :=
  fold_left matcher_step ops NewSignatureMatcher.

(** No bucket is empty, and every entry sits in the bucket of its hash. *)
Definition registry_ok (m : SignatureMatcher Cb) : Prop :=
  forall h regs, m !! h = Some regs ->
    regs <> [] /\ Forall (fun r => Hash (Signature r) = h) regs.

(** No entry of the registry is named [id]. *)
Definition id_free (id : string) (m : SignatureMatcher Cb) : Prop :=
  forall h regs, m !! h = Some regs -> Forall (fun r => ID r <> id) regs.

End MatcherRuns.

Arguments MatcherOp Cb : clear implicits.

(** A signature carries the hash of its own fields. *)
Definition well_hashed (s : InputSignature) : Prop := Hash s = computeHash s.

(** ** More vocabulary for the controller *)

(** The queue mode, the snapshot and the order strategy as the operations
    keep them. *)
Definition ModeInv (c : Controller) : Prop :=
  (orderStrategy c = "LIFO" \/ orderStrategy c = "FIFO")
  /\ (queueEnabled c = false -> queue c = [] /\ snapshotOnEnable c = None)
  /\ (queueEnabled c = true -> snapshotOnEnable c <> None).

(** The clipboard accesses of a trace. *)
Fixpoint clipboard_events (t : list Event) : list Event :=
  match t with
  | [] => []
  | EvRead :: rest => EvRead :: clipboard_events rest
  | EvWrite item :: rest => EvWrite item :: clipboard_events rest
  | EvSendCtrlV :: rest => EvSendCtrlV :: clipboard_events rest
  | EvTypeString text :: rest => EvTypeString text :: clipboard_events rest
  | _ :: rest => clipboard_events rest
  end.

(** The state-change callbacks of a trace. *)
Fixpoint callbacks_of (t : list Event) : list (bool * Z * string) :=
  match t with
  | [] => []
  | EvStateChange _ enabled count mode :: rest =>
      (enabled, count, mode) :: callbacks_of rest
  | _ :: rest => callbacks_of rest
  end.

(** [n] is what was recorded [k] recordings ago: it sits [k + 1] slots
    behind the cursor of the ring. *)
Definition recent_at (c : Controller) (k : Z) (n : Z) : Prop :=
  selfEventsRing c !! Z.to_nat ((ringIndex c - 1 - k) mod 8) = Some n.

(** The state a controller reports to its state-change callback. *)
Definition reported (c : Controller) : bool * Z * string :=
  (queueEnabled c, len (queue c), orderStrategy c).

Section Recording.
Context {W : Type} `{Backend W}.

(** From a state between two operations in which [P] holds, [m] returns
    in a state in which [P] holds. *)
Definition preserves (P : Controller -> Prop) (m : M W unit) : Prop :=
  forall s, Inv (ctl s) -> P (ctl s) -> wp m (fun _ s' => P (ctl s')) s.

(** [addSelfEvent] for each number of a list, in order. *)
Fixpoint record_all (seqs : list Z) : M W unit :=
  match seqs with
  | [] => ret tt
  | seq :: rest => bind (addSelfEvent seq) (fun _ => record_all rest)
  end.

End Recording.

Arguments preserves W P m : clear implicits.

(** A keyboard event: C pressed, scan code 0x2E. *)
Definition key_c_down : Listener.KBDLLHOOKSTRUCT :=
  Listener.mkKbd 0x43 0x2E 0 0 0.

(** The keyboard state with left Ctrl and left Alt held. *)
Definition ctrl_alt_held (vk : Z) : bool :=
  (vk =? Listener.VK_LCONTROL) || (vk =? Listener.VK_LMENU).

(** What the legacy branch of [parseHotkeyToSignature] makes of
    "Ctrl+Alt+C". *)
Definition legacy_ctrl_alt_c : InputSignature :=
  NewInputSignature keyMap_entries 0 SourceKeyboard
    (put_le_uint16 0x43 ++ replicate 8 x00) x03.

(** A listener whose only registration is that signature. *)
Definition legacy_listener : Listener.InputListener nat :=
  {| Listener.matcher :=
       Register NewSignatureMatcher legacy_ctrl_alt_c "toggle_queue"
         (Some 1%nat);
     Listener.captureMode := false;
     Listener.captureChan := None |}.

(** A codec that stands for base64 in the examples: the bytes themselves,
    as a string. *)
Definition plain_Encode (data : list byte) : string :=
  string_of_list_byte data.

Definition plain_Decode (s : string) : option (list byte) :=
  Some (list_byte_of_string s).

(** A clipboard with nothing to read, at sequence number 5. *)
Definition quiet_world : Sim.World := Sim.mkWorld [] 5.

(** A clipboard on which "hello" is waiting to be read. *)
Definition hello_world : Sim.World := Sim.mkWorld [hello_0] 5.

(** * Bytes *)

Lemma Z_of_byte_range (b : byte) : 0 <= Z_of_byte b < 256.
Proof.
  unfold Z_of_byte. pose proof (Byte.to_N_bounded b). lia.
Qed.

Lemma Z_of_byte_of_Z (z : Z) : Z_of_byte (byte_of_Z z) = z mod 256.
Proof.
  unfold Z_of_byte, byte_of_Z.
  assert (Hr : 0 <= z mod 256 < 256) by (apply Z.mod_pos_bound; lia).
  destruct (Byte.of_N (Z.to_N (z mod 256))) as [b|] eqn:E.
  - apply Byte.to_of_N in E. rewrite E. lia.
  - apply Byte.of_N_None_iff in E. lia.
Qed.

Lemma byte_of_Z_of_byte (b : byte) : byte_of_Z (Z_of_byte b) = b.
Proof.
  unfold byte_of_Z. pose proof (Z_of_byte_range b) as Hr.
  rewrite Z.mod_small by lia. unfold Z_of_byte.
  rewrite N2Z.id, Byte.of_to_N. reflexivity.
Qed.

Lemma byte_eqb_eq (x y : byte) : Byte.eqb x y = true <-> x = y.
Proof.
  split; [apply Byte.byte_dec_bl | apply Byte.byte_dec_lb].
Qed.

Lemma byte_eqb_refl (x : byte) : Byte.eqb x x = true.
Proof. now apply byte_eqb_eq. Qed.

Lemma bytes_Equal_eq (a b : list byte) : bytes_Equal a b = true <-> a = b.
Proof.
  revert b. induction a as [|x a IH]; intros [|y b]; simpl; split;
    try congruence; try discriminate.
  - intros Hxy. apply andb_true_iff in Hxy as [Hx Ha].
    apply byte_eqb_eq in Hx. apply IH in Ha. congruence.
  - intros [= -> ->]. apply andb_true_iff. split.
    + apply byte_eqb_refl.
    + now apply IH.
Qed.

(** The two bytes of the length field read back as the length modulo
    [2^16]. *)
Lemma le_uint16_put (n : Z) :
  match put_le_uint16 n with
  | [lo; hi] => le_uint16 lo hi = n mod 2 ^ 16
  | _ => False
  end.
Proof.
  unfold put_le_uint16, le_uint16, wrap. cbv zeta.
  rewrite !Z_of_byte_of_Z.
  assert (Hr : 0 <= n mod 2 ^ 16 < 2 ^ 16) by (apply Z.mod_pos_bound; lia).
  set (v := n mod 2 ^ 16) in *.
  rewrite (Z.mod_small (v / 256)).
  - pose proof (Z.div_mod v 256). lia.
  - split; [apply Z.div_pos; lia | apply Z.div_lt_upper_bound; lia].
Qed.

(** * Serialization of signatures *)

Lemma read_into_exact (raw : list byte) :
  read_into (length raw) raw = raw.
Proof.
  unfold read_into. rewrite firstn_all, Nat.sub_diag. simpl.
  apply app_nil_r.
Qed.

Lemma computeHash_fields (a b : InputSignature) :
  struct_eq a b -> computeHash a = computeHash b.
Proof.
  unfold computeHash. intros (-> & -> & ->). reflexivity.
Qed.

(** What the deserializer does with a version-1 header of five bytes. *)
Lemma SignatureFromBytes_v1 (range : list (string * Z))
    (st mods lo hi : byte) (tl : list byte) :
  exists s',
    SignatureFromBytes range (x01 :: st :: mods :: lo :: hi :: tl) = inr s'
    /\ SourceType s' = st /\ ModifierState s' = mods
    /\ RawData s' = read_into (Z.to_nat (le_uint16 lo hi)) tl
    /\ Hash s' = computeHash s'
    /\ DisplayHint s' = generateDisplayHint range s'.
Proof.
  unfold SignatureFromBytes.
  destruct (Z.of_nat (length (x01 :: st :: mods :: lo :: hi :: tl)) <? 4)
    eqn:E4; [apply Z.ltb_lt in E4; simpl in E4; lia|].
  cbn [Byte.eqb negb]. eexists. split; [reflexivity|]. cbn. repeat split.
Qed.

(** The only two ways in which the deserializer fails. *)
Lemma SignatureFromBytes_error (range : list (string * Z))
    (data : list byte) :
  (exists e, SignatureFromBytes range data = inl e) <->
  (Z.of_nat (length data) < 4 \/ exists v, head data = Some v /\ v <> x01).
Proof.
  unfold SignatureFromBytes.
  destruct (Z.of_nat (length data) <? 4) eqn:Hlen.
  - apply Z.ltb_lt in Hlen. split; eauto.
  - apply Z.ltb_ge in Hlen.
    destruct data as [|version [|srcType [|mods rest]]];
      try (simpl in Hlen; lia).
    simpl head.
    destruct (Byte.eqb version x01) eqn:Hv; simpl.
    + apply byte_eqb_eq in Hv. subst version.
      destruct rest as [|lo [|hi tl]]; (split;
        [ intros [e He]; discriminate
        | intros [Hl | (v & [= <-] & Hne)];
          [simpl in *; lia | congruence] ]).
    + apply Byte.eqb_false in Hv. split; eauto.
Qed.

(** C3 (as amended): for every signature whose raw data is shorter than
    [2^16] bytes, deserializing its serialization succeeds and gives a
    signature with the same source type, modifiers and raw bytes; the hash
    and the display hint of the result are computed from these fields by
    [computeHash] and [generateDisplayHint], whatever [s] carried. *)
Theorem SignatureFromBytes_ToBytes (range : list (string * Z))
    (s : InputSignature) :
  Z.of_nat (length (RawData s)) < 2 ^ 16 ->
  exists s',
    SignatureFromBytes range (ToBytes s) = inr s'
    /\ SourceType s' = SourceType s
    /\ ModifierState s' = ModifierState s
    /\ RawData s' = RawData s
    /\ Hash s' = computeHash s
    /\ Hash s' = computeHash s'
    /\ DisplayHint s' = generateDisplayHint range s'.
Proof.
  intros Hlen. unfold ToBytes.
  pose proof (le_uint16_put (Z.of_nat (length (RawData s)))) as Hput.
  destruct (put_le_uint16 (Z.of_nat (length (RawData s))))
    as [|lo [|hi [|? ?]]] eqn:Eput; try contradiction.
  rewrite Z.mod_small in Hput by lia. cbn [app].
  destruct (SignatureFromBytes_v1 range (SourceType s) (ModifierState s)
              lo hi (RawData s)) as (s' & Hs & Hst & Hm & Hraw & Hh & Hd).
  rewrite Hput, Nat2Z.id, read_into_exact in Hraw.
  exists s'. repeat split; try assumption.
  rewrite Hh. apply computeHash_fields. repeat split; assumption.
Qed.

Lemma SignatureFromBytes_ToBytes_witness :
  exists s',
    SignatureFromBytes keyMap_entries (ToBytes sig_ctrl_alt_c) = inr s'
    /\ SourceType s' = SourceType sig_ctrl_alt_c
    /\ ModifierState s' = ModifierState sig_ctrl_alt_c
    /\ RawData s' = RawData sig_ctrl_alt_c
    /\ Hash s' = computeHash sig_ctrl_alt_c
    /\ Hash s' = computeHash s'
    /\ DisplayHint s' = generateDisplayHint keyMap_entries s'.
Proof.
  apply (SignatureFromBytes_ToBytes keyMap_entries sig_ctrl_alt_c).
  vm_compute. reflexivity.
Defined.

(** C3 as stated fails: a signature with 65536 raw bytes is written with
    the length field 0 and comes back with no raw bytes at all. *)
Lemma SignatureFromBytes_ToBytes_long_counterexample :
  exists s',
    SignatureFromBytes keyMap_entries (ToBytes big_signature) = inr s'
    /\ RawData s' = []
    /\ Z.of_nat (length (RawData big_signature)) = 65536
    /\ RawData s' <> RawData big_signature.
Proof.
  assert (Hlen : Z.of_nat (length (RawData big_signature)) = 65536).
  { cbn [big_signature NewInputSignature set_DisplayHint set_Hash RawData].
    rewrite length_replicate. apply Z2Nat.id. lia. }
  unfold ToBytes. rewrite Hlen.
  change (put_le_uint16 65536) with [x00; x00]. cbn [app].
  destruct (SignatureFromBytes_v1 keyMap_entries
              (SourceType big_signature) (ModifierState big_signature)
              x00 x00 (RawData big_signature))
    as (s' & Hs & _ & _ & Hraw & _).
  assert (Hnil : RawData s' = []) by (rewrite Hraw; reflexivity).
  exists s'. split; [exact Hs|]. split; [exact Hnil|]. split; [reflexivity|].
  rewrite Hnil. intros Heq. rewrite <- Heq in Hlen. discriminate.
Qed.

(** C4: the input [01 00 00 05 00] declares five bytes of raw data and
    carries none; it is at least four bytes long and of version 1, and
    [SignatureFromBytes] returns no error for it but a signature whose raw
    data are five zero bytes. *)
Theorem SignatureFromBytes_accepts_truncated :
  exists s',
    SignatureFromBytes keyMap_entries truncated_input = inr s'
    /\ RawData s' = [x00; x00; x00; x00; x00]
    /\ le_uint16 x05 x00 = 5
    /\ length (drop 5 truncated_input) = 0%nat.
Proof. eexists. repeat split; vm_compute; reflexivity. Qed.

(** * The signature matcher *)

Lemma Equals_spec (a b : InputSignature) :
  Equals a b = true <-> Hash a = Hash b /\ struct_eq a b.
Proof.
  unfold Equals, struct_eq.
  destruct (Hash a =? Hash b) eqn:Eh; simpl.
  2: { apply Z.eqb_neq in Eh. split; [discriminate | tauto]. }
  apply Z.eqb_eq in Eh.
  destruct (Byte.eqb (SourceType a) (SourceType b)) eqn:Es; simpl.
  2: { apply Byte.eqb_false in Es. split; [discriminate | tauto]. }
  apply byte_eqb_eq in Es.
  destruct (Byte.eqb (ModifierState a) (ModifierState b)) eqn:Em; simpl.
  2: { apply Byte.eqb_false in Em. split; [discriminate | tauto]. }
  apply byte_eqb_eq in Em.
  rewrite bytes_Equal_eq. tauto.
Qed.

Section MatcherFacts.
Context {Cb : Type}.
Implicit Types (m : SignatureMatcher Cb).
Implicit Types (regs : list (RegisteredSignature Cb)).

Lemma buckets_ok_New : buckets_ok (NewSignatureMatcher (Cb := Cb)).
Proof.
  intros h regs Hl. unfold NewSignatureMatcher in Hl.
  rewrite lookup_empty in Hl. discriminate.
Qed.

Lemma buckets_ok_Register m sig id cb :
  buckets_ok m -> buckets_ok (Register m sig id cb).
Proof.
  intros Hok h regs. unfold Register, buckets_ok in *.
  destruct (decide (Hash sig = h)) as [<-|Hne].
  - rewrite lookup_insert_eq. intros [= <-].
    apply Forall_app. split.
    + destruct (m !! Hash sig) as [old|] eqn:E; simpl; [eauto | constructor].
    + repeat constructor.
  - rewrite lookup_insert_ne by exact Hne. apply Hok.
Qed.

Lemma remove_first_id_Forall P id regs regs' :
  remove_first_id id regs = Some regs' -> Forall P regs -> Forall P regs'.
Proof.
  revert regs'. induction regs as [|r regs IH]; simpl; intros regs' Hr HF.
  - discriminate.
  - inversion HF as [|? ? Hr0 HF0]; subst.
    destruct (String.eqb (ID r) id).
    + injection Hr as <-. exact HF0.
    + destruct (remove_first_id id regs) as [tl|]; simpl in Hr;
        [|discriminate].
      injection Hr as <-. constructor; eauto.
Qed.

Lemma buckets_ok_Unregister order m id :
  buckets_ok m -> buckets_ok (Unregister order m id).
Proof.
  intros Hok. unfold Unregister, buckets_ok in *.
  induction order as [|hash later IH]; simpl; [exact Hok|].
  destruct (_ !! hash) as [regs|] eqn:E in |- *; [|exact IH].
  destruct (remove_first_id id regs) as [regs'|] eqn:Er; [|exact IH].
  destruct (Z.of_nat (length regs') =? 0).
  - intros h rs. destruct (decide (hash = h)) as [<-|Hne].
    + rewrite lookup_delete_eq. discriminate.
    + rewrite lookup_delete_ne by exact Hne. apply Hok.
  - intros h rs. destruct (decide (hash = h)) as [<-|Hne].
    + rewrite lookup_insert_eq. intros [= <-].
      eapply remove_first_id_Forall; eauto.
    + rewrite lookup_insert_ne by exact Hne. apply Hok.
Qed.

Lemma buckets_ok_UnregisterAll m : buckets_ok (UnregisterAll m).
Proof. apply buckets_ok_New. Qed.

(** The scan of one bucket, all of whose entries carry the hash of the
    query: it stops at the first structurally equal entry. *)
Lemma Match_range_spec regs q :
  Forall (fun r => Hash (Signature r) = Hash q) regs ->
  (exists r, first_struct_eq regs q r /\ Match_range regs q = Callback r)
  \/ (Forall (fun r => ~ struct_eq (Signature r) q) regs
      /\ Match_range regs q = None).
Proof.
  induction regs as [|r regs IH]; intros HF.
  - right. split; [constructor | reflexivity].
  - inversion HF as [|? ? Hr HF']; subst. simpl.
    destruct (Equals (Signature r) q) eqn:E.
    + apply Equals_spec in E as [_ Hs]. left. exists r.
      split; [|reflexivity].
      exists [], regs. repeat split; auto; apply Hs.
    + assert (Hns : ~ struct_eq (Signature r) q).
      { intros Hs. assert (Equals (Signature r) q = true) as E'
          by (apply Equals_spec; auto). congruence. }
      destruct (IH HF')
        as [(r' & (pre & post & -> & Hpre & Hs) & Hm) | [Hall Hm]].
      * left. exists r'. split; [|exact Hm].
        exists (r :: pre), post. repeat split; auto; apply Hs.
      * right. split; [constructor; auto | exact Hm].
Qed.

Lemma first_struct_eq_unique regs q r1 r2 :
  first_struct_eq regs q r1 -> first_struct_eq regs q r2 -> r1 = r2.
Proof.
  revert r1 r2. induction regs as [|r regs IH]; intros r1 r2
    (pre1 & post1 & E1 & F1 & S1) (pre2 & post2 & E2 & F2 & S2).
  - destruct pre1; discriminate.
  - destruct pre1 as [|a pre1], pre2 as [|b pre2]; simpl in *.
    + congruence.
    + injection E1 as <- _. injection E2 as <- _.
      inversion F2; subst. contradiction.
    + injection E1 as <- _. injection E2 as <- _.
      inversion F1; subst. contradiction.
    + injection E1 as <- E1. injection E2 as _ E2.
      inversion F1; inversion F2; subst.
      apply IH; [exists pre1, post1 | exists pre2, post2]; auto.
Qed.

(** C2: in a registry whose entries sit in the bucket of their hash,
    [Match q] returns the callback [cb] exactly when the bucket of [q]'s
    hash has an entry structurally equal to [q] and [cb] is the callback
    of the first such entry; entries of that bucket that are not
    structurally equal to [q] are passed over, and when the bucket holds
    only such entries [Match] returns nothing. *)
Theorem Match_first_structural m (q : InputSignature) :
  buckets_ok m ->
  (forall cb, Match m q = Some cb <->
     exists r, first_struct_eq (bucket m q) q r /\ Callback r = Some cb)
  /\ ((forall r, r ∈ bucket m q -> ~ struct_eq (Signature r) q) ->
      Match m q = None).
Proof.
  intros Hok.
  assert (HF : Forall (fun r => Hash (Signature r) = Hash q) (bucket m q)).
  { unfold bucket. destruct (m !! Hash q) as [regs|] eqn:E; simpl;
      [eauto | constructor]. }
  assert (HM : Match m q = Match_range (bucket m q) q).
  { unfold Match, bucket. destruct (m !! Hash q); reflexivity. }
  rewrite HM. split.
  - intros cb.
    destruct (Match_range_spec _ _ HF) as [(r & Hf & Hm) | [Hall Hm]].
    + rewrite Hm. split.
      * intros Hc. exists r. auto.
      * intros (r' & Hf' & Hc).
        rewrite (first_struct_eq_unique _ _ _ _ Hf Hf'). exact Hc.
    + rewrite Hm. split; [discriminate|].
      intros (r' & (pre & post & E & _ & Hs) & _).
      rewrite E in Hall. apply Forall_app in Hall as [_ Hall].
      inversion Hall; subst. contradiction.
  - intros Hnone.
    destruct (Match_range_spec _ _ HF)
      as [(r & (pre & post & E & _ & Hs) & _) | [_ Hm]]; [|exact Hm].
    exfalso. apply (Hnone r); [|exact Hs].
    rewrite E. apply elem_of_app. right. apply elem_of_cons. left.
    reflexivity.
Qed.

End MatcherFacts.

Lemma Match_first_structural_witness :
  (forall cb, Match two_in_one_bucket query_b = Some cb <->
     exists r, first_struct_eq (bucket two_in_one_bucket query_b) query_b r
               /\ Callback r = Some cb)
  /\ ((forall r, r ∈ bucket two_in_one_bucket query_b ->
                 ~ struct_eq (Signature r) query_b) ->
      Match two_in_one_bucket query_b = None).
Proof.
  apply (Match_first_structural two_in_one_bucket query_b).
  unfold two_in_one_bucket.
  apply buckets_ok_Register, buckets_ok_Register, buckets_ok_New.
Defined.

(** The two entries collide on the hash field, and the query gets the
    callback of the second one. *)
Example Match_collision :
  Hash sig_a = Hash sig_b
  /\ Match two_in_one_bucket sig_a = Some 1%nat
  /\ Match two_in_one_bucket query_b = Some 2%nat.
Proof. repeat split; vm_compute; reflexivity. Qed.

(** * Legacy hotkey strings *)

Section HotkeyFacts.
Variable ToUpper : string -> string.
Variable TrimSpace : string -> string.

Lemma parse_parts_unknown (st : Hotkey.ParseState) (parts : list string) :
  Exists (unknown_part TrimSpace) parts ->
  exists bad, Hotkey.parse_parts TrimSpace st parts = inl bad.
Proof.
  intros Hex. revert st.
  induction parts as [|part0 rest IH]; intros st; [inversion Hex|].
  cbn [Hotkey.parse_parts]. unfold Hotkey.parse_part.
  destruct (Hotkey.is_modifier (TrimSpace part0)) as [bit|] eqn:Emod.
  - inversion Hex as [? ? [Hm _]|? ? Hrest]; subst; [congruence|].
    apply IH. exact Hrest.
  - destruct (keyMap !! TrimSpace part0) as [code|] eqn:Ekey.
    + inversion Hex as [? ? [_ Hk]|? ? Hrest]; subst; [congruence|].
      apply IH. exact Hrest.
    + eauto.
Qed.

(** The parser of package [config] reports every unknown part. *)
Lemma config_parseHotkey_unknown (hotkeyString : string) :
  Exists (unknown_part TrimSpace) (Hotkey.parts_of ToUpper hotkeyString) ->
  exists bad,
    Hotkey.config_parseHotkey ToUpper TrimSpace hotkeyString
    = (0, 0, Some (Hotkey.ErrUnknownKey bad)).
Proof.
  intros Hex. unfold Hotkey.config_parseHotkey.
  destruct (parse_parts_unknown Hotkey.init_state _ Hex) as [bad ->].
  eauto.
Qed.

(** The parser of [Hotkeys] never returns an error. *)
Lemma Hotkeys_parseHotkey_no_error (hotkeyString : string) :
  snd (Hotkey.Hotkeys_parseHotkey ToUpper TrimSpace hotkeyString) = None.
Proof.
  unfold Hotkey.Hotkeys_parseHotkey.
  destruct (Hotkey.parse_parts _ _ _) as [bad|st]; [reflexivity|].
  destruct (negb (Hotkey.foundKey st)); reflexivity.
Qed.

End HotkeyFacts.

(** C9: "Ctrl+Foo" splits into CTRL and FOO; FOO is neither a modifier
    nor in the key table.  The parser of package [config] returns the
    unknown-key error for it, the method [Hotkeys.parseHotkey] returns
    [0, 0] and a nil error. *)
Theorem Hotkeys_parseHotkey_unknown_key :
  Hotkey.parts_of Hotkey.ToUpper_ascii "Ctrl+Foo" = ["CTRL"; "FOO"]
  /\ Hotkey.is_modifier "FOO" = None
  /\ keyMap !! "FOO" = None
  /\ Hotkey.config_parseHotkey Hotkey.ToUpper_ascii Hotkey.TrimSpace_ascii
       "Ctrl+Foo" = (0, 0, Some (Hotkey.ErrUnknownKey "FOO"))
  /\ Hotkey.Hotkeys_parseHotkey Hotkey.ToUpper_ascii Hotkey.TrimSpace_ascii
       "Ctrl+Foo" = (0, 0, None).
Proof. repeat split; vm_compute; reflexivity. Qed.

Example parseHotkey_Ctrl_Alt_C :
  Hotkey.config_parseHotkey Hotkey.ToUpper_ascii Hotkey.TrimSpace_ascii
    "Ctrl+Alt+C" = (3, 0x43, None)
  /\ Hotkey.Hotkeys_parseHotkey Hotkey.ToUpper_ascii Hotkey.TrimSpace_ascii
       " ctrl + alt + c " = (3, 0x43, None).
Proof. split; vm_compute; reflexivity. Qed.

(** * The controller: running the operations *)

Ltac fields :=
  cbn [ctl world trace mu queueEnabled queue history snapshotOnEnable
       selfEventsRing ringIndex ringSize cfg orderStrategy
       set_mu set_queueEnabled set_queue set_history set_snapshotOnEnable
       set_ring set_orderStrategy] in *.

Ltac run_monad :=
  unfold Lock, Unlock, onStateChange, Sleep, windows_Read, windows_Write,
    windows_GetClipboardSequenceNumber, windows_SendCtrlV,
    windows_TypeString, bind, ret, get, modify, emit, call, ask, fault;
  cbn [ctl world trace mu queueEnabled queue history snapshotOnEnable
       selfEventsRing ringIndex ringSize cfg orderStrategy
       set_mu set_queueEnabled set_queue set_history set_snapshotOnEnable
       set_ring set_orderStrategy].

Lemma set_mu_release (c : Controller) :
  mu c = false -> set_mu false (set_mu true c) = c.
Proof. destruct c; simpl; intros ->; reflexivity. Qed.

Lemma wrap_int_small (z : Z) : - 2 ^ 63 <= z < 2 ^ 63 -> wrap_int z = z.
Proof. intros Hz. unfold wrap_int. rewrite Z.mod_small; lia. Qed.

Lemma ring_next_range (i : Z) :
  0 <= i < 8 -> 0 <= Z.rem (wrap_int (i + 1)) 8 < 8.
Proof.
  intros Hi. rewrite wrap_int_small by lia. apply Z.rem_bound_pos; lia.
Qed.

Lemma RingInv_ring_ok (c : Controller) : RingInv c -> ring_ok c.
Proof. unfold RingInv, ring_ok. lia. Qed.

Lemma isSelfEvent_range_In (ring : list Z) (seq : Z) :
  isSelfEvent_range ring seq = true <-> In seq ring.
Proof.
  induction ring as [|s ring IH]; simpl.
  - split; [discriminate | tauto].
  - destruct (s =? seq) eqn:E.
    + apply Z.eqb_eq in E. tauto.
    + apply Z.eqb_neq in E. rewrite IH. tauto.
Qed.

Lemma isSelfEvent_range_insert (ring : list Z) (i : nat) (seq : Z) :
  (i < length ring)%nat -> isSelfEvent_range (<[i := seq]> ring) seq = true.
Proof.
  intros Hi. apply isSelfEvent_range_In. apply list_elem_of_In.
  apply list_elem_of_lookup. exists i. apply list_lookup_insert_eq. exact Hi.
Qed.

Lemma isSelfEvent_range_zeros (k : nat) (n : Z) :
  n <> 0 -> isSelfEvent_range (replicate k 0) n = false.
Proof.
  intros Hn. induction k as [|k IH]; [reflexivity|].
  cbn [replicate isSelfEvent_range].
  destruct (0 =? n) eqn:E; [apply Z.eqb_eq in E; lia | exact IH].
Qed.

Lemma len_addToHistory (hist : list ClipboardContent) (x : ClipboardContent) :
  len hist <= 50 -> len (addToHistory hist x) <= 50.
Proof.
  unfold addToHistory, len. intros Hlen.
  destruct (50 <=? Z.of_nat (length hist)) eqn:E.
  - rewrite length_app, length_drop. simpl. lia.
  - apply Z.leb_gt in E. rewrite length_app. simpl. lia.
Qed.

Lemma addToHistory_cases (hist : list ClipboardContent)
    (x : ClipboardContent) :
  len hist <= 50 ->
  (len hist < 50 /\ addToHistory hist x = hist ++ [x])
  \/ (exists oldest kept,
        len hist = 50 /\ hist = oldest :: kept
        /\ addToHistory hist x = kept ++ [x]).
Proof.
  intros Hlen. unfold addToHistory.
  destruct (50 <=? len hist) eqn:E.
  - apply Z.leb_le in E. right. destruct hist as [|oldest kept].
    + unfold len in E. simpl in E. lia.
    + exists oldest, kept. repeat split. lia.
  - apply Z.leb_gt in E. left. auto.
Qed.

Lemma last_addToHistory (hist : list ClipboardContent)
    (x : ClipboardContent) :
  last (addToHistory hist x) = Some x.
Proof. unfold addToHistory. apply last_snoc. Qed.

Lemma dequeue_nonempty (order : string) (q : list ClipboardContent) :
  len q <> 0 -> exists item rest, dequeue order q = Some (item, rest).
Proof.
  unfold dequeue, len. intros Hq. destruct (String.eqb order "LIFO").
  - destruct (last q) as [item|] eqn:E; [eauto|].
    apply last_None in E. subst q. simpl in Hq. lia.
  - destruct q as [|item rest]; [simpl in Hq; lia | eauto].
Qed.

Lemma dequeued_of_app (t u : list Event) :
  dequeued_of (t ++ u) = dequeued_of t ++ dequeued_of u.
Proof.
  induction t as [|e t IH]; [reflexivity|].
  destruct e; simpl; rewrite ?IH; reflexivity.
Qed.

Ltac trace_simpl :=
  rewrite ?dequeued_of_app; cbn [dequeued_of]; rewrite ?app_nil_r.

Section Rules.
Context {W : Type} `{Backend W}.
Implicit Types (s : St W).

Lemma wp_ret {A} (a : A) Q s : Q a s -> wp (ret a) Q s.
Proof. intros HQ. exists a, s. auto. Qed.

Lemma wp_bind {A B} (m : M W A) (f : A -> M W B) Q s :
  wp m (fun a s' => wp (f a) Q s') s -> wp (bind m f) Q s.
Proof.
  intros (a & s' & Hm & b & s'' & Hf & HQ).
  exists b, s''. unfold bind. rewrite Hm. auto.
Qed.

Lemma wp_mono {A} (m : M W A) (Q Q' : A -> St W -> Prop) s :
  wp m Q s -> (forall a s', Q a s' -> Q' a s') -> wp m Q' s.
Proof. intros (a & s' & Hm & HQ) Himp. exists a, s'. auto. Qed.

Lemma wp_get Q s : Q (ctl s) s -> wp get Q s.
Proof. intros HQ. exists (ctl s), s. auto. Qed.

Lemma wp_modify f Q s :
  Q tt (mkSt (f (ctl s)) (world s) (trace s)) -> wp (modify f) Q s.
Proof. intros HQ. eexists _, _. split; [reflexivity | exact HQ]. Qed.

Lemma wp_emit e Q s :
  Q tt (mkSt (ctl s) (world s) (trace s ++ [e])) -> wp (emit e) Q s.
Proof. intros HQ. eexists _, _. split; [reflexivity | exact HQ]. Qed.

Lemma wp_call {A} (f : W -> A * W) Q s :
  Q (fst (f (world s))) (mkSt (ctl s) (snd (f (world s))) (trace s)) ->
  wp (call f) Q s.
Proof.
  intros HQ. unfold wp, call. destruct (f (world s)) as [a w'].
  eexists _, _. split; [reflexivity | exact HQ].
Qed.

Lemma wp_ask {A} (f : W -> A) Q s : Q (f (world s)) s -> wp (ask f) Q s.
Proof. intros HQ. eexists _, _. split; [reflexivity | exact HQ]. Qed.

Lemma wp_Lock Q s :
  mu (ctl s) = false ->
  Q tt (mkSt (set_mu true (ctl s)) (world s) (trace s ++ [EvLock])) ->
  wp Lock Q s.
Proof.
  intros Hmu HQ. unfold Lock. apply wp_bind, wp_get. rewrite Hmu.
  apply wp_bind, wp_modify, wp_emit. exact HQ.
Qed.

Lemma wp_Unlock Q s :
  mu (ctl s) = true ->
  Q tt (mkSt (set_mu false (ctl s)) (world s) (trace s ++ [EvUnlock])) ->
  wp Unlock Q s.
Proof.
  intros Hmu HQ. unfold Unlock. apply wp_bind, wp_get. rewrite Hmu.
  apply wp_bind, wp_modify, wp_emit. exact HQ.
Qed.

Lemma wp_onStateChange enabled count mode Q s :
  Q tt (mkSt (ctl s) (world s)
          (trace s ++ [EvStateChange (mu (ctl s)) enabled count mode])) ->
  wp (onStateChange enabled count mode) Q s.
Proof.
  intros HQ. unfold onStateChange. apply wp_bind, wp_get, wp_emit, HQ.
Qed.

Lemma wp_Sleep ms Q s :
  Q tt (mkSt (ctl s) (world s) (trace s ++ [EvSleep ms])) ->
  wp (Sleep ms) Q s.
Proof. apply wp_emit. Qed.

Lemma wp_windows_Read Q s :
  Q (fst (Read (world s)))
    (mkSt (ctl s) (snd (Read (world s))) (trace s ++ [EvRead])) ->
  wp windows_Read Q s.
Proof.
  intros HQ. unfold windows_Read. apply wp_bind, wp_emit, wp_call, HQ.
Qed.

Lemma wp_windows_Write item Q s :
  Q (fst (Write item (world s)))
    (mkSt (ctl s) (snd (Write item (world s)))
       (trace s ++ [EvWrite item])) ->
  wp (windows_Write item) Q s.
Proof.
  intros HQ. unfold windows_Write. apply wp_bind, wp_emit, wp_call, HQ.
Qed.

Lemma wp_windows_SendCtrlV Q s :
  Q (fst (SendCtrlV (world s)))
    (mkSt (ctl s) (snd (SendCtrlV (world s))) (trace s ++ [EvSendCtrlV])) ->
  wp windows_SendCtrlV Q s.
Proof.
  intros HQ. unfold windows_SendCtrlV. apply wp_bind, wp_emit, wp_call, HQ.
Qed.

Lemma wp_windows_TypeString text Q s :
  Q (fst (TypeString text (world s)))
    (mkSt (ctl s) (snd (TypeString text (world s)))
       (trace s ++ [EvTypeString text])) ->
  wp (windows_TypeString text) Q s.
Proof.
  intros HQ. unfold windows_TypeString.
  apply wp_bind, wp_emit, wp_call, HQ.
Qed.

Lemma wp_windows_GetClipboardSequenceNumber Q s :
  Q (GetClipboardSequenceNumber (world s)) s ->
  wp windows_GetClipboardSequenceNumber Q s.
Proof. apply wp_ask. Qed.

(** The ring operations keep the ring well formed, leave [seq] in it and
    touch nothing else. *)
Lemma wp_addSelfEventLocked seq Q s :
  RingInv (ctl s) ->
  (forall c', RingInv c' -> same_but_ring (ctl s) c' ->
              isSelfEvent c' seq = true ->
              Q tt (mkSt c' (world s) (trace s))) ->
  wp (addSelfEventLocked seq) Q s.
Proof.
  intros (Hlen & Hsz & Hidx) HQ. unfold addSelfEventLocked.
  apply wp_bind, wp_get.
  destruct (0 <=? ringIndex (ctl s)) eqn:E1; [|apply Z.leb_gt in E1; lia].
  destruct (ringIndex (ctl s) <? len (selfEventsRing (ctl s))) eqn:E2;
    [|apply Z.ltb_ge in E2; lia].
  cbn [andb]. apply wp_bind, wp_modify.
  destruct (ringSize (ctl s) =? 0) eqn:E3; [apply Z.eqb_eq in E3; lia|].
  apply wp_modify. cbn [ctl world trace]. apply HQ.
  - unfold RingInv, len in *. fields. rewrite length_insert, Hsz.
    pose proof (ring_next_range _ Hidx). lia.
  - unfold same_but_ring. fields. tauto.
  - unfold isSelfEvent. fields. apply isSelfEvent_range_insert.
    unfold len in *. lia.
Qed.

Lemma wp_addSelfEvent seq Q s :
  mu (ctl s) = false -> RingInv (ctl s) ->
  (forall c', RingInv c' -> same_but_ring (ctl s) c' ->
              isSelfEvent c' seq = true ->
              Q tt (mkSt c' (world s) (trace s ++ [EvLock] ++ [EvUnlock]))) ->
  wp (addSelfEvent seq) Q s.
Proof.
  intros Hmu Hring HQ. unfold addSelfEvent.
  apply wp_bind, wp_Lock; [exact Hmu|].
  apply wp_bind, wp_addSelfEventLocked; cbn [ctl world trace].
  { unfold RingInv in *. fields. exact Hring. }
  intros c' Hr Hsame Hself.
  apply wp_Unlock; cbn [ctl world trace].
  { destruct Hsame as (Hm & _). fields. exact Hm. }
  rewrite <- app_assoc.
  apply HQ.
  - unfold RingInv in *. fields. exact Hr.
  - unfold same_but_ring in *. fields. rewrite Hmu. tauto.
  - exact Hself.
Qed.

End Rules.

Ltac break_facts :=
  repeat match goal with
         | H : _ /\ _ |- _ => destruct H
         | H : same_but_ring _ _ |- _ => unfold same_but_ring in H; fields
         | H : Inv _ |- _ => unfold Inv in H; fields
         | H : RingInv _ |- _ => unfold RingInv in H; fields
         end.

Ltac solve_facts :=
  fields; break_facts; unfold Inv, RingInv; fields;
  repeat split; try assumption; try reflexivity; try lia; try congruence.

Ltac wp_prim :=
  lazymatch goal with
  | |- wp (bind _ _) _ _ => apply wp_bind
  | |- wp (ret _) _ _ => apply wp_ret
  | |- wp get _ _ => apply wp_get
  | |- wp (modify _) _ _ => apply wp_modify
  | |- wp (emit _) _ _ => apply wp_emit
  | |- wp (onStateChange _ _ _) _ _ => apply wp_onStateChange
  | |- wp (Sleep _) _ _ => apply wp_Sleep
  | |- wp windows_Read _ _ => apply wp_windows_Read
  | |- wp (windows_Write _) _ _ => apply wp_windows_Write
  | |- wp windows_SendCtrlV _ _ => apply wp_windows_SendCtrlV
  | |- wp (windows_TypeString _) _ _ => apply wp_windows_TypeString
  | |- wp windows_GetClipboardSequenceNumber _ _ =>
      apply wp_windows_GetClipboardSequenceNumber
  | |- wp (addSelfEvent _) _ _ =>
      apply wp_addSelfEvent; [solve_facts | solve_facts | intros ? ? ? ?]
  | |- wp (addSelfEventLocked _) _ _ =>
      apply wp_addSelfEventLocked; [solve_facts | intros ? ? ? ?]
  | |- wp Lock _ _ => apply wp_Lock; [fields; try assumption; try reflexivity|]
  | |- wp Unlock _ _ =>
      apply wp_Unlock; [fields; try assumption; try reflexivity|]
  end; fields.

Ltac wp_branch :=
  lazymatch goal with
  | |- wp (if ?b then _ else _) _ _ => destruct b eqn:?
  | |- wp (match ?x with Some _ => _ | None => _ end) _ _ => destruct x eqn:?
  | |- wp (let '(_, _) := ?x in _) _ _ => destruct x eqn:?
  end; fields.

Ltac wp_run := repeat (first [wp_prim | wp_branch]).

Ltac solve_Inv :=
  solve_facts;
  try (apply len_addToHistory; first [assumption | congruence]).

(** * Every operation returns and keeps the invariant *)

Section Preservation.
Context {W : Type} `{Backend W}.
Implicit Types (s : St W).

Lemma Inv_NewController (cfg0 : Config) : Inv (NewController cfg0).
Proof.
  unfold Inv, RingInv, NewController, len. cbn.
  repeat split; try reflexivity; lia.
Qed.

Lemma ClearQueue_keeps : keeps W ClearQueue.
Proof.
  intros s HI. unfold ClearQueue. destruct HI as (Hmu & Hr & Hh).
  wp_run; solve_Inv.
Qed.

Lemma ToggleOrder_keeps : keeps W ToggleOrder.
Proof.
  intros s HI. unfold ToggleOrder. destruct HI as (Hmu & Hr & Hh).
  wp_run; solve_Inv.
Qed.

Lemma ToggleQueue_keeps : keeps W ToggleQueue.
Proof.
  intros s HI. unfold ToggleQueue. destruct HI as (Hmu & Hr & Hh).
  wp_run; solve_Inv.
Qed.

Lemma OnClipboardUpdate_keeps : keeps W OnClipboardUpdate.
Proof.
  intros s HI. unfold OnClipboardUpdate. destruct HI as (Hmu & Hr & Hh).
  wp_run; solve_Inv.
Qed.

Lemma PasteNext_keeps : keeps W PasteNext.
Proof.
  intros s HI. unfold PasteNext. destruct HI as (Hmu & Hr & Hh).
  wp_run; try solve [solve_Inv].
  exfalso.
  match goal with
  | Hq : (len ?q =? 0) = false, Hd : dequeue ?o ?q = None |- _ =>
      apply Z.eqb_neq in Hq;
      destruct (dequeue_nonempty o q Hq) as (item & rest & Hsome);
      congruence
  end.
Qed.

Lemma GetQueue_keeps : keeps W (bind GetQueue (fun _ => ret tt)).
Proof.
  intros s HI. unfold GetQueue. destruct HI as (Hmu & Hr & Hh).
  wp_run; solve_Inv.
Qed.

Lemma GetHistory_keeps : keeps W (bind GetHistory (fun _ => ret tt)).
Proof.
  intros s HI. unfold GetHistory. destruct HI as (Hmu & Hr & Hh).
  wp_run; solve_Inv.
Qed.

Lemma GetOrderStrategy_keeps :
  keeps W (bind GetOrderStrategy (fun _ => ret tt)).
Proof.
  intros s HI. unfold GetOrderStrategy. destruct HI as (Hmu & Hr & Hh).
  wp_run; solve_Inv.
Qed.

Lemma SetOrderStrategy_keeps order :
  keeps W (bind (SetOrderStrategy order) (fun _ => ret tt)).
Proof.
  intros s HI. unfold SetOrderStrategy. destruct HI as (Hmu & Hr & Hh).
  wp_run; solve_Inv.
Qed.

Lemma RemoveItem_keeps index :
  keeps W (bind (RemoveItem index) (fun _ => ret tt)).
Proof.
  intros s HI. unfold RemoveItem. destruct HI as (Hmu & Hr & Hh).
  wp_run; solve_Inv.
Qed.

Lemma ExecuteMacro_keeps macro :
  keeps W (bind (ExecuteMacro macro) (fun _ => ret tt)).
Proof.
  intros s HI. unfold ExecuteMacro. destruct HI as (Hmu & Hr & Hh).
  wp_run; solve_Inv.
Qed.

Lemma addSelfEvent_keeps seq : keeps W (addSelfEvent seq).
Proof.
  intros s HI. destruct HI as (Hmu & Hr & Hh).
  wp_run; solve_Inv.
Qed.

Lemma CopyItem_range_keeps items id s :
  mu (ctl s) = true -> RingInv (ctl s) -> len (history (ctl s)) <= 50 ->
  wp (CopyItem_range items id)
     (fun _ s' => mu (ctl s') = true /\ RingInv (ctl s')
                  /\ len (history (ctl s')) <= 50) s.
Proof.
  revert s. induction items as [|item rest IH]; intros s Hmu Hr Hh;
    cbn [CopyItem_range].
  - wp_run. auto.
  - wp_run; try solve [solve_facts]. apply IH; assumption.
Qed.

Lemma CopyItem_keeps id : keeps W (bind (CopyItem id) (fun _ => ret tt)).
Proof.
  intros s HI. unfold CopyItem. destruct HI as (Hmu & Hr & Hh).
  wp_run.
  eapply wp_mono.
  - apply CopyItem_range_keeps; solve_facts.
  - intros r s' (Hmu' & Hr' & Hh'). cbv beta. wp_run; solve_Inv.
Qed.

Lemma run_op_keeps (o : Op) : keeps W (run_op o).
Proof.
  destruct o; cbn [run_op].
  - apply ClearQueue_keeps.
  - apply ToggleOrder_keeps.
  - apply ToggleQueue_keeps.
  - apply OnClipboardUpdate_keeps.
  - apply PasteNext_keeps.
  - apply GetQueue_keeps.
  - apply GetHistory_keeps.
  - apply GetOrderStrategy_keeps.
  - apply SetOrderStrategy_keeps.
  - apply RemoveItem_keeps.
  - apply ExecuteMacro_keeps.
  - apply CopyItem_keeps.
  - apply addSelfEvent_keeps.
Qed.

Lemma run_ops_keeps (ops : list Op) : keeps W (run_ops ops).
Proof.
  induction ops as [|o rest IH]; intros s HI; cbn [run_ops].
  - apply wp_ret. exact HI.
  - apply wp_bind. eapply wp_mono; [apply run_op_keeps; exact HI|].
    intros ? s' HI'. apply IH. exact HI'.
Qed.

End Preservation.

(** * Self-event suppression *)

Section Suppression.
Context {W : Type} `{Backend W}.

Lemma OnClipboardUpdate_self_event (c : Controller) (w : W)
    (t : list Event) :
  mu c = false ->
  isSelfEvent c (GetClipboardSequenceNumber w) = true ->
  OnClipboardUpdate (mkSt c w t)
  = Done tt (mkSt c w (t ++ [EvSleep 50] ++ [EvLock] ++ [EvUnlock])).
Proof.
  intros Hmu Hself. unfold OnClipboardUpdate. run_monad.
  rewrite Hmu. run_monad.
  unfold isSelfEvent in *. cbn [selfEventsRing set_mu] in *.
  rewrite Hself. run_monad. rewrite (set_mu_release c Hmu).
  rewrite <- !app_assoc. reflexivity.
Qed.

Lemma addSelfEvent_spec (c : Controller) (w : W) (t : list Event) (n : Z) :
  mu c = false -> ring_ok c ->
  addSelfEvent n (mkSt c w t)
  = Done tt
      (mkSt (set_ring (<[Z.to_nat (ringIndex c) := n]> (selfEventsRing c))
                      (Z.rem (wrap_int (ringIndex c + 1)) (ringSize c)) c)
            w (t ++ [EvLock] ++ [EvUnlock])).
Proof.
  intros Hmu [Hidx Hsz]. unfold addSelfEvent, addSelfEventLocked. run_monad.
  rewrite Hmu. run_monad.
  destruct (0 <=? ringIndex c) eqn:E1; [|apply Z.leb_gt in E1; lia].
  destruct (ringIndex c <? len (selfEventsRing c)) eqn:E2;
    [|apply Z.ltb_ge in E2; lia].
  cbn [andb]. run_monad.
  destruct (ringSize c =? 0) eqn:E3; [apply Z.eqb_eq in E3; lia|].
  run_monad. rewrite <- !app_assoc.
  destruct c; simpl in *; subst; reflexivity.
Qed.

(** C1: with the mutex free, if the ring contains the sequence number
    [n] that [OnClipboardUpdate] observes, the call returns and leaves the
    whole controller, so its history and its queue, exactly as it was;
    and when the ring can take an entry, [addSelfEvent n] returns, changes
    neither queue nor history, leaves [n] in the ring, and every later
    [OnClipboardUpdate] observing [n] leaves that controller unchanged. *)
Theorem self_event_suppression (c : Controller) (w : W) (t : list Event)
    (n : Z) :
  mu c = false ->
  (isSelfEvent c n = true -> GetClipboardSequenceNumber w = n ->
   exists t', OnClipboardUpdate (mkSt c w t) = Done tt (mkSt c w t'))
  /\ (ring_ok c ->
      exists c' t',
        addSelfEvent n (mkSt c w t) = Done tt (mkSt c' w t')
        /\ isSelfEvent c' n = true
        /\ queue c' = queue c /\ history c' = history c
        /\ forall (w2 : W) (t2 : list Event),
             GetClipboardSequenceNumber w2 = n ->
             exists t3,
               OnClipboardUpdate (mkSt c' w2 t2) = Done tt (mkSt c' w2 t3)).
Proof.
  intros Hmu. split.
  - intros Hself <-. eexists. apply OnClipboardUpdate_self_event; assumption.
  - intros Hok. pose proof (addSelfEvent_spec c w t n Hmu Hok) as Hadd.
    eexists _, _. split; [exact Hadd|].
    assert (Hin : isSelfEvent
              (set_ring (<[Z.to_nat (ringIndex c) := n]> (selfEventsRing c))
                 (Z.rem (wrap_int (ringIndex c + 1)) (ringSize c)) c) n
              = true).
    { unfold isSelfEvent. cbn [selfEventsRing set_ring].
      apply isSelfEvent_range_insert. destruct Hok as [Hidx _].
      unfold len in Hidx. lia. }
    split; [exact Hin|]. split; [reflexivity|]. split; [reflexivity|].
    intros w2 t2 <-. eexists.
    apply OnClipboardUpdate_self_event; [exact Hmu | exact Hin].
Qed.

(** C10: on a freshly constructed controller the ring holds eight zeros,
    so [isSelfEvent] answers true for 0 and false for every other number,
    and an [OnClipboardUpdate] that observes the sequence number 0 returns
    with the controller unchanged, although nothing was ever written. *)
Theorem fresh_ring_holds_zero (cfg0 : Config) (w : W) (t : list Event)
    (n : Z) :
  GetClipboardSequenceNumber w = 0 ->
  n <> 0 ->
  selfEventsRing (NewController cfg0) = [0; 0; 0; 0; 0; 0; 0; 0]
  /\ isSelfEvent (NewController cfg0) 0 = true
  /\ isSelfEvent (NewController cfg0) n = false
  /\ exists t',
       OnClipboardUpdate (mkSt (NewController cfg0) w t)
       = Done tt (mkSt (NewController cfg0) w t').
Proof.
  intros Hseq Hn. split; [reflexivity|]. split; [reflexivity|]. split.
  - unfold isSelfEvent, NewController. fields.
    apply isSelfEvent_range_zeros. exact Hn.
  - eexists. apply OnClipboardUpdate_self_event; [reflexivity|].
    rewrite Hseq. reflexivity.
Qed.

End Suppression.

Lemma self_event_suppression_witness :
  (isSelfEvent fresh 0 = true ->
   GetClipboardSequenceNumber (Sim.mkWorld [item_a] 0) = 0 ->
   exists t',
     OnClipboardUpdate (Sim.start fresh (Sim.mkWorld [item_a] 0))
     = Done tt (mkSt fresh (Sim.mkWorld [item_a] 0) t'))
  /\ (ring_ok fresh ->
      exists c' t',
        addSelfEvent 0 (Sim.start fresh (Sim.mkWorld [item_a] 0))
        = Done tt (mkSt c' (Sim.mkWorld [item_a] 0) t')
        /\ isSelfEvent c' 0 = true
        /\ queue c' = queue fresh /\ history c' = history fresh
        /\ forall (w2 : Sim.World) (t2 : list Event),
             GetClipboardSequenceNumber w2 = 0 ->
             exists t3,
               OnClipboardUpdate (mkSt c' w2 t2) = Done tt (mkSt c' w2 t3)).
Proof.
  apply (self_event_suppression fresh (Sim.mkWorld [item_a] 0) [] 0).
  reflexivity.
Defined.

Lemma fresh_ring_holds_zero_witness :
  selfEventsRing (NewController Sim.defaultCfg) = [0; 0; 0; 0; 0; 0; 0; 0]
  /\ isSelfEvent (NewController Sim.defaultCfg) 0 = true
  /\ isSelfEvent (NewController Sim.defaultCfg) 41 = false
  /\ exists t',
       OnClipboardUpdate
         (mkSt (NewController Sim.defaultCfg) (Sim.mkWorld [item_a] 0) [])
       = Done tt (mkSt (NewController Sim.defaultCfg)
                       (Sim.mkWorld [item_a] 0) t').
Proof.
  apply (fresh_ring_holds_zero Sim.defaultCfg (Sim.mkWorld [item_a] 0) [] 41).
  - reflexivity.
  - discriminate.
Defined.

(** * Deduplication in OnClipboardUpdate *)

Lemma Time_Sub_lt_Second (t u : Z) :
  (Time_Sub t u <? Second) = (t - u <? Second).
Proof.
  unfold Time_Sub, Second.
  destruct (t - u <? - 2 ^ 63) eqn:E1.
  - apply Z.ltb_lt in E1. symmetry. apply Z.ltb_lt. lia.
  - destruct (2 ^ 63 - 1 <? t - u) eqn:E2; [|reflexivity].
    apply Z.ltb_lt in E2. symmetry. apply Z.ltb_ge. lia.
Qed.

Lemma ContentType_eqb_eq (a b : ContentType) :
  ContentType_eqb a b = true <-> a = b.
Proof. destruct a, b; simpl; split; congruence. Qed.

Lemma ContentType_eqb_refl (a : ContentType) : ContentType_eqb a a = true.
Proof. destruct a; reflexivity. Qed.

Lemma last_len_pos {A} (l : list A) (x : A) :
  last l = Some x -> (0 <? len l) = true.
Proof.
  intros Hl. apply Z.ltb_lt. unfold len.
  destruct l; [discriminate | simpl; lia].
Qed.

(** An update is a duplicate exactly when it has the content of the last
    history entry and comes less than a second after it. *)
Lemma isDuplicate_spec (hist : list ClipboardContent)
    (x l : ClipboardContent) :
  last hist = Some l ->
  isDuplicate hist x = true <->
  same_content x l /\ cTimestamp x - cTimestamp l < Second.
Proof.
  intros Hl. unfold isDuplicate, same_content.
  rewrite (last_len_pos _ _ Hl), Hl, Time_Sub_lt_Second.
  destruct (ContentType_eqb (cType x) (cType l)) eqn:Et; cbn [andb].
  - apply ContentType_eqb_eq in Et.
    destruct (cTimestamp x - cTimestamp l <? Second) eqn:Ed.
    + apply Z.ltb_lt in Ed.
      destruct (ContentType_eqb (cType x) Text).
      * rewrite String.eqb_eq. tauto.
      * rewrite Z.eqb_eq. tauto.
    + apply Z.ltb_ge in Ed. split; [discriminate | lia].
  - split; [discriminate|]. intros [[Ht _] _].
    rewrite Ht, ContentType_eqb_refl in Et. discriminate.
Qed.

Lemma isDuplicate_has_last (hist : list ClipboardContent)
    (x : ClipboardContent) :
  isDuplicate hist x = true -> exists l, last hist = Some l.
Proof.
  unfold isDuplicate. destruct (0 <? len hist); [|discriminate].
  destruct (last hist) as [l|]; [eauto | discriminate].
Qed.

Lemma same_content_trans (x y z : ClipboardContent) :
  same_content x y -> same_content y z -> same_content x z.
Proof.
  unfold same_content. intros [Hxy Hc1] [Hyz Hc2]. rewrite <- Hxy in Hc2.
  split; [congruence|].
  destruct (ContentType_eqb (cType x) Text); congruence.
Qed.

Lemma recorded_history (c : Controller) (x : ClipboardContent) :
  history (recorded c x) = addToHistory (history c) x.
Proof. unfold recorded. destruct (queueEnabled c); reflexivity. Qed.

Lemma recorded_mu (c : Controller) (x : ClipboardContent) :
  mu (recorded c x) = mu c.
Proof. unfold recorded. destruct (queueEnabled c); reflexivity. Qed.

Lemma recorded_isSelfEvent (c : Controller) (x : ClipboardContent) (n : Z) :
  isSelfEvent (recorded c x) n = isSelfEvent c n.
Proof. unfold recorded. destruct (queueEnabled c); reflexivity. Qed.

Section Dedup.
Context {W : Type} `{Backend W}.

(** An update that is not suppressed and reads non-empty content either
    is dropped as a duplicate or is recorded. *)
Lemma OnClipboardUpdate_observes (c : Controller) (w w' : W)
    (t : list Event) (x : ClipboardContent) :
  mu c = false ->
  isSelfEvent c (GetClipboardSequenceNumber w) = false ->
  Read w = ((x, None), w') ->
  cType x <> Empty ->
  exists t',
    OnClipboardUpdate (mkSt c w t)
    = Done tt (mkSt (if isDuplicate (history c) x then c else recorded c x)
                    w' t').
Proof.
  intros Hmu Hself Hread Hne.
  assert (Hwp : wp OnClipboardUpdate
            (fun _ s' => ctl s' = (if isDuplicate (history c) x then c
                                   else recorded c x)
                         /\ world s' = w') (mkSt c w t)).
  { unfold OnClipboardUpdate. repeat wp_prim.
    unfold isSelfEvent in *. fields. rewrite Hself.
    repeat wp_prim. rewrite Hread. cbn [fst snd]. repeat wp_prim.
    destruct (ContentType_eqb (cType x) Empty) eqn:Ee.
    { apply ContentType_eqb_eq in Ee. contradiction. }
    unfold recorded.
    destruct (isDuplicate (history c) x) eqn:Ed; wp_run;
      (split; [|reflexivity]).
    - apply set_mu_release. exact Hmu.
    - destruct c; cbn in *. subst. reflexivity.
    - destruct c; cbn in *. subst. reflexivity. }
  destruct Hwp as ([] & [c' w'' t'] & Hrun & Hc & Hw). cbn in Hc, Hw.
  subst. eauto.
Qed.

(** C5 (as amended): two successive updates, neither suppressed, read
    [x1] and then [x2], both non-empty and of the same content (same type;
    equal text for text, equal size otherwise).  Both calls return, and
    after the first the history has a last entry [l].  If [x2] is stamped
    less than a second after [l], the second call leaves the history as it
    is; if more than a second after [l], the second call appends [x2].
    The first call appends [x1] (and then [l] is [x1]) when [x1] is not
    itself a duplicate of the entry before it: only then does the pair
    leave one, respectively two, new entries. *)
Theorem dedup_window (c : Controller) (w1 w1' w2 w2' : W)
    (t1 t2 : list Event) (x1 x2 : ClipboardContent) :
  mu c = false ->
  isSelfEvent c (GetClipboardSequenceNumber w1) = false ->
  isSelfEvent c (GetClipboardSequenceNumber w2) = false ->
  Read w1 = ((x1, None), w1') ->
  Read w2 = ((x2, None), w2') ->
  cType x1 <> Empty ->
  same_content x2 x1 ->
  exists c1 c2 t1' t2' l,
    OnClipboardUpdate (mkSt c w1 t1) = Done tt (mkSt c1 w1' t1')
    /\ OnClipboardUpdate (mkSt c1 w2 t2) = Done tt (mkSt c2 w2' t2')
    /\ last (history c1) = Some l
    /\ (cTimestamp x2 - cTimestamp l < Second -> history c2 = history c1)
    /\ (Second < cTimestamp x2 - cTimestamp l ->
        history c2 = addToHistory (history c1) x2)
    /\ (isDuplicate (history c) x1 = false ->
        l = x1 /\ history c1 = addToHistory (history c) x1).
Proof.
  intros Hmu Hs1 Hs2 Hr1 Hr2 Hne Hsame.
  assert (Hne2 : cType x2 <> Empty) by (destruct Hsame as [-> _]; exact Hne).
  destruct (OnClipboardUpdate_observes c w1 w1' t1 x1 Hmu Hs1 Hr1 Hne)
    as [t1' Hrun1].
  set (c1 := if isDuplicate (history c) x1 then c else recorded c x1) in *.
  assert (Hmu1 : mu c1 = false).
  { subst c1. destruct (isDuplicate (history c) x1);
      [exact Hmu | rewrite recorded_mu; exact Hmu]. }
  assert (Hs2' : isSelfEvent c1 (GetClipboardSequenceNumber w2) = false).
  { subst c1. destruct (isDuplicate (history c) x1);
      [exact Hs2 | rewrite recorded_isSelfEvent; exact Hs2]. }
  destruct (OnClipboardUpdate_observes c1 w2 w2' t2 x2 Hmu1 Hs2' Hr2 Hne2)
    as [t2' Hrun2].
  assert (Hlast : exists l, last (history c1) = Some l
            /\ same_content x2 l
            /\ (isDuplicate (history c) x1 = false ->
                l = x1 /\ history c1 = addToHistory (history c) x1)).
  { subst c1. destruct (isDuplicate (history c) x1) eqn:Ed.
    - destruct (isDuplicate_has_last _ _ Ed) as [l Hl]. exists l.
      split; [exact Hl|]. split; [|discriminate].
      apply (isDuplicate_spec _ _ _ Hl) in Ed as [Hx1l _].
      exact (same_content_trans _ _ _ Hsame Hx1l).
    - exists x1. rewrite recorded_history, last_addToHistory. auto. }
  destruct Hlast as (l & Hl & Hx2l & Hfirst).
  exists c1, (if isDuplicate (history c1) x2 then c1 else recorded c1 x2),
    t1', t2', l.
  split; [exact Hrun1|]. split; [exact Hrun2|]. split; [exact Hl|].
  pose proof (isDuplicate_spec (history c1) x2 l Hl) as Hspec.
  split; [|split; [|exact Hfirst]].
  - intros Hlt. destruct (isDuplicate (history c1) x2); [reflexivity|].
    assert (false = true) by (apply Hspec; auto). discriminate.
  - intros Hgt. destruct (isDuplicate (history c1) x2).
    + assert (cTimestamp x2 - cTimestamp l < Second) by (apply Hspec; auto).
      lia.
    + apply recorded_history.
Qed.

End Dedup.

Lemma dedup_window_witness :
  exists c1 c2 t1' t2' l,
    OnClipboardUpdate (mkSt fresh (Sim.mkWorld [hello_0; hello_900] 7) [])
    = Done tt (mkSt c1 (Sim.mkWorld [hello_900] 7) t1')
    /\ OnClipboardUpdate (mkSt c1 (Sim.mkWorld [hello_900] 7) [])
       = Done tt (mkSt c2 (Sim.mkWorld [] 7) t2')
    /\ last (history c1) = Some l
    /\ (cTimestamp hello_900 - cTimestamp l < Second ->
        history c2 = history c1)
    /\ (Second < cTimestamp hello_900 - cTimestamp l ->
        history c2 = addToHistory (history c1) hello_900)
    /\ (isDuplicate (history fresh) hello_0 = false ->
        l = hello_0 /\ history c1 = addToHistory (history fresh) hello_0).
Proof.
  apply (dedup_window fresh (Sim.mkWorld [hello_0; hello_900] 7)
           (Sim.mkWorld [hello_900] 7) (Sim.mkWorld [hello_900] 7)
           (Sim.mkWorld [] 7) [] [] hello_0 hello_900).
  - reflexivity.
  - reflexivity.
  - reflexivity.
  - reflexivity.
  - reflexivity.
  - discriminate.
  - split; reflexivity.
Defined.

(** C5 as stated fails for a pair whose first update is itself a
    duplicate.  The history holds "hello" copied at 0 ms; the same text is
    then read at 500 ms and at 1600 ms.  The two updates are 1100 ms
    apart, and the second is 1600 ms after the last history entry, yet
    the first of the two adds nothing and only one entry results. *)
Lemma dedup_pair_counterexample :
  exists s0 s1 s2,
    OnClipboardUpdate
      (Sim.start fresh (Sim.mkWorld [hello_0; hello_500; hello_1600] 7))
    = Done tt s0
    /\ history (ctl s0) = [hello_0]
    /\ OnClipboardUpdate s0 = Done tt s1
    /\ OnClipboardUpdate s1 = Done tt s2
    /\ same_content hello_1600 hello_500
    /\ Second < cTimestamp hello_1600 - cTimestamp hello_500
    /\ Second < cTimestamp hello_1600 - cTimestamp hello_0
    /\ history (ctl s1) = [hello_0]
    /\ history (ctl s2) = [hello_0; hello_1600].
Proof.
  eexists _, _, _.
  split; [vm_compute; reflexivity|]. split; [reflexivity|].
  split; [vm_compute; reflexivity|].
  split; [vm_compute; reflexivity|].
  repeat split.
Qed.

(** The two runs of the specification's test, on a fresh controller. *)
Example dedup_900ms_one_entry :
  exists s,
    run_ops [OpOnClipboardUpdate; OpOnClipboardUpdate]
      (Sim.start fresh (Sim.mkWorld [hello_0; hello_900] 7))
    = Done tt s
    /\ history (ctl s) = [hello_0].
Proof. eexists. split; vm_compute; reflexivity. Qed.

Example dedup_1600ms_two_entries :
  exists s,
    run_ops [OpOnClipboardUpdate; OpOnClipboardUpdate]
      (Sim.start fresh (Sim.mkWorld [hello_0; hello_1600] 7))
    = Done tt s
    /\ history (ctl s) = [hello_0; hello_1600].
Proof. eexists. split; vm_compute; reflexivity. Qed.

(** * PasteNext and the order strategy *)

Section Paste.
Context {W : Type} `{Backend W}.

(** One [PasteNext] on a non-empty queue in queue mode: it returns, takes
    from the queue what [dequeue] says, leaves the rest in order, and is
    ready for the next call. *)
Lemma PasteNext_dequeues (order : string) (c : Controller) (w : W)
    (t : list Event) (item : ClipboardContent)
    (rest : list ClipboardContent) :
  ready order c ->
  queue c <> [] ->
  dequeue order (queue c) = Some (item, rest) ->
  exists c' w' t',
    PasteNext (mkSt c w t) = Done tt (mkSt c' w' t')
    /\ ready order c' /\ queue c' = rest /\ history c' = history c
    /\ dequeued_of t' = dequeued_of t ++ [item].
Proof.
  intros (Hmu & Hr & Hen & Hord) Hq Hdq.
  assert (Hwp : wp PasteNext
            (fun _ s' => ready order (ctl s') /\ queue (ctl s') = rest
                         /\ history (ctl s') = history c
                         /\ dequeued_of (trace s') = dequeued_of t ++ [item])
            (mkSt c w t)).
  { unfold PasteNext. repeat wp_prim. rewrite Hen. cbn [negb].
    destruct (len (queue c) =? 0) eqn:E0.
    { apply Z.eqb_eq in E0. unfold len in E0.
      destruct (queue c); [congruence | simpl in E0; lia]. }
    rewrite Hord, Hdq.
    wp_run; unfold ready; break_facts;
      (split; [repeat split; try assumption; try congruence; try lia|]);
      (split; [try reflexivity; congruence|]);
      (split; [try reflexivity; congruence|]);
      trace_simpl; reflexivity. }
  destruct Hwp as ([] & [c' w' t'] & Hrun & Hc). fields. eauto 10.
Qed.

(** C6: from a controller in queue mode whose queue is [A; B; C], three
    successive [PasteNext] calls return; under LIFO they dequeue [C],
    then [B], then [A], leaving [A; B], then [A], then nothing; under FIFO
    they dequeue [A], then [B], then [C], leaving [B; C], then [C], then
    nothing. *)
Theorem PasteNext_order (c : Controller) (w : W) (t : list Event)
    (A B C : ClipboardContent) :
  mu c = false -> RingInv c -> queueEnabled c = true ->
  queue c = [A; B; C] ->
  (orderStrategy c = "LIFO" ->
   exists s1 s2 s3,
     PasteNext (mkSt c w t) = Done tt s1
     /\ PasteNext s1 = Done tt s2
     /\ PasteNext s2 = Done tt s3
     /\ dequeued_of (trace s1) = dequeued_of t ++ [C]
     /\ dequeued_of (trace s2) = dequeued_of t ++ [C; B]
     /\ dequeued_of (trace s3) = dequeued_of t ++ [C; B; A]
     /\ queue (ctl s1) = [A; B] /\ queue (ctl s2) = [A]
     /\ queue (ctl s3) = [])
  /\ (orderStrategy c = "FIFO" ->
      exists s1 s2 s3,
        PasteNext (mkSt c w t) = Done tt s1
        /\ PasteNext s1 = Done tt s2
        /\ PasteNext s2 = Done tt s3
        /\ dequeued_of (trace s1) = dequeued_of t ++ [A]
        /\ dequeued_of (trace s2) = dequeued_of t ++ [A; B]
        /\ dequeued_of (trace s3) = dequeued_of t ++ [A; B; C]
        /\ queue (ctl s1) = [B; C] /\ queue (ctl s2) = [C]
        /\ queue (ctl s3) = []).
Proof.
  intros Hmu Hr Hen Hq. split; intros Hord.
  - destruct (PasteNext_dequeues "LIFO" c w t C [A; B])
      as (c1 & w1 & t1 & Hrun1 & Hready1 & Hq1 & _ & Ht1);
      [unfold ready; auto | congruence | rewrite Hq; reflexivity |].
    destruct (PasteNext_dequeues "LIFO" c1 w1 t1 B [A])
      as (c2 & w2 & t2 & Hrun2 & Hready2 & Hq2 & _ & Ht2);
      [exact Hready1 | congruence | rewrite Hq1; reflexivity |].
    destruct (PasteNext_dequeues "LIFO" c2 w2 t2 A [])
      as (c3 & w3 & t3 & Hrun3 & Hready3 & Hq3 & _ & Ht3);
      [exact Hready2 | congruence | rewrite Hq2; reflexivity |].
    exists (mkSt c1 w1 t1), (mkSt c2 w2 t2), (mkSt c3 w3 t3). fields.
    rewrite Ht3, Ht2, Ht1, <- !app_assoc. cbn [app]. auto 10.
  - destruct (PasteNext_dequeues "FIFO" c w t A [B; C])
      as (c1 & w1 & t1 & Hrun1 & Hready1 & Hq1 & _ & Ht1);
      [unfold ready; auto | congruence | rewrite Hq; reflexivity |].
    destruct (PasteNext_dequeues "FIFO" c1 w1 t1 B [C])
      as (c2 & w2 & t2 & Hrun2 & Hready2 & Hq2 & _ & Ht2);
      [exact Hready1 | congruence | rewrite Hq1; reflexivity |].
    destruct (PasteNext_dequeues "FIFO" c2 w2 t2 C [])
      as (c3 & w3 & t3 & Hrun3 & Hready3 & Hq3 & _ & Ht3);
      [exact Hready2 | congruence | rewrite Hq2; reflexivity |].
    exists (mkSt c1 w1 t1), (mkSt c2 w2 t2), (mkSt c3 w3 t3). fields.
    rewrite Ht3, Ht2, Ht1, <- !app_assoc. cbn [app]. auto 10.
Qed.

End Paste.

Lemma PasteNext_order_witness :
  exists s1 s2 s3,
    PasteNext (Sim.start (queued_abc "LIFO") (Sim.mkWorld [] 7)) = Done tt s1
    /\ PasteNext s1 = Done tt s2
    /\ PasteNext s2 = Done tt s3
    /\ dequeued_of (trace s1) = dequeued_of [] ++ [item_c]
    /\ dequeued_of (trace s2) = dequeued_of [] ++ [item_c; item_b]
    /\ dequeued_of (trace s3) = dequeued_of [] ++ [item_c; item_b; item_a]
    /\ queue (ctl s1) = [item_a; item_b] /\ queue (ctl s2) = [item_a]
    /\ queue (ctl s3) = [].
Proof.
  apply (PasteNext_order (queued_abc "LIFO") (Sim.mkWorld [] 7) []
           item_a item_b item_c).
  - reflexivity.
  - unfold RingInv. repeat split; (reflexivity || discriminate).
  - reflexivity.
  - reflexivity.
  - reflexivity.
Defined.

Example PasteNext_FIFO_run :
  exists s,
    run_ops [OpPasteNext; OpPasteNext; OpPasteNext]
      (Sim.start (queued_abc "FIFO") (Sim.mkWorld [] 7))
    = Done tt s
    /\ dequeued_of (trace s) = [item_a; item_b; item_c]
    /\ queue (ctl s) = [].
Proof.
  eexists. split; [vm_compute; reflexivity|].
  split; vm_compute; reflexivity.
Qed.

(** * The history bound *)

Section History.
Context {W : Type} `{Backend W}.

(** The history after [OnClipboardUpdate], in terms of what the call
    finds: it is the history before when the sequence number is a self
    event, the read fails, the content is empty or a duplicate, and
    [addToHistory] of the content read otherwise. *)
Lemma OnClipboardUpdate_history (c : Controller) (w : W) (t : list Event) :
  mu c = false ->
  wp OnClipboardUpdate
     (fun _ s' =>
        history (ctl s')
        = if isSelfEvent c (GetClipboardSequenceNumber w) then history c
          else match fst (Read w) with
               | (x, None) =>
                   if ContentType_eqb (cType x) Empty then history c
                   else if isDuplicate (history c) x then history c
                   else addToHistory (history c) x
               | (_, Some _) => history c
               end)
     (mkSt c w t).
Proof.
  intros Hmu. unfold OnClipboardUpdate. repeat wp_prim.
  unfold isSelfEvent. fields.
  destruct (isSelfEvent_range (selfEventsRing c) (GetClipboardSequenceNumber w))
    eqn:Eself; [wp_run; reflexivity|].
  repeat wp_prim.
  destruct (Read w) as [[x err] w'] eqn:Eread. cbn [fst snd].
  destruct err as [e|]; [wp_run; reflexivity|].
  destruct (ContentType_eqb (cType x) Empty) eqn:Ee; [wp_run; reflexivity|].
  destruct (isDuplicate (history c) x) eqn:Ed; wp_run; reflexivity.
Qed.

(** C7: every run of controller operations from a new controller
    returns, with at most 50 history entries at its end; and one more
    [OnClipboardUpdate] from there returns with at most 50 entries.  When
    this update is not suppressed and reads, without error, content [x]
    that is neither empty nor a duplicate, it adds [x]: to a history of
    fewer than 50 entries it appends [x]; on a history of 50 entries it
    drops the oldest entry (the head), keeps the other 49 in their order
    and appends [x].  When the update is suppressed, or the read fails, or
    the content is empty or a duplicate, the history is left as it is. *)
Theorem history_capacity (cfg0 : Config) (ops : list Op) (w : W)
    (t : list Event) :
  exists s,
    run_ops ops (mkSt (NewController cfg0) w t) = Done tt s
    /\ len (history (ctl s)) <= 50
    /\ forall (w2 : W) (t2 : list Event),
       exists s2,
         OnClipboardUpdate (mkSt (ctl s) w2 t2) = Done tt s2
         /\ len (history (ctl s2)) <= 50
         /\ (forall x w2',
               isSelfEvent (ctl s) (GetClipboardSequenceNumber w2) = false ->
               Read w2 = ((x, None), w2') ->
               cType x <> Empty ->
               isDuplicate (history (ctl s)) x = false ->
               (len (history (ctl s)) < 50 ->
                history (ctl s2) = history (ctl s) ++ [x])
               /\ (len (history (ctl s)) = 50 ->
                   exists oldest kept,
                     history (ctl s) = oldest :: kept
                     /\ history (ctl s2) = kept ++ [x]))
         /\ (isSelfEvent (ctl s) (GetClipboardSequenceNumber w2) = true
             \/ snd (fst (Read w2)) <> None
             \/ cType (fst (fst (Read w2))) = Empty
             \/ isDuplicate (history (ctl s)) (fst (fst (Read w2))) = true ->
             history (ctl s2) = history (ctl s)).
Proof.
  destruct (run_ops_keeps ops (mkSt (NewController cfg0) w t))
    as ([] & s & Hrun & HI); [apply Inv_NewController|].
  exists s. split; [exact Hrun|].
  pose proof HI as (Hmu & Hr & Hh). split; [exact Hh|].
  intros w2 t2.
  destruct (OnClipboardUpdate_keeps (mkSt (ctl s) w2 t2) HI)
    as ([] & s2 & Hrun2 & (_ & _ & Hh2)).
  destruct (OnClipboardUpdate_history (ctl s) w2 t2 Hmu)
    as ([] & s2' & Hrun2' & Hhist).
  rewrite Hrun2 in Hrun2'. injection Hrun2' as <-.
  exists s2. split; [exact Hrun2|]. split; [exact Hh2|]. split.
  - intros x w2' Hself Hread Hne Hdup.
    rewrite Hself, Hread in Hhist. cbn [fst snd] in Hhist.
    destruct (ContentType_eqb (cType x) Empty) eqn:Ee.
    { apply ContentType_eqb_eq in Ee. contradiction. }
    rewrite Hdup in Hhist.
    destruct (addToHistory_cases (history (ctl s)) x Hh)
      as [[Hlt Hx] | (oldest & kept & H50 & Hold & Hx)].
    + split; [intros _; congruence | lia].
    + split; [lia|]. intros _. exists oldest, kept.
      split; [exact Hold | congruence].
  - intros Hdrop.
    destruct (isSelfEvent (ctl s) (GetClipboardSequenceNumber w2));
      [exact Hhist|].
    destruct Hdrop as [Hd | Hdrop]; [discriminate|].
    destruct (Read w2) as [[x err] w2']. cbn [fst snd] in *.
    destruct err as [e|]; [exact Hhist|].
    destruct Hdrop as [Hd | Hdrop]; [congruence|].
    destruct Hdrop as [He | Hd].
    + rewrite He in Hhist. exact Hhist.
    + rewrite Hd in Hhist.
      destruct (ContentType_eqb (cType x) Empty); exact Hhist.
Qed.

End History.

(** Fifty-one updates, each reading a new entry stamped two seconds after
    the one before: the first entry is gone, the other fifty are the
    history, in the order in which they came. *)
Example history_evicts_oldest :
  exists s,
    run_ops (replicate 51 OpOnClipboardUpdate)
      (Sim.start fresh (Sim.mkWorld (map stamped (seq 0 51)) 1))
    = Done tt s
    /\ history (ctl s) = map stamped (seq 1 50).
Proof.
  eexists. split; [vm_compute; reflexivity|]. vm_compute. reflexivity.
Qed.

(** * The state-change callback and the mutex *)

Section Callback.
Context {W : Type} `{Backend W}.

(** [ClearQueue] calls back between [Lock] and the deferred [Unlock]. *)
Lemma ClearQueue_trace (c : Controller) (w : W) (t : list Event) :
  mu c = false ->
  exists c',
    ClearQueue (mkSt c w t)
    = Done tt
        (mkSt c' w
           (t ++ [EvLock;
                  EvStateChange true (queueEnabled c) 0 (orderStrategy c);
                  EvUnlock])).
Proof.
  intros Hmu. unfold ClearQueue. run_monad. rewrite Hmu. run_monad.
  destruct (len (queue c) =? 0); run_monad; rewrite <- !app_assoc;
    eexists; reflexivity.
Qed.

(** [ToggleOrder] does the same. *)
Lemma ToggleOrder_trace (c : Controller) (w : W) (t : list Event) :
  mu c = false ->
  exists c' mode,
    ToggleOrder (mkSt c w t)
    = Done tt
        (mkSt c' w
           (t ++ [EvLock;
                  EvStateChange true (queueEnabled c) (len (queue c)) mode;
                  EvUnlock])).
Proof.
  intros Hmu. unfold ToggleOrder. run_monad. rewrite Hmu. run_monad.
  destruct (String.eqb (orderStrategy c) "LIFO"); run_monad;
    rewrite <- !app_assoc; eexists _, _; reflexivity.
Qed.

End Callback.

(** C8: [ClearQueue] on a new controller runs the state-change callback
    after taking the mutex and before releasing it; [ToggleQueue] on the
    same controller releases the mutex first. *)
Theorem ClearQueue_callback_under_lock :
  exists s s',
    ClearQueue (Sim.start fresh (Sim.mkWorld [] 1)) = Done tt s
    /\ trace s = [EvLock; EvStateChange true false 0 "LIFO"; EvUnlock]
    /\ callback_under_lock (trace s) = true
    /\ ToggleQueue (Sim.start fresh (Sim.mkWorld [] 1)) = Done tt s'
    /\ callback_under_lock (trace s') = false.
Proof.
  eexists _, _.
  split; [vm_compute; reflexivity|].
  split; [reflexivity|]. split; [reflexivity|].
  split; [vm_compute; reflexivity|].
  reflexivity.
Qed.

(** * More of the controller: the ring of self events *)

Section RingFacts.
Context {W : Type} `{Backend W}.

Lemma record_all_app (older recent : list Z) (s : St W) :
  record_all (older ++ recent) s
  = bind (record_all older) (fun _ => record_all recent) s.
Proof.
  revert s. induction older as [|n older IH]; intros s; [reflexivity|].
  cbn [record_all app]. unfold bind.
  destruct (addSelfEvent n s) as [[] s'|f s']; [|reflexivity].
  rewrite IH. reflexivity.
Qed.

Lemma record_all_keeps (seqs : list Z) (s : St W) :
  mu (ctl s) = false -> RingInv (ctl s) ->
  wp (record_all seqs)
     (fun _ s' => mu (ctl s') = false /\ RingInv (ctl s')
                  /\ world s' = world s
                  /\ queue (ctl s') = queue (ctl s)
                  /\ history (ctl s') = history (ctl s)) s.
Proof.
  revert s. induction seqs as [|n seqs IH]; intros s Hmu Hr;
    cbn [record_all].
  - apply wp_ret. auto.
  - apply wp_bind. apply wp_addSelfEvent; [exact Hmu | exact Hr|].
    intros c' Hr' Hsame _.
    eapply wp_mono.
    + apply IH; fields; [|exact Hr'].
      destruct Hsame as (Hm & _). congruence.
    + cbv beta. intros [] s' (Hm' & Hr'' & Hw & Hq & Hh). fields.
      unfold same_but_ring in Hsame. intuition congruence.
Qed.

Lemma record_eight (c : Controller) (w : W) (t : list Event)
    (recent : list Z) :
  mu c = false -> RingInv c -> length recent = 8%nat ->
  exists c' t',
    record_all recent (mkSt c w t) = Done tt (mkSt c' w t')
    /\ forall n, isSelfEvent c' n = true <-> In n recent.
Proof.
  intros Hmu (Hlen & Hsz & Hidx) Hrec.
  destruct recent as [|n1 [|n2 [|n3 [|n4 [|n5 [|n6 [|n7 [|n8 [|? ?]]]]]]]]];
    try discriminate.
  destruct c as [m qe q hi sn ring idx sz cf os]. fields. subst m sz.
  unfold len in Hlen.
  destruct ring as [|r0 [|r1 [|r2 [|r3 [|r4 [|r5 [|r6 [|r7 [|? ?]]]]]]]]];
    try (simpl in Hlen; lia).
  assert (Hcases : idx = 0 \/ idx = 1 \/ idx = 2 \/ idx = 3 \/ idx = 4
                   \/ idx = 5 \/ idx = 6 \/ idx = 7) by lia.
  destruct Hcases as [-> | [-> | [-> | [-> | [-> | [-> | [-> | ->]]]]]]];
    (eexists _, _; split; [vm_compute; reflexivity|];
     intros n; unfold isSelfEvent; fields;
     rewrite isSelfEvent_range_In; simpl; tauto).
Qed.
End RingFacts.

Lemma callbacks_of_app (t u : list Event) :
  callbacks_of (t ++ u) = callbacks_of t ++ callbacks_of u.
Proof.
  induction t as [|e t IH]; [reflexivity|].
  destruct e; simpl; rewrite ?IH; reflexivity.
Qed.

Lemma clipboard_events_app (t u : list Event) :
  clipboard_events (t ++ u) = clipboard_events t ++ clipboard_events u.
Proof.
  induction t as [|e t IH]; [reflexivity|].
  destruct e; simpl; rewrite ?IH; reflexivity.
Qed.

Ltac events_simpl :=
  rewrite ?callbacks_of_app, ?clipboard_events_app;
  cbn [callbacks_of clipboard_events app]; rewrite ?app_nil_r.

Section QueueOps.
Context {W : Type} `{Backend W}.

(** The ring of self-event numbers remembers exactly the last eight
    recordings.  After [addSelfEvent] has recorded the numbers
    [older ++ recent] in order, with [recent] eight numbers long,
    [isSelfEvent] holds of [n] exactly when [n] is one of [recent]; the
    numbers of [older] and the zeros of [NewController] are overwritten.
    Queue and history are left alone. *)
Theorem ring_keeps_last_eight (c : Controller) (w : W) (t : list Event)
    (older recent : list Z) :
  mu c = false -> RingInv c -> length recent = 8%nat ->
  exists c' t',
    record_all (older ++ recent) (mkSt c w t) = Done tt (mkSt c' w t')
    /\ (forall n, isSelfEvent c' n = true <-> In n recent)
    /\ queue c' = queue c /\ history c' = history c.
Proof.
  intros Hmu Hr Hlen. rewrite record_all_app. unfold bind.
  destruct (record_all_keeps older (mkSt c w t) Hmu Hr)
    as ([] & [c1 w1 t1] & -> & Hmu1 & Hr1 & Hw & Hq & Hh). fields. subst w1.
  destruct (record_eight c1 w t1 recent Hmu1 Hr1 Hlen) as (c' & t' & Hrun & Hin).
  exists c', t'. split; [exact Hrun|]. split; [exact Hin|].
  destruct (record_all_keeps recent (mkSt c1 w t1) Hmu1 Hr1)
    as ([] & s' & Hrun' & _ & _ & _ & Hq' & Hh').
  rewrite Hrun in Hrun'. injection Hrun' as <-. fields.
  split; congruence.
Qed.

(** [RemoveItem] with a negative index, or one at or beyond the length of
    the queue, returns the index error: the mutex is taken and released,
    no callback runs and the controller is unchanged. *)
Theorem RemoveItem_out_of_range (c : Controller) (w : W) (t : list Event)
    (index : Z) :
  mu c = false ->
  index < 0 \/ len (queue c) <= index ->
  exists e,
    RemoveItem index (mkSt c w t)
    = Done (Some e) (mkSt c w (t ++ [EvLock; EvUnlock])).
Proof.
  intros Hmu Hidx. unfold RemoveItem. run_monad. rewrite Hmu. run_monad.
  assert (Hc : (index <? 0) || (len (queue c) <=? index) = true).
  { apply orb_true_iff. rewrite Z.ltb_lt, Z.leb_le. exact Hidx. }
  rewrite Hc. run_monad. rewrite (set_mu_release c Hmu), <- !app_assoc.
  eexists. reflexivity.
Qed.

(** [RemoveItem] with an index inside the queue returns nil and removes
    exactly the item at that position: the items before and after it keep
    their order.  The history and the queue mode are unchanged, and the
    state-change callback runs once, with the new length. *)
Theorem RemoveItem_in_range (c : Controller) (w : W) (t : list Event)
    (index : Z) :
  mu c = false ->
  0 <= index < len (queue c) ->
  exists c' t' pre x post,
    RemoveItem index (mkSt c w t) = Done None (mkSt c' w t')
    /\ queue c = pre ++ x :: post
    /\ len pre = index
    /\ queue c' = pre ++ post
    /\ history c' = history c
    /\ queueEnabled c' = queueEnabled c
    /\ callbacks_of t'
       = callbacks_of t
         ++ [(queueEnabled c, len (queue c) - 1, orderStrategy c)].
Proof.
  intros Hmu Hidx. unfold RemoveItem. run_monad. rewrite Hmu. run_monad.
  assert (Hc : (index <? 0) || (len (queue c) <=? index) = false).
  { apply orb_false_iff. rewrite Z.ltb_ge, Z.leb_gt. lia. }
  rewrite Hc. run_monad.
  assert (Hi : (Z.to_nat index < length (queue c))%nat)
    by (unfold len in Hidx; lia).
  destruct (lookup_lt_is_Some_2 _ _ Hi) as [x Hx].
  pose proof (take_drop_middle _ _ _ Hx) as Hmid.
  eexists _, _, (take (Z.to_nat index) (queue c)), x,
    (drop (S (Z.to_nat index)) (queue c)).
  split; [reflexivity|]. fields.
  split; [symmetry; exact Hmid|].
  split; [unfold len; rewrite length_take; lia|].
  split; [f_equal; f_equal; lia|].
  split; [reflexivity|]. split; [reflexivity|].
  events_simpl. f_equal. f_equal. f_equal. f_equal.
  unfold len in *. rewrite length_app, length_take, length_drop. lia.
Qed.

(** [PasteNext] with the queue mode off, or with an empty queue, only
    takes and releases the mutex: no clipboard access, no callback, the
    controller unchanged. *)
Theorem PasteNext_nothing_to_paste (c : Controller) (w : W)
    (t : list Event) :
  mu c = false ->
  queueEnabled c = false \/ queue c = [] ->
  PasteNext (mkSt c w t) = Done tt (mkSt c w (t ++ [EvLock; EvUnlock])).
Proof.
  intros Hmu Hcase. unfold PasteNext. run_monad. rewrite Hmu. run_monad.
  destruct (queueEnabled c) eqn:Hen; cbn [negb].
  - destruct Hcase as [Hf | Hq]; [discriminate|].
    destruct (len (queue c) =? 0) eqn:E0.
    + run_monad. rewrite (set_mu_release c Hmu), <- !app_assoc.
      reflexivity.
    + rewrite Hq in E0. discriminate.
  - run_monad. rewrite (set_mu_release c Hmu), <- !app_assoc. reflexivity.
Qed.
End QueueOps.

Lemma ring_keeps_last_eight_witness :
  exists c' t',
    record_all ([100] ++ [1; 2; 3; 4; 5; 6; 7; 8]) (mkSt fresh quiet_world [])
    = Done tt (mkSt c' quiet_world t')
    /\ (forall n, isSelfEvent c' n = true <-> In n [1; 2; 3; 4; 5; 6; 7; 8])
    /\ queue c' = queue fresh /\ history c' = history fresh.
Proof.
  apply (ring_keeps_last_eight fresh quiet_world [] [100]
           [1; 2; 3; 4; 5; 6; 7; 8]).
  - reflexivity.
  - unfold RingInv. repeat split; (reflexivity || discriminate).
  - reflexivity.
Defined.

Lemma RemoveItem_out_of_range_witness :
  exists e,
    RemoveItem 3 (mkSt (queued_abc "LIFO") quiet_world [])
    = Done (Some e)
        (mkSt (queued_abc "LIFO") quiet_world ([] ++ [EvLock; EvUnlock])).
Proof.
  apply (RemoveItem_out_of_range (queued_abc "LIFO") quiet_world [] 3).
  - reflexivity.
  - right. vm_compute. discriminate.
Defined.

Lemma RemoveItem_in_range_witness :
  exists c' t' pre x post,
    RemoveItem 1 (mkSt (queued_abc "LIFO") quiet_world [])
    = Done None (mkSt c' quiet_world t')
    /\ queue (queued_abc "LIFO") = pre ++ x :: post
    /\ len pre = 1
    /\ queue c' = pre ++ post
    /\ history c' = history (queued_abc "LIFO")
    /\ queueEnabled c' = queueEnabled (queued_abc "LIFO")
    /\ callbacks_of t'
       = callbacks_of []
         ++ [(queueEnabled (queued_abc "LIFO"),
              len (queue (queued_abc "LIFO")) - 1,
              orderStrategy (queued_abc "LIFO"))].
Proof.
  apply (RemoveItem_in_range (queued_abc "LIFO") quiet_world [] 1).
  - reflexivity.
  - split; vm_compute; [discriminate | reflexivity].
Defined.

Lemma PasteNext_nothing_to_paste_witness :
  PasteNext (mkSt fresh quiet_world [])
  = Done tt (mkSt fresh quiet_world ([] ++ [EvLock; EvUnlock])).
Proof.
  apply (PasteNext_nothing_to_paste fresh quiet_world []).
  - reflexivity.
  - left. reflexivity.
Defined.

(** * More of the controller: what every run keeps *)

Lemma valid_order (order : string) :
  negb (String.eqb order "LIFO") && negb (String.eqb order "FIFO") = false
  <-> order = "LIFO" \/ order = "FIFO".
Proof.
  destruct (String.eqb order "LIFO") eqn:E1;
    destruct (String.eqb order "FIFO") eqn:E2; cbn;
    rewrite ?String.eqb_eq, ?String.eqb_neq in *; intuition congruence.
Qed.

Lemma ModeInv_same (c c' : Controller) :
  same_but_ring c c' -> ModeInv c -> ModeInv c'.
Proof.
  unfold same_but_ring, ModeInv.
  intros (_ & -> & -> & _ & -> & _ & ->). tauto.
Qed.

Ltac mode_chain :=
  repeat match goal with
         | Hs : same_but_ring ?c ?c' |- ModeInv ?c' =>
             apply (ModeInv_same c c' Hs)
         end.

Ltac solve_mode :=
  mode_chain;
  unfold ModeInv in *; fields; break_facts;
  repeat match goal with
         | H : negb _ = false |- _ => apply negb_false_iff in H
         | H : negb _ = true |- _ => apply negb_true_iff in H
         end;
  repeat match goal with
         | H : ?x = ?y |- _ =>
             first [is_var x; subst x | is_var y; subst y]
         end;
  intuition (try congruence; try discriminate).

Section Modes.
Context {W : Type} `{Backend W}.
Implicit Types (s : St W).

Lemma wp_conj {A} (m : M W A) (Q1 Q2 : A -> St W -> Prop) s :
  wp m Q1 s -> wp m Q2 s -> wp m (fun a s' => Q1 a s' /\ Q2 a s') s.
Proof.
  intros (a & s1 & Hm & H1) (a' & s2 & Hm' & H2).
  rewrite Hm in Hm'. injection Hm' as <- <-. exists a, s1. auto.
Qed.

Lemma preserves_run_ops (P : Controller -> Prop) :
  (forall o, preserves W P (run_op o)) ->
  forall ops, preserves W P (run_ops ops).
Proof.
  intros Hop ops. induction ops as [|o rest IH]; intros s HI HP;
    cbn [run_ops].
  - apply wp_ret. exact HP.
  - apply wp_bind.
    eapply wp_mono;
      [apply wp_conj; [apply run_op_keeps; exact HI | apply Hop; assumption]|].
    cbv beta. intros ? s' [HI' HP']. apply IH; assumption.
Qed.

Lemma ModeInv_NewController (cfg0 : Config) : ModeInv (NewController cfg0).
Proof.
  unfold ModeInv, NewController. fields.
  split; [|split; [auto | discriminate]].
  destruct (negb (String.eqb (Queue_DefaultOrder cfg0) "LIFO")
            && negb (String.eqb (Queue_DefaultOrder cfg0) "FIFO")) eqn:E.
  - left. reflexivity.
  - apply valid_order. exact E.
Qed.

Lemma same_but_ring_refl (c : Controller) : same_but_ring c c.
Proof. unfold same_but_ring. tauto. Qed.

(** The loop of [CopyItem] changes at most the ring and calls nothing
    back. *)
Lemma CopyItem_range_quiet items id s :
  mu (ctl s) = true -> RingInv (ctl s) ->
  wp (CopyItem_range items id)
     (fun _ s' => same_but_ring (ctl s) (ctl s') /\ RingInv (ctl s')
                  /\ callbacks_of (trace s') = callbacks_of (trace s)) s.
Proof.
  revert s. induction items as [|item rest IH]; intros s Hmu Hr;
    cbn [CopyItem_range].
  - wp_run. split; [apply same_but_ring_refl|]. split; [exact Hr|reflexivity].
  - wp_run; try (apply IH; assumption);
      (split; [first [assumption | apply same_but_ring_refl]|]);
      (split; [assumption|]); events_simpl; reflexivity.
Qed.

Lemma run_op_ModeInv (o : Op) : preserves W ModeInv (run_op o).
Proof.
  destruct o; intros s (Hmu & Hr & Hh) HM; cbn [run_op].
  - unfold ClearQueue. wp_run; solve_mode.
  - unfold ToggleOrder. wp_run; solve_mode.
  - unfold ToggleQueue. wp_run; solve_mode.
  - unfold OnClipboardUpdate. wp_run; try solve [solve_mode].
    all: unfold ModeInv in *; fields; intuition (try congruence).
  - unfold PasteNext. wp_run; try solve [solve_mode].
    all: try (exfalso;
      match goal with
      | Hq : (len ?q =? 0) = false, Hd : dequeue ?o ?q = None |- _ =>
          apply Z.eqb_neq in Hq;
          destruct (dequeue_nonempty o q Hq) as (? & ? & ?); congruence
      end).
  - unfold GetQueue. wp_run; solve_mode.
  - unfold GetHistory. wp_run; solve_mode.
  - unfold GetOrderStrategy. wp_run; solve_mode.
  - unfold SetOrderStrategy. wp_run; try solve [solve_mode].
    match goal with
    | Hv : negb _ && negb _ = false |- _ => apply valid_order in Hv
    end.
    unfold ModeInv in *; fields; intuition congruence.
  - unfold RemoveItem. wp_run; try solve [solve_mode].
    match goal with
    | Hg : (_ <? 0) || (_ <=? _) = false |- _ =>
        apply orb_false_iff in Hg as [Hlo Hhi];
        apply Z.ltb_ge in Hlo; apply Z.leb_gt in Hhi
    end.
    unfold ModeInv in *. fields. destruct HM as (Ho & Hoff & Hon).
    split; [exact Ho|]. split; [|exact Hon].
    intros Hdis. destruct (Hoff Hdis) as [Hq Hsn].
    rewrite Hq in Hhi. unfold len in Hhi. simpl in Hhi. lia.
  - unfold ExecuteMacro. wp_run; solve_mode.
  - unfold CopyItem. wp_run.
    eapply wp_mono.
    + apply CopyItem_range_quiet; fields; [reflexivity | solve_facts].
    + cbv beta. intros r s' (Hsame & Hr' & _). fields.
      assert (Hmu' : mu (ctl s') = true)
        by (destruct Hsame as (-> & _); reflexivity).
      assert (HM' : ModeInv (ctl s')).
      { apply (ModeInv_same _ _ Hsame). solve_mode. }
      wp_run. solve_mode.
  - wp_run; solve_mode.
Qed.
End Modes.

Section Frames.
Context {W : Type} `{Backend W}.
Implicit Types (s : St W).

(** After any run of controller operations from [NewController], whatever
    the configuration and the clipboard do: the order strategy is "LIFO"
    or "FIFO"; while the queue mode is off the queue is empty and no
    snapshot is held; while it is on a snapshot is held. *)
Theorem mode_invariants (cfg0 : Config) (ops : list Op) (w : W)
    (t : list Event) :
  exists s,
    run_ops ops (mkSt (NewController cfg0) w t) = Done tt s
    /\ ModeInv (ctl s).
Proof.
  destruct (preserves_run_ops ModeInv run_op_ModeInv ops
              (mkSt (NewController cfg0) w t))
    as ([] & s & Hrun & HM);
    [apply Inv_NewController | apply ModeInv_NewController|].
  exists s. auto.
Qed.

Ltac solve_hist :=
  fields; break_facts; congruence.

(** Only [OnClipboardUpdate] writes the history: every other operation
    returns with the history it found. *)
Theorem history_only_by_update (o : Op) s :
  o <> OpOnClipboardUpdate ->
  Inv (ctl s) ->
  exists s', run_op o s = Done tt s' /\ history (ctl s') = history (ctl s).
Proof.
  intros Hne (Hmu & Hr & Hh).
  enough (Hwp : wp (run_op o)
                  (fun _ s' => history (ctl s') = history (ctl s)) s).
  { destruct Hwp as ([] & s' & Hrun & Hhist). eauto. }
  destruct o; cbn [run_op]; try congruence.
  - unfold ClearQueue. wp_run; solve_hist.
  - unfold ToggleOrder. wp_run; solve_hist.
  - unfold ToggleQueue. wp_run; solve_hist.
  - unfold PasteNext. wp_run; try solve [solve_hist].
    exfalso.
    match goal with
    | Hq : (len ?q =? 0) = false, Hd : dequeue ?o ?q = None |- _ =>
        apply Z.eqb_neq in Hq;
        destruct (dequeue_nonempty o q Hq) as (? & ? & ?); congruence
    end.
  - unfold GetQueue. wp_run; solve_hist.
  - unfold GetHistory. wp_run; solve_hist.
  - unfold GetOrderStrategy. wp_run; solve_hist.
  - unfold SetOrderStrategy. wp_run; solve_hist.
  - unfold RemoveItem. wp_run; solve_hist.
  - unfold ExecuteMacro. wp_run; solve_hist.
  - unfold CopyItem. wp_run. eapply wp_mono.
    + apply CopyItem_range_quiet; fields; [reflexivity | solve_facts].
    + cbv beta. intros r s' (Hsame & Hr' & _). fields.
      assert (Hmu' : mu (ctl s') = true)
        by (destruct Hsame as (-> & _); reflexivity).
      wp_run. solve_hist.
  - wp_run; solve_hist.
Qed.
End Frames.

Lemma history_only_by_update_witness :
  exists s',
    run_op OpToggleQueue (mkSt fresh hello_world []) = Done tt s'
    /\ history (ctl s') = history (ctl (mkSt fresh hello_world [])).
Proof.
  apply (history_only_by_update OpToggleQueue (mkSt fresh hello_world [])).
  - discriminate.
  - unfold Inv, RingInv. repeat split; (reflexivity || discriminate).
Defined.

(** * More of the controller: the state-change callback *)

Ltac eqb_facts :=
  repeat match goal with
         | H : (_ =? _) = true |- _ => apply Z.eqb_eq in H
         | H : (_ =? _) = false |- _ => apply Z.eqb_neq in H
         | H : negb _ = false |- _ => apply negb_false_iff in H
         | H : negb _ = true |- _ => apply negb_true_iff in H
         end.

Ltac solve_cbs :=
  events_simpl;
  first
    [ exists []; split; [rewrite app_nil_r; reflexivity | left; reflexivity]
    | eexists [_]; split;
      [ reflexivity
      | right; cbn [last]; unfold reported, len in *; fields; eqb_facts;
        break_facts;
        repeat match goal with
               | Hq : queue ?c = _ |- context [queue ?c] => rewrite Hq
               | Hq : queueEnabled ?c = _ |- context [queueEnabled ?c] =>
                   rewrite Hq
               | Hq : orderStrategy ?c = _ |- context [orderStrategy ?c] =>
                   rewrite Hq
               end;
        repeat f_equal;
        first [ reflexivity | congruence | lia
              | rewrite length_app; simpl; lia ] ] ].

Section Callbacks.
Context {W : Type} `{Backend W}.
Implicit Types (s : St W).

(** Whenever an operation calls the state-change callback, the last call
    it makes reports the queue mode, queue length and order strategy the
    controller has when the operation returns. *)
Theorem callbacks_report_state (o : Op) s :
  Inv (ctl s) ->
  exists s' cbs,
    run_op o s = Done tt s'
    /\ callbacks_of (trace s') = callbacks_of (trace s) ++ cbs
    /\ (cbs = [] \/ last cbs = Some (reported (ctl s'))).
Proof.
  intros (Hmu & Hr & Hh).
  enough (Hwp : wp (run_op o)
            (fun _ s' => exists cbs,
               callbacks_of (trace s') = callbacks_of (trace s) ++ cbs
               /\ (cbs = [] \/ last cbs = Some (reported (ctl s')))) s).
  { destruct Hwp as ([] & s' & Hrun & cbs & Hc). eauto. }
  destruct o; cbn [run_op].
  - unfold ClearQueue. wp_run; solve_cbs.
  - unfold ToggleOrder. wp_run; solve_cbs.
  - unfold ToggleQueue. wp_run; solve_cbs.
  - unfold OnClipboardUpdate. wp_run; solve_cbs.
  - unfold PasteNext. wp_run; try solve [solve_cbs].
    exfalso.
    match goal with
    | Hq : (len ?q =? 0) = false, Hd : dequeue ?o ?q = None |- _ =>
        apply Z.eqb_neq in Hq;
        destruct (dequeue_nonempty o q Hq) as (? & ? & ?); congruence
    end.
  - unfold GetQueue. wp_run; solve_cbs.
  - unfold GetHistory. wp_run; solve_cbs.
  - unfold GetOrderStrategy. wp_run; solve_cbs.
  - unfold SetOrderStrategy. wp_run; solve_cbs.
  - unfold RemoveItem. wp_run; solve_cbs.
  - unfold ExecuteMacro. wp_run; solve_cbs.
  - unfold CopyItem. wp_run. eapply wp_mono.
    + apply CopyItem_range_quiet; fields; [reflexivity | solve_facts].
    + cbv beta. intros r s' (Hsame & Hr' & Hcb). fields.
      assert (Hmu' : mu (ctl s') = true)
        by (destruct Hsame as (-> & _); reflexivity).
      wp_run. events_simpl. rewrite Hcb. events_simpl.
      exists []. split; [rewrite app_nil_r; reflexivity | left; reflexivity].
  - wp_run; solve_cbs.
Qed.
End Callbacks.

Lemma callbacks_report_state_witness :
  exists s' cbs,
    run_op OpToggleOrder (mkSt fresh quiet_world []) = Done tt s'
    /\ callbacks_of (trace s')
       = callbacks_of (trace (mkSt fresh quiet_world [])) ++ cbs
    /\ (cbs = [] \/ last cbs = Some (reported (ctl s'))).
Proof.
  apply (callbacks_report_state OpToggleOrder (mkSt fresh quiet_world [])).
  unfold Inv, RingInv. repeat split; (reflexivity || discriminate).
Defined.

(** * More of the controller: PasteNext and its own clipboard writes *)

Lemma recent_at_found (c : Controller) (k n : Z) :
  recent_at c k n -> isSelfEvent c n = true.
Proof.
  unfold recent_at, isSelfEvent. intros Hl.
  apply isSelfEvent_range_In, list_elem_of_In, list_elem_of_lookup. eauto.
Qed.

Lemma ring_slot_shift (idx k : Z) :
  0 <= idx < 8 -> 0 <= k < 7 ->
  (Z.rem (wrap_int (idx + 1)) 8 - 1 - (k + 1)) mod 8 = (idx - 1 - k) mod 8
  /\ (idx - 1 - k) mod 8 <> idx
  /\ 0 <= (idx - 1 - k) mod 8 < 8.
Proof.
  intros Hi Hk. rewrite wrap_int_small by lia.
  rewrite Z.rem_mod_nonneg by lia.
  assert (Hc : idx = 0 \/ idx = 1 \/ idx = 2 \/ idx = 3 \/ idx = 4
               \/ idx = 5 \/ idx = 6 \/ idx = 7) by lia.
  assert (Hk' : k = 0 \/ k = 1 \/ k = 2 \/ k = 3 \/ k = 4 \/ k = 5 \/ k = 6)
    by lia.
  destruct Hc as [-> | [-> | [-> | [-> | [-> | [-> | [-> | ->]]]]]]];
    destruct Hk' as [-> | [-> | [-> | [-> | [-> | [-> | ->]]]]]];
    vm_compute; repeat split; congruence.
Qed.

Lemma ring_slot_newest (idx : Z) :
  0 <= idx < 8 -> (Z.rem (wrap_int (idx + 1)) 8 - 1 - 0) mod 8 = idx.
Proof.
  intros Hi.
  assert (Hc : idx = 0 \/ idx = 1 \/ idx = 2 \/ idx = 3 \/ idx = 4
               \/ idx = 5 \/ idx = 6 \/ idx = 7) by lia.
  destruct Hc as [-> | [-> | [-> | [-> | [-> | [-> | [-> | ->]]]]]]];
    reflexivity.
Qed.

Section Recent.
Context {W : Type} `{Backend W}.
Implicit Types (s : St W).

Lemma wp_addSelfEvent_recent seq Q s :
  mu (ctl s) = false -> RingInv (ctl s) ->
  (forall c', RingInv c' -> same_but_ring (ctl s) c' ->
              recent_at c' 0 seq ->
              (forall k n, 0 <= k < 7 -> recent_at (ctl s) k n ->
                           recent_at c' (k + 1) n) ->
              Q tt (mkSt c' (world s) (trace s ++ [EvLock] ++ [EvUnlock]))) ->
  wp (addSelfEvent seq) Q s.
Proof.
  intros Hmu Hr HQ. destruct s as [c w t]. fields.
  pose proof (addSelfEvent_spec c w t seq Hmu (RingInv_ring_ok c Hr)) as Hrun.
  eexists tt, _. split; [exact Hrun|].
  destruct Hr as (Hlen & Hsz & Hidx). unfold len in Hlen.
  apply HQ.
  - unfold RingInv, len. fields. rewrite length_insert, Hsz.
    pose proof (ring_next_range _ Hidx). lia.
  - unfold same_but_ring. fields. tauto.
  - unfold recent_at. fields. rewrite Hsz, ring_slot_newest by exact Hidx.
    apply list_lookup_insert_eq. lia.
  - intros k n Hk. unfold recent_at. fields. rewrite Hsz.
    destruct (ring_slot_shift _ _ Hidx Hk) as (-> & Hne & Hrange).
    intros Hl. rewrite list_lookup_insert_ne; [exact Hl|]. lia.
Qed.
End Recent.

Ltac wp_prim_recent :=
  lazymatch goal with
  | |- wp (bind _ _) _ _ => apply wp_bind
  | |- wp (ret _) _ _ => apply wp_ret
  | |- wp get _ _ => apply wp_get
  | |- wp (modify _) _ _ => apply wp_modify
  | |- wp (emit _) _ _ => apply wp_emit
  | |- wp (onStateChange _ _ _) _ _ => apply wp_onStateChange
  | |- wp (Sleep _) _ _ => apply wp_Sleep
  | |- wp windows_Read _ _ => apply wp_windows_Read
  | |- wp (windows_Write _) _ _ => apply wp_windows_Write
  | |- wp windows_SendCtrlV _ _ => apply wp_windows_SendCtrlV
  | |- wp (windows_TypeString _) _ _ => apply wp_windows_TypeString
  | |- wp windows_GetClipboardSequenceNumber _ _ =>
      apply wp_windows_GetClipboardSequenceNumber
  | |- wp (addSelfEvent _) _ _ =>
      apply wp_addSelfEvent_recent;
      [solve_facts | solve_facts | intros ? ? ? ? ?]
  | |- wp Lock _ _ => apply wp_Lock; [fields; try assumption; try reflexivity|]
  | |- wp Unlock _ _ =>
      apply wp_Unlock; [fields; try assumption; try reflexivity|]
  end; fields.

Ltac solve_recent :=
  match goal with
  | Hrec : recent_at ?c1 0 ?n |- isSelfEvent ?c1 ?n = true =>
      exact (recent_at_found c1 0 n Hrec)
  | Hrec : recent_at ?c0 0 ?n,
    Hshift : forall k m, _ -> recent_at ?c0 k m -> recent_at ?c1 (k + 1) m
    |- isSelfEvent ?c1 ?n = true =>
      apply (recent_at_found c1 (0 + 1) n); apply Hshift; [lia | exact Hrec]
  end.

Ltac wp_run_recent := repeat (first [wp_prim_recent | wp_branch]).

Section PasteRecords.
Context {W : Type} `{Backend W}.
Implicit Types (s : St W).

(** [PasteNext] on a non-empty queue, when reading the clipboard and
    writing the item succeed: the sequence number after the write of the
    item and the one after the restoring write are both in the ring when
    it returns, the clipboard is left as the write of the content read
    before left it, and an [OnClipboardUpdate] arriving then is dropped as
    a self event, whatever the restoring write returned. *)
Theorem PasteNext_records_its_writes (order : string) (c : Controller)
    (w w1 w2 : W) (t : list Event) (item before : ClipboardContent)
    (rest : list ClipboardContent) :
  ready order c ->
  queue c <> [] ->
  dequeue order (queue c) = Some (item, rest) ->
  Read w = ((before, None), w1) ->
  Write item w1 = (None, w2) ->
  exists s' t'',
    PasteNext (mkSt c w t) = Done tt s'
    /\ isSelfEvent (ctl s') (GetClipboardSequenceNumber w2) = true
    /\ isSelfEvent (ctl s') (GetClipboardSequenceNumber (world s')) = true
    /\ world s' = snd (Write before (snd (SendCtrlV w2)))
    /\ OnClipboardUpdate s' = Done tt (mkSt (ctl s') (world s') t'').
Proof.
  intros (Hmu & Hr & Hen & Hord) Hq Hdq Hread Hwrite.
  assert (Hwp : wp PasteNext
            (fun _ s' =>
               mu (ctl s') = false
               /\ isSelfEvent (ctl s') (GetClipboardSequenceNumber w2) = true
               /\ isSelfEvent (ctl s')
                    (GetClipboardSequenceNumber (world s')) = true
               /\ world s' = snd (Write before (snd (SendCtrlV w2))))
            (mkSt c w t)).
  { unfold PasteNext. repeat wp_prim_recent. rewrite Hen. cbn [negb].
    destruct (len (queue c) =? 0) eqn:E0.
    { apply Z.eqb_eq in E0. unfold len in E0.
      destruct (queue c); [congruence | simpl in E0; lia]. }
    rewrite Hord, Hdq. repeat wp_prim_recent.
    rewrite Hread. cbn [fst snd]. repeat wp_prim_recent.
    rewrite Hwrite. cbn [fst snd]. repeat wp_prim_recent.
    destruct (SendCtrlV w2) as [err w3] eqn:Hsend. cbn [fst snd].
    destruct err as [e|]; repeat wp_prim_recent;
      (split; [solve_facts|]);
      (split; [solve_recent|]);
      (split; [solve_recent|reflexivity]). }
  destruct Hwp as ([] & s' & Hrun & Hmu' & Hs1 & Hs2 & Hw).
  destruct s' as [c' w' t']. fields.
  eexists _, _. split; [exact Hrun|]. fields.
  split; [exact Hs1|]. split; [exact Hs2|]. split; [exact Hw|].
  apply OnClipboardUpdate_self_event; assumption.
Qed.
End PasteRecords.

Lemma PasteNext_records_its_writes_witness :
  exists s' t'',
    PasteNext (mkSt (queued_abc "LIFO") hello_world []) = Done tt s'
    /\ isSelfEvent (ctl s')
         (GetClipboardSequenceNumber (Sim.mkWorld [] 6)) = true
    /\ isSelfEvent (ctl s') (GetClipboardSequenceNumber (world s')) = true
    /\ world s' = snd (Write hello_0 (snd (SendCtrlV (Sim.mkWorld [] 6))))
    /\ OnClipboardUpdate s' = Done tt (mkSt (ctl s') (world s') t'').
Proof.
  apply (PasteNext_records_its_writes "LIFO" (queued_abc "LIFO")
           hello_world quiet_world (Sim.mkWorld [] 6) [] item_c hello_0
           [item_a; item_b]).
  - unfold ready, RingInv. repeat split; (reflexivity || discriminate).
  - discriminate.
  - reflexivity.
  - reflexivity.
  - reflexivity.
Defined.

(** * More of the controller: toggling and ordering *)

Section MoreOps.
Context {W : Type} `{Backend W}.
Implicit Types (s : St W).

Lemma record_all_recent (later : list Z) s (k n : Z) :
  mu (ctl s) = false -> RingInv (ctl s) ->
  0 <= k -> k + len later < 8 ->
  recent_at (ctl s) k n ->
  wp (record_all later)
     (fun _ s' => recent_at (ctl s') (k + len later) n) s.
Proof.
  revert s k. induction later as [|m later IH]; intros s k Hmu Hr Hk Hlt Hrec;
    cbn [record_all].
  - apply wp_ret. unfold len. simpl. rewrite Z.add_0_r. exact Hrec.
  - unfold len in *. cbn [length] in *.
    apply wp_bind, wp_addSelfEvent_recent; [exact Hmu | exact Hr|].
    intros c' Hr' Hsame _ Hshift.
    eapply wp_mono.
    + apply (IH _ (k + 1)); fields.
      * destruct Hsame as (-> & _). exact Hmu.
      * exact Hr'.
      * lia.
      * lia.
      * apply Hshift; [lia | exact Hrec].
    + cbv beta. intros [] s' Hfin.
      replace (k + Z.of_nat (S (length later)))
        with (k + 1 + Z.of_nat (length later)) by lia.
      exact Hfin.
Qed.

(** A number recorded by [addSelfEvent] is still found by [isSelfEvent]
    after up to seven further recordings. *)
Theorem recorded_number_stays_for_seven (c : Controller) (w : W)
    (t : list Event) (n : Z) (later : list Z) :
  mu c = false -> RingInv c -> (length later < 8)%nat ->
  exists c' t',
    record_all (n :: later) (mkSt c w t) = Done tt (mkSt c' w t')
    /\ isSelfEvent c' n = true.
Proof.
  intros Hmu Hr Hlen.
  assert (Hwp : wp (record_all (n :: later))
                  (fun _ s' => isSelfEvent (ctl s') n = true
                               /\ world s' = w) (mkSt c w t)).
  { apply wp_conj.
    - cbn [record_all]. apply wp_bind, wp_addSelfEvent_recent;
        [exact Hmu | exact Hr|].
      intros c' Hr' Hsame Hrec _. eapply wp_mono.
      + apply (record_all_recent later _ 0 n); fields;
          [destruct Hsame as (-> & _); exact Hmu | exact Hr' | lia
          | unfold len; lia | exact Hrec].
      + cbv beta. intros [] s' Hfin. eapply recent_at_found. exact Hfin.
    - eapply wp_mono; [apply record_all_keeps; assumption|].
      cbv beta. intros [] s' (_ & _ & Hw & _). exact Hw. }
  destruct Hwp as ([] & [c' w' t'] & Hrun & Hself & Hw). fields. subst w'.
  eauto.
Qed.

(** [ToggleQueue] twice.  Turning the queue mode on reads the clipboard
    once and keeps what it read as the snapshot, with an empty queue.
    Turning it off again, whatever the clipboard has become, writes that
    snapshot back, records the sequence number of this write in the ring,
    and ends with the mode off, the queue empty and no snapshot.  The
    history is the one before the first call. *)
Theorem ToggleQueue_restores_snapshot (c : Controller) (w w2 : W)
    (t t2 : list Event) :
  mu c = false -> RingInv c -> queueEnabled c = false ->
  exists c1 t1 c2 t2',
    ToggleQueue (mkSt c w t) = Done tt (mkSt c1 (snd (Read w)) t1)
    /\ queueEnabled c1 = true /\ queue c1 = []
    /\ snapshotOnEnable c1 = Some (fst (fst (Read w)))
    /\ clipboard_events t1 = clipboard_events t ++ [EvRead]
    /\ ToggleQueue (mkSt c1 w2 t2)
       = Done tt (mkSt c2 (snd (Write (fst (fst (Read w))) w2)) t2')
    /\ clipboard_events t2'
       = clipboard_events t2 ++ [EvWrite (fst (fst (Read w)))]
    /\ queueEnabled c2 = false /\ queue c2 = []
    /\ snapshotOnEnable c2 = None
    /\ history c2 = history c
    /\ isSelfEvent c2
         (GetClipboardSequenceNumber
            (snd (Write (fst (fst (Read w))) w2))) = true.
Proof.
  intros Hmu Hr Hen.
  set (snap := fst (fst (Read w))).
  assert (Hwp1 : wp ToggleQueue
            (fun _ s' =>
               world s' = snd (Read w)
               /\ (mu (ctl s') = false /\ RingInv (ctl s'))
               /\ queueEnabled (ctl s') = true /\ queue (ctl s') = []
               /\ snapshotOnEnable (ctl s') = Some snap
               /\ history (ctl s') = history c
               /\ clipboard_events (trace s') = clipboard_events t ++ [EvRead])
            (mkSt c w t)).
  { unfold ToggleQueue. repeat wp_prim. rewrite Hen. cbn [negb].
    wp_run. repeat split; try solve_facts. events_simpl. reflexivity. }
  destruct Hwp1 as ([] & [c1 w1 t1] & Hrun1 & Hw1 & (Hmu1 & Hr1) & Hen1 & Hq1
                    & Hsn1 & Hh1 & Hev1). fields. subst w1.
  assert (Hwp2 : wp ToggleQueue
            (fun _ s' =>
               world s' = snd (Write snap w2)
               /\ queueEnabled (ctl s') = false /\ queue (ctl s') = []
               /\ snapshotOnEnable (ctl s') = None
               /\ history (ctl s') = history c1
               /\ clipboard_events (trace s')
                  = clipboard_events t2 ++ [EvWrite snap]
               /\ isSelfEvent (ctl s')
                    (GetClipboardSequenceNumber (snd (Write snap w2))) = true)
            (mkSt c1 w2 t2)).
  { unfold ToggleQueue. repeat wp_prim. rewrite Hen1. cbn [negb].
    repeat wp_prim. rewrite Hsn1. repeat wp_prim.
    split; [reflexivity|].
    unfold same_but_ring in *. fields. break_facts.
    repeat split; try congruence. events_simpl. reflexivity. }
  destruct Hwp2 as ([] & [c2 w2' t2'] & Hrun2 & Hw2 & Hen2 & Hq2 & Hsn2
                    & Hh2 & Hev2 & Hself). fields. subst w2'.
  exists c1, t1, c2, t2'. repeat split; try assumption. congruence.
Qed.

(** [SetOrderStrategy]: a strategy other than "LIFO" and "FIFO" is
    refused with an error and the controller is unchanged; "LIFO" or "FIFO"
    is stored, and the state-change callback runs exactly when the
    strategy differs from the one before. *)
Theorem SetOrderStrategy_result (c : Controller) (w : W) (t : list Event)
    (order : string) :
  mu c = false ->
  (order <> "LIFO" /\ order <> "FIFO" ->
   exists e,
     SetOrderStrategy order (mkSt c w t)
     = Done (Some e) (mkSt c w (t ++ [EvLock; EvUnlock])))
  /\ (order = "LIFO" \/ order = "FIFO" ->
      exists t',
        SetOrderStrategy order (mkSt c w t)
        = Done None (mkSt (set_orderStrategy order c) w t')
        /\ callbacks_of t'
           = callbacks_of t
             ++ (if String.eqb (orderStrategy c) order then []
                 else [(queueEnabled c, len (queue c), order)])).
Proof.
  intros Hmu. split.
  - intros [Hl Hf]. unfold SetOrderStrategy. run_monad. rewrite Hmu.
    run_monad.
    apply String.eqb_neq in Hl, Hf. rewrite Hl, Hf. cbn [negb andb].
    run_monad. rewrite (set_mu_release c Hmu), <- !app_assoc.
    eexists. reflexivity.
  - intros Hvalid. apply valid_order in Hvalid.
    unfold SetOrderStrategy. run_monad. rewrite Hmu. run_monad.
    rewrite Hvalid.
    destruct (String.eqb (orderStrategy c) order) eqn:Esame; run_monad.
    + apply String.eqb_eq in Esame. eexists. split.
      * rewrite (set_mu_release c Hmu). f_equal. f_equal.
        destruct c; cbn in *; subst; reflexivity.
      * events_simpl. reflexivity.
    + eexists. split.
      * f_equal. f_equal. destruct c; cbn in *; subst; reflexivity.
      * events_simpl. reflexivity.
Qed.

(** [ToggleOrder] switches between "LIFO" and "FIFO" and keeps the queue;
    a second [ToggleOrder] gives back the controller one started from. *)
Theorem ToggleOrder_twice (c : Controller) (w : W) (t : list Event) :
  mu c = false ->
  orderStrategy c = "LIFO" \/ orderStrategy c = "FIFO" ->
  exists c1 t1 t2,
    ToggleOrder (mkSt c w t) = Done tt (mkSt c1 w t1)
    /\ orderStrategy c1 <> orderStrategy c
    /\ (orderStrategy c1 = "LIFO" \/ orderStrategy c1 = "FIFO")
    /\ queue c1 = queue c
    /\ ToggleOrder (mkSt c1 w t1) = Done tt (mkSt c w t2).
Proof.
  intros Hmu Hord. unfold ToggleOrder. run_monad. rewrite Hmu. run_monad.
  destruct Hord as [Ho | Ho]; rewrite Ho; cbn [String.eqb Ascii.eqb Bool.eqb];
    run_monad; eexists _, _, _; (split; [reflexivity|]); fields;
    (split; [rewrite ?Ho; discriminate|]);
    (split; [auto|]); (split; [reflexivity|]);
    cbn; f_equal; f_equal; destruct c; cbn in *; subst; reflexivity.
Qed.
End MoreOps.

Lemma recorded_number_stays_for_seven_witness :
  exists c' t',
    record_all (42 :: [1; 2; 3]) (mkSt fresh quiet_world [])
    = Done tt (mkSt c' quiet_world t')
    /\ isSelfEvent c' 42 = true.
Proof.
  apply (recorded_number_stays_for_seven fresh quiet_world [] 42 [1; 2; 3]).
  - reflexivity.
  - unfold RingInv. repeat split; (reflexivity || discriminate).
  - simpl. lia.
Defined.

Lemma ToggleQueue_restores_snapshot_witness :
  exists c1 t1 c2 t2',
    ToggleQueue (mkSt fresh hello_world [])
    = Done tt (mkSt c1 (snd (Read hello_world)) t1)
    /\ queueEnabled c1 = true /\ queue c1 = []
    /\ snapshotOnEnable c1 = Some (fst (fst (Read hello_world)))
    /\ clipboard_events t1 = clipboard_events [] ++ [EvRead]
    /\ ToggleQueue (mkSt c1 (Sim.mkWorld [] 9) [])
       = Done tt
           (mkSt c2
              (snd (Write (fst (fst (Read hello_world))) (Sim.mkWorld [] 9)))
              t2')
    /\ clipboard_events t2'
       = clipboard_events [] ++ [EvWrite (fst (fst (Read hello_world)))]
    /\ queueEnabled c2 = false /\ queue c2 = []
    /\ snapshotOnEnable c2 = None
    /\ history c2 = history fresh
    /\ isSelfEvent c2
         (GetClipboardSequenceNumber
            (snd (Write (fst (fst (Read hello_world))) (Sim.mkWorld [] 9))))
       = true.
Proof.
  apply (ToggleQueue_restores_snapshot fresh hello_world (Sim.mkWorld [] 9)
           [] []).
  - reflexivity.
  - unfold RingInv. repeat split; (reflexivity || discriminate).
  - reflexivity.
Defined.

Lemma SetOrderStrategy_result_witness :
  ("FIFO" <> "LIFO" /\ "FIFO" <> "FIFO" ->
   exists e,
     SetOrderStrategy "FIFO" (mkSt fresh quiet_world [])
     = Done (Some e) (mkSt fresh quiet_world ([] ++ [EvLock; EvUnlock])))
  /\ ("FIFO" = "LIFO" \/ "FIFO" = "FIFO" ->
      exists t',
        SetOrderStrategy "FIFO" (mkSt fresh quiet_world [])
        = Done None (mkSt (set_orderStrategy "FIFO" fresh) quiet_world t')
        /\ callbacks_of t'
           = callbacks_of []
             ++ (if String.eqb (orderStrategy fresh) "FIFO" then []
                 else [(queueEnabled fresh, len (queue fresh), "FIFO")])).
Proof.
  apply (SetOrderStrategy_result fresh quiet_world [] "FIFO").
  reflexivity.
Defined.

Lemma ToggleOrder_twice_witness :
  exists c1 t1 t2,
    ToggleOrder (mkSt fresh quiet_world []) = Done tt (mkSt c1 quiet_world t1)
    /\ orderStrategy c1 <> orderStrategy fresh
    /\ (orderStrategy c1 = "LIFO" \/ orderStrategy c1 = "FIFO")
    /\ queue c1 = queue fresh
    /\ ToggleOrder (mkSt c1 quiet_world t1)
       = Done tt (mkSt fresh quiet_world t2).
Proof.
  apply (ToggleOrder_twice fresh quiet_world []).
  - reflexivity.
  - left. reflexivity.
Defined.

(** * More of the controller: CopyItem *)

Section Copy.
Context {W : Type} `{Backend W}.
Implicit Types (s : St W).

Lemma CopyItem_range_skip (pre rest : list ClipboardContent) (id : string) s :
  Forall (fun item => cID item <> id) pre ->
  CopyItem_range (pre ++ rest) id s = CopyItem_range rest id s.
Proof.
  induction 1 as [|item pre Hne _ IH]; [reflexivity|].
  cbn [app CopyItem_range]. apply String.eqb_neq in Hne. rewrite Hne.
  exact IH.
Qed.

Lemma wp_CopyItem_range_skip (pre rest : list ClipboardContent)
    (id : string) Q s :
  Forall (fun item => cID item <> id) pre ->
  wp (CopyItem_range rest id) Q s ->
  wp (CopyItem_range (pre ++ rest) id) Q s.
Proof.
  intros Hpre Hwp. unfold wp in *.
  rewrite (CopyItem_range_skip pre rest id s Hpre). exact Hwp.
Qed.

(** [CopyItem] with an id no history entry carries returns the not-found
    error, writes nothing to the clipboard and leaves the controller
    unchanged. *)
Theorem CopyItem_not_found (c : Controller) (w : W) (t : list Event)
    (id : string) :
  mu c = false ->
  Forall (fun item => cID item <> id) (history c) ->
  exists e,
    CopyItem id (mkSt c w t)
    = Done (Some e) (mkSt c w (t ++ [EvLock; EvUnlock])).
Proof.
  intros Hmu Hnone. unfold CopyItem. run_monad. rewrite Hmu. run_monad.
  rewrite <- (app_nil_r (history c)).
  rewrite (CopyItem_range_skip _ [] id _ Hnone). cbn [CopyItem_range].
  run_monad. rewrite (set_mu_release c Hmu), <- !app_assoc.
  eexists. reflexivity.
Qed.

(** [CopyItem] writes the first history entry that carries the id.  Its
    result is the result of that write.  When the write succeeds the
    sequence number after it is in the ring; when it fails the controller
    is unchanged.  Queue and history are untouched either way. *)
Theorem CopyItem_first_match (c : Controller) (w w' : W) (t : list Event)
    (id : string) (pre post : list ClipboardContent)
    (item : ClipboardContent) (err : error) :
  mu c = false -> RingInv c ->
  history c = pre ++ item :: post ->
  Forall (fun x => cID x <> id) pre ->
  cID item = id ->
  Write item w = (err, w') ->
  exists c' t',
    CopyItem id (mkSt c w t) = Done err (mkSt c' w' t')
    /\ clipboard_events t' = clipboard_events t ++ [EvWrite item]
    /\ queue c' = queue c /\ history c' = history c
    /\ match err with
       | None => isSelfEvent c' (GetClipboardSequenceNumber w') = true
       | Some _ => c' = c
       end.
Proof.
  intros Hmu Hr Hhist Hpre Hid Hwrite.
  assert (Hwp : wp (CopyItem id)
            (fun r s' =>
               r = err /\ world s' = w'
               /\ clipboard_events (trace s')
                  = clipboard_events t ++ [EvWrite item]
               /\ queue (ctl s') = queue c /\ history (ctl s') = history c
               /\ match err with
                  | None =>
                      isSelfEvent (ctl s') (GetClipboardSequenceNumber w')
                      = true
                  | Some _ => ctl s' = c
                  end) (mkSt c w t)).
  { unfold CopyItem. repeat wp_prim. rewrite Hhist.
    apply (wp_CopyItem_range_skip pre (item :: post) id _ _ Hpre).
    cbn [CopyItem_range]. apply String.eqb_eq in Hid. rewrite Hid.
    repeat wp_prim. rewrite Hwrite. cbn [fst snd].
    destruct err as [e|]; repeat wp_prim;
      unfold same_but_ring in *; fields; break_facts;
      repeat split;
      first [ reflexivity | assumption | congruence
            | events_simpl; reflexivity
            | apply set_mu_release; exact Hmu ]. }
  destruct Hwp as (r & [c' w'' t'] & Hrun & -> & Hw & Hrest). fields.
  subst w''. eauto.
Qed.
End Copy.

Lemma CopyItem_not_found_witness :
  exists e,
    CopyItem "id-c" (mkSt (set_history [item_a; item_b] fresh) quiet_world [])
    = Done (Some e)
        (mkSt (set_history [item_a; item_b] fresh) quiet_world
           ([] ++ [EvLock; EvUnlock])).
Proof.
  apply (CopyItem_not_found (set_history [item_a; item_b] fresh)
           quiet_world [] "id-c").
  - reflexivity.
  - repeat constructor; discriminate.
Defined.

Lemma CopyItem_first_match_witness :
  exists c' t',
    CopyItem "id-b" (mkSt (set_history [item_a; item_b] fresh) quiet_world [])
    = Done None (mkSt c' (Sim.mkWorld [] 6) t')
    /\ clipboard_events t' = clipboard_events [] ++ [EvWrite item_b]
    /\ queue c' = queue (set_history [item_a; item_b] fresh)
    /\ history c' = history (set_history [item_a; item_b] fresh)
    /\ isSelfEvent c' (GetClipboardSequenceNumber (Sim.mkWorld [] 6)) = true.
Proof.
  apply (CopyItem_first_match (set_history [item_a; item_b] fresh)
           quiet_world (Sim.mkWorld [] 6) [] "id-b" [item_a] [] item_b None).
  - reflexivity.
  - unfold RingInv. repeat split; (reflexivity || discriminate).
  - reflexivity.
  - repeat constructor; discriminate.
  - reflexivity.
  - reflexivity.
Defined.

(** * More of input.go: signatures and the registry *)

Lemma Equals_refl (s : InputSignature) : Equals s s = true.
Proof. apply Equals_spec. unfold struct_eq. auto. Qed.

Lemma NewInputSignature_fields (range : list (string * Z)) (now : Z)
    (st : byte) (raw : list byte) (mods : byte) :
  let s := NewInputSignature range now st raw mods in
  SourceType s = st /\ RawData s = raw /\ ModifierState s = mods
  /\ well_hashed s /\ RecordedAt s = now.
Proof. cbn. unfold well_hashed. cbn. auto. Qed.

Lemma NewInputSignature_RawData (range : list (string * Z)) (now : Z)
    (st : byte) (raw : list byte) (mods : byte) :
  RawData (NewInputSignature range now st raw mods) = raw.
Proof. reflexivity. Qed.

(** Two signatures built by [NewInputSignature] are [Equals] exactly when
    they were built from the same source type, raw bytes and modifiers:
    the time of recording and the key table behind the display hint do
    not matter. *)
Theorem NewInputSignature_Equals (r1 r2 : list (string * Z)) (t1 t2 : Z)
    (st1 st2 : byte) (raw1 raw2 : list byte) (m1 m2 : byte) :
  Equals (NewInputSignature r1 t1 st1 raw1 m1)
         (NewInputSignature r2 t2 st2 raw2 m2) = true
  <-> st1 = st2 /\ raw1 = raw2 /\ m1 = m2.
Proof.
  rewrite Equals_spec. unfold struct_eq. cbn. split.
  - intros (_ & -> & -> & ->). auto.
  - intros (-> & -> & ->). auto.
Qed.

Lemma put_le_uint16_length (n : Z) : length (put_le_uint16 n) = 2%nat.
Proof. reflexivity. Qed.

(** [ToBytes] writes five header bytes and the raw data, and two
    signatures with the same serialization have the same source type,
    modifiers and raw bytes. *)
Theorem ToBytes_determines_identity (a b : InputSignature) :
  ToBytes a = ToBytes b ->
  struct_eq a b
  /\ length (ToBytes a) = (5 + length (RawData a))%nat.
Proof.
  unfold ToBytes, struct_eq, put_le_uint16. cbn [app length].
  intros Heq. injection Heq as Hst Hm _ _ Hraw.
  repeat split; try assumption. 
Qed.

(** A four-byte input with version 1 passes the length check although
    its length field is one byte short: [SignatureFromBytes] returns a
    signature with the given source type and modifiers and no raw data. *)
Theorem SignatureFromBytes_short_header (range : list (string * Z))
    (st mods b : byte) :
  exists s',
    SignatureFromBytes range [x01; st; mods; b] = inr s'
    /\ SourceType s' = st /\ ModifierState s' = mods /\ RawData s' = []
    /\ well_hashed s'.
Proof. eexists. split; [reflexivity|]. cbn. unfold well_hashed. cbn. auto. Qed.

Section RegistryFacts.
Context {Cb : Type}.
Implicit Types (m : SignatureMatcher Cb).
Implicit Types (regs : list (RegisteredSignature Cb)).

Lemma Match_range_app regs1 regs2 q :
  Match_range (regs1 ++ regs2) q
  = if existsb (fun r => Equals (Signature r) q) regs1
    then Match_range regs1 q else Match_range regs2 q.
Proof.
  induction regs1 as [|r regs1 IH]; [reflexivity|].
  cbn [app Match_range existsb].
  destruct (Equals (Signature r) q); [reflexivity | exact IH].
Qed.

Lemma Match_bucket m q : Match m q = Match_range (bucket m q) q.
Proof. unfold Match, bucket. destruct (m !! Hash q); reflexivity. Qed.

Lemma bucket_Register_same m sig id cb q :
  Hash q = Hash sig ->
  bucket (Register m sig id cb) q
  = bucket m q ++ [{| Signature := sig; Callback := cb; ID := id |}].
Proof.
  intros Hh. unfold bucket, Register. rewrite Hh, lookup_insert_eq.
  reflexivity.
Qed.

(** [Register] and [Match].  Registering a signature does not change what
    a query with another hash matches; a query that already had a match
    keeps it (the earlier registration wins); and a signature that nothing
    in its bucket equals is matched, once registered, to its own
    callback. *)
Theorem Register_Match m (sig q : InputSignature) (id : string)
    (cb : option Cb) :
  (Hash q <> Hash sig -> Match (Register m sig id cb) q = Match m q)
  /\ (existsb (fun r => Equals (Signature r) q) (bucket m q) = true ->
      Match (Register m sig id cb) q = Match m q)
  /\ (existsb (fun r => Equals (Signature r) sig) (bucket m sig) = false ->
      Match (Register m sig id cb) sig = cb).
Proof.
  split; [|split].
  - intros Hne. unfold Match, Register.
    rewrite lookup_insert_ne by congruence. reflexivity.
  - intros Hex. destruct (decide (Hash q = Hash sig)) as [Hh|Hne].
    + rewrite !Match_bucket, (bucket_Register_same _ _ _ _ _ Hh).
      rewrite Match_range_app, Hex. reflexivity.
    + unfold Match, Register. rewrite lookup_insert_ne by congruence.
      reflexivity.
  - intros Hnone.
    rewrite Match_bucket, (bucket_Register_same _ _ _ _ _ eq_refl).
    rewrite Match_range_app, Hnone. cbn [Match_range].
    rewrite Equals_refl. reflexivity.
Qed.

Lemma registry_ok_buckets m : registry_ok m -> buckets_ok m.
Proof. intros Hok h regs Hl. apply (Hok h regs Hl). Qed.

Lemma registry_ok_step m (o : MatcherOp Cb) :
  registry_ok m -> registry_ok (matcher_step m o).
Proof.
  intros Hok. destruct o as [sig id cb | order id |]; cbn [matcher_step].
  - intros h regs. unfold Register.
    destruct (decide (Hash sig = h)) as [<-|Hne].
    + rewrite lookup_insert_eq. intros [= <-]. split.
      * intros Hnil. apply app_eq_nil in Hnil as [_ Hnil]. discriminate.
      * apply Forall_app. split; [|repeat constructor].
        destruct (m !! Hash sig) as [old|] eqn:E; simpl;
          [apply (Hok _ _ E) | constructor].
    + rewrite lookup_insert_ne by exact Hne. apply Hok.
  - unfold Unregister. induction order as [|hash later IH]; simpl;
      [exact Hok|].
    destruct (_ !! hash) as [regs|] eqn:E in |- *; [|exact IH].
    destruct (remove_first_id id regs) as [regs'|] eqn:Er; [|exact IH].
    destruct (Z.of_nat (length regs') =? 0) eqn:E0.
    + intros h rs. destruct (decide (hash = h)) as [<-|Hne].
      * rewrite lookup_delete_eq. discriminate.
      * rewrite lookup_delete_ne by exact Hne. apply Hok.
    + intros h rs. destruct (decide (hash = h)) as [<-|Hne].
      * rewrite lookup_insert_eq. intros [= <-]. split.
        -- intros ->. discriminate.
        -- eapply remove_first_id_Forall; [exact Er|]. apply (Hok _ _ E).
      * rewrite lookup_insert_ne by exact Hne. apply Hok.
  - intros h regs Hl. unfold UnregisterAll in Hl.
    rewrite lookup_empty in Hl. discriminate.
Qed.

Lemma registry_ok_run (ops : list (MatcherOp Cb)) :
  registry_ok (matcher_run ops).
Proof.
  unfold matcher_run.
  assert (Hgen : forall m, registry_ok m ->
                           registry_ok (fold_left matcher_step ops m)).
  { induction ops as [|o ops IH]; intros m Hok; [exact Hok|].
    cbn [fold_left]. apply IH, registry_ok_step, Hok. }
  apply Hgen. intros h regs Hl. unfold NewSignatureMatcher in Hl.
  rewrite lookup_empty in Hl. discriminate.
Qed.

(** In a registry built by [Register], [Unregister] and [UnregisterAll]
    from [NewSignatureMatcher] no bucket is empty, and every entry sits in
    the bucket of its own hash. *)
Theorem matcher_run_buckets (ops : list (MatcherOp Cb)) (h : Z) regs :
  matcher_run ops !! h = Some regs ->
  regs <> [] /\ Forall (fun r => Hash (Signature r) = h) regs.
Proof. apply registry_ok_run. Qed.

Lemma remove_first_id_free id regs :
  Forall (fun r => ID r <> id) regs -> remove_first_id id regs = None.
Proof.
  induction 1 as [|r regs Hne _ IH]; [reflexivity|].
  cbn [remove_first_id]. apply String.eqb_neq in Hne. rewrite Hne, IH.
  reflexivity.
Qed.

Lemma remove_first_id_last id regs (r : RegisteredSignature Cb) :
  Forall (fun r' => ID r' <> id) regs -> ID r = id ->
  remove_first_id id (regs ++ [r]) = Some regs.
Proof.
  intros Hfree Hid. induction Hfree as [|r0 regs Hne _ IH]; cbn.
  - apply String.eqb_eq in Hid. rewrite Hid. reflexivity.
  - apply String.eqb_neq in Hne. rewrite Hne, IH. reflexivity.
Qed.

(** [Unregister] with an id that no entry carries leaves the registry as
    it is, in whatever order the buckets are visited. *)
Theorem Unregister_unknown_id (order : list Z) m (id : string) :
  id_free id m -> Unregister order m id = m.
Proof.
  intros Hfree. unfold Unregister.
  induction order as [|hash later IH]; [reflexivity|].
  cbn [Unregister_range].
  destruct (m !! hash) as [regs|] eqn:E; [|exact IH].
  rewrite (remove_first_id_free id regs (Hfree _ _ E)). exact IH.
Qed.

(** [Unregister] undoes [Register]: registering a signature under an id
    not in use and unregistering that id gives back the registry, also
    when the registration had opened a new bucket. *)
Theorem Register_then_Unregister (order : list Z) m (sig : InputSignature)
    (id : string) (cb : option Cb) :
  registry_ok m -> id_free id m -> In (Hash sig) order ->
  Unregister order (Register m sig id cb) id = m.
Proof.
  intros Hok Hfree Hin. unfold Unregister.
  induction order as [|hash later IH]; [destruct Hin|].
  cbn [Unregister_range].
  destruct (decide (hash = Hash sig)) as [->|Hne].
  - unfold Register at 1. rewrite lookup_insert_eq.
    destruct (m !! Hash sig) as [old|] eqn:E; unfold default; cbn [from_option]; unfold Datatypes.id.
    + rewrite (remove_first_id_last id old
                 {| Signature := sig; Callback := cb; ID := id |}
                 (Hfree _ _ E) eq_refl).
      destruct (Hok _ _ E) as [Hne _].
      destruct (Z.of_nat (length old) =? 0) eqn:E0.
      * apply Z.eqb_eq in E0. destruct old; [congruence|simpl in E0; lia].
      * unfold Register. rewrite E. unfold default; cbn [from_option]; unfold Datatypes.id.
        rewrite insert_insert_eq. apply insert_id. exact E.
    + cbn [app remove_first_id ID]. rewrite String.eqb_refl.
      cbn [length Z.of_nat Z.eqb]. unfold Register. rewrite E.
      rewrite delete_insert_eq. apply delete_id. exact E.
  - unfold Register at 1. rewrite lookup_insert_ne by congruence.
    destruct Hin as [Heq | Hin]; [congruence|].
    destruct (m !! hash) as [regs|] eqn:E; [|exact (IH Hin)].
    rewrite (remove_first_id_free id regs (Hfree _ _ E)). exact (IH Hin).
Qed.
End RegistryFacts.

Lemma ToBytes_determines_identity_witness :
  struct_eq sig_b query_b
  /\ length (ToBytes sig_b) = (5 + length (RawData sig_b))%nat.
Proof.
  apply (ToBytes_determines_identity sig_b query_b). reflexivity.
Defined.

Lemma matcher_run_buckets_witness :
  [ {| Signature := sig_a; Callback := Some 1%nat; ID := "a" |};
    {| Signature := sig_b; Callback := Some 2%nat; ID := "b" |} ] <> []
  /\ Forall (fun r => Hash (Signature r) = 7)
       [ {| Signature := sig_a; Callback := Some 1%nat; ID := "a" |};
         {| Signature := sig_b; Callback := Some 2%nat; ID := "b" |} ].
Proof.
  apply (matcher_run_buckets
           [MRegister sig_a "a" (Some 1%nat);
            MRegister sig_b "b" (Some 2%nat)] 7).
  vm_compute. reflexivity.
Defined.

Lemma id_free_two_in_one_bucket (id : string) :
  id <> "a" -> id <> "b" -> id_free id two_in_one_bucket.
Proof.
  intros Ha Hb h regs Hl. unfold two_in_one_bucket, Register in Hl.
  cbn [Hash sig_a sig_b] in Hl.
  rewrite lookup_insert_eq in Hl. cbn in Hl.
  rewrite insert_insert_eq in Hl.
  apply lookup_insert_Some in Hl as [[_ <-] | [_ Hl]].
  - repeat constructor; cbn; congruence.
  - unfold NewSignatureMatcher in Hl. rewrite lookup_empty in Hl.
    discriminate.
Qed.

Lemma Unregister_unknown_id_witness :
  Unregister [7] two_in_one_bucket "c" = two_in_one_bucket.
Proof.
  apply (Unregister_unknown_id [7] two_in_one_bucket "c").
  apply id_free_two_in_one_bucket; discriminate.
Defined.

Lemma Register_then_Unregister_witness :
  Unregister [7; Hash sig_ctrl_alt_c]
    (Register two_in_one_bucket sig_ctrl_alt_c "c" (Some 3%nat)) "c"
  = two_in_one_bucket.
Proof.
  apply (Register_then_Unregister [7; Hash sig_ctrl_alt_c] two_in_one_bucket
           sig_ctrl_alt_c "c" (Some 3%nat)).
  - apply (registry_ok_run [MRegister sig_a "a" (Some 1%nat);
                            MRegister sig_b "b" (Some 2%nat)]).
  - apply id_free_two_in_one_bucket; discriminate.
  - right. left. reflexivity.
Defined.

(** * The keyboard hook and the hotkey strings of the host *)

Import Listener.

Lemma keyMap_codes (name : string) (code : Z) :
  keyMap !! name = Some code -> 0x30 <= code <= 0xC0.
Proof.
  intros Hl. apply elem_of_list_to_map_2 in Hl.
  assert (Hall : Forall (fun p => 0x30 <= snd p <= 0xC0) keyMap_entries)
    by (unfold keyMap_entries; repeat constructor; cbn; lia).
  rewrite Forall_forall in Hall. apply (Hall (name, code)). exact Hl.
Qed.

Lemma put_le_uint16_two (n : Z) :
  exists b0 b1, put_le_uint16 n = [b0; b1].
Proof. unfold put_le_uint16. eauto. Qed.

Lemma put_le_uint32_four (n : Z) :
  exists b0 b1 b2 b3, put_le_uint32 n = [b0; b1; b2; b3].
Proof. unfold put_le_uint32. eauto 6. Qed.

(** A legacy signature has zeros where the hook writes the message kind. *)
Lemma legacy_vs_key_down (ToUpper TrimSpace : string -> string)
    (now : Z) (range : list (string * Z)) (s : string)
    (sig : InputSignature)
    (isKeyDown : Z -> bool) (now' : Z) (range' : list (string * Z))
    (kb : KBDLLHOOKSTRUCT) (wParam : Z) :
  Host.legacy_signature ToUpper TrimSpace now range s = Some sig ->
  wParam = WM_KEYDOWN \/ wParam = WM_SYSKEYDOWN ->
  Equals sig (keyboard_signature isKeyDown now' range' kb wParam) = false.
Proof.
  intros Hleg Hw. apply not_true_is_false. intros Heq.
  apply Equals_spec in Heq as (_ & _ & _ & Hraw).
  unfold Host.legacy_signature in Hleg.
  destruct (fold_left _ _ _) as [mods vk].
  destruct (vk =? 0); [discriminate|]. injection Hleg as <-.
  unfold keyboard_signature in Hraw.
  rewrite !NewInputSignature_RawData in Hraw.
  unfold keyboard_rawData in Hraw.
  destruct (put_le_uint16_two (VkCode kb)) as (v0 & v1 & Ev).
  destruct (put_le_uint16_two (ScanCode kb)) as (s0 & s1 & Es).
  destruct (put_le_uint32_four (Flags kb)) as (f0 & f1 & f2 & f3 & Ef).
  rewrite Ev, Es, Ef in Hraw. cbn [app] in Hraw.
  injection Hraw as _ _ _ _ _ _ _ _ Hw89.
  destruct Hw as [-> | ->]; vm_compute in Hw89; discriminate.
Qed.

Lemma Match_range_none {Cb : Type} (regs : list (RegisteredSignature Cb))
    (q : InputSignature) :
  Forall (fun r => Equals (Signature r) q = false) regs ->
  Match_range regs q = None.
Proof.
  induction 1 as [|r regs Hr _ IH]; [reflexivity|].
  cbn [Match_range]. rewrite Hr. exact IH.
Qed.

(** A listener whose registry holds only signatures made by the legacy
    branch of [parseHotkeyToSignature] never starts a callback on a
    key-down event: the legacy raw data has zeros where the hook writes
    the message kind, so the event is passed on to the next hook. *)
Theorem legacy_hotkeys_never_fire {Cb : Type}
    (WM_KEYUP WM_SYSKEYUP : Z) (isKeyDown : Z -> bool) (now next : Z)
    (range : list (string * Z)) (l : InputListener Cb)
    (nCode wParam : Z) (kb : KBDLLHOOKSTRUCT) :
  (forall h regs, matcher l !! h = Some regs ->
     Forall (fun r => exists U T n rg s,
               Host.legacy_signature U T n rg s = Some (Signature r)) regs) ->
  captureMode l = false ->
  wParam = WM_KEYDOWN \/ wParam = WM_SYSKEYDOWN ->
  keyboardCallback WM_KEYUP WM_SYSKEYUP isKeyDown now next range
    l nCode wParam kb = (next, l, None).
Proof.
  intros Hleg Hcap Hw. unfold keyboardCallback.
  destruct (_ && _); [|reflexivity].
  destruct (isModifierKey _); [reflexivity|]. rewrite Hcap.
  unfold Match. destruct (matcher l !! _) as [regs|] eqn:E; [|reflexivity].
  rewrite Match_range_none; [reflexivity|].
  eapply Forall_impl; [exact (Hleg _ _ E)|].
  intros r (U & T & n & rg & s & Hs). cbv beta.
  eapply legacy_vs_key_down; eassumption.
Qed.

(** After [StartCapture], the next key event that is not a bare modifier
    is blocked, starts no callback even if it is registered, and is put
    into the capture channel, which [StartCapture] has emptied; capture
    mode is off afterwards, and every later event is handled as if capture
    had never been started. *)
Theorem capture_is_one_shot {Cb : Type}
    (WM_KEYUP WM_SYSKEYUP : Z) (isKeyDown : Z -> bool) (now next : Z)
    (range : list (string * Z)) (l : InputListener Cb)
    (nCode wParam : Z) (kb : KBDLLHOOKSTRUCT) :
  0 <= nCode ->
  wParam = WM_KEYDOWN \/ wParam = WM_SYSKEYDOWN
    \/ wParam = WM_KEYUP \/ wParam = WM_SYSKEYUP ->
  isModifierKey (VkCode kb) = false ->
  exists l',
    keyboardCallback WM_KEYUP WM_SYSKEYUP isKeyDown now next range
      (StartCapture l) nCode wParam kb = (1, l', None)
    /\ captureChan l'
       = Some (keyboard_signature isKeyDown now range kb wParam)
    /\ captureMode l' = false
    /\ matcher l' = matcher l
    /\ forall isKeyDown2 now2 next2 nCode2 wParam2 kb2,
         keyboardCallback WM_KEYUP WM_SYSKEYUP isKeyDown2 now2 next2 range
           l' nCode2 wParam2 kb2
         = let '(r, _, cb) :=
             keyboardCallback WM_KEYUP WM_SYSKEYUP isKeyDown2 now2 next2
               range (StopCapture l) nCode2 wParam2 kb2 in
           (r, l', cb).
Proof.
  intros Hn Hw Hmod. eexists. split; [|split; [|split; [|split]]].
  - unfold keyboardCallback. rewrite Hmod.
    replace (0 <=? nCode) with true by (symmetry; apply Z.leb_le; exact Hn).
    replace ((wParam =? WM_KEYDOWN) || (wParam =? WM_SYSKEYDOWN)
             || (wParam =? WM_KEYUP) || (wParam =? WM_SYSKEYUP)) with true.
    2: { symmetry. destruct Hw as [-> | [-> | [-> | ->]]];
         rewrite Z.eqb_refl, ?orb_true_r; reflexivity. }
    cbn. reflexivity.
  - reflexivity.
  - reflexivity.
  - reflexivity.
  - clear Hn Hw Hmod. intros. unfold keyboardCallback. cbn.
    destruct (_ && _); [|reflexivity].
    destruct (isModifierKey (VkCode kb2)); [reflexivity|].
    destruct (Match _ _); reflexivity.
Qed.

Section LegacyAndConfig.
Variable ToUpper : string -> string.
Variable TrimSpace : string -> string.

Lemma legacy_fold_config (parts : list string) (st st' : Hotkey.ParseState)
    (lm : Z) :
  Hotkey.parse_parts TrimSpace st parts = inr st' ->
  (forall i, 2 <= i -> Z.testbit lm i = Z.testbit (Hotkey.modifiers st) i) ->
  Z.testbit lm 0 = Z.testbit (Hotkey.modifiers st) 1 ->
  Z.testbit lm 1 = Z.testbit (Hotkey.modifiers st) 0 ->
  (Hotkey.foundKey st = true -> Hotkey.vk st <> 0) ->
  exists lm',
    fold_left (Host.legacy_part TrimSpace) parts (lm, Hotkey.vk st)
    = (lm', Hotkey.vk st')
    /\ (forall i, 2 <= i ->
          Z.testbit lm' i = Z.testbit (Hotkey.modifiers st') i)
    /\ Z.testbit lm' 0 = Z.testbit (Hotkey.modifiers st') 1
    /\ Z.testbit lm' 1 = Z.testbit (Hotkey.modifiers st') 0
    /\ (Hotkey.foundKey st' = true -> Hotkey.vk st' <> 0).
Proof.
  revert st lm. induction parts as [|p parts IH]; intros st lm Hp Hhi H0 H1 Hvk.
  - injection Hp as <-. exists lm. auto.
  - cbn [Hotkey.parse_parts] in Hp. cbn [fold_left].
    unfold Hotkey.parse_part, Hotkey.is_modifier in Hp.
    unfold Host.legacy_part at 2.
    assert (Hbits : forall a b c i, 2 <= i ->
              Z.testbit a i = Z.testbit b i ->
              Z.testbit (Z.lor a c) i = Z.testbit (Z.lor b c) i).
    { intros a b c i _ Hab. rewrite !Z.lor_spec, Hab. reflexivity. }
    destruct (String.eqb (TrimSpace p) "CTRL"
              || String.eqb (TrimSpace p) "CONTROL").
    { apply (IH _ _ Hp); cbn [Hotkey.modifiers Hotkey.vk Hotkey.foundKey];
        try assumption.
      - intros i Hi. rewrite !Z.lor_spec, (Hhi i Hi).
        unfold ModCtrl, Hotkey.MOD_CONTROL.
        replace (Z.testbit 1 i) with false
          by (symmetry; apply Z.bits_above_log2; cbn; lia).
        replace (Z.testbit 2 i) with (i =? 1)
          by (destruct (Z.eqb_spec i 1); [subst; reflexivity|];
              symmetry; destruct (Z.eq_dec i 0); [subst; reflexivity|];
              apply Z.bits_above_log2; cbn; lia).
        destruct (Z.eqb_spec i 1); [lia|reflexivity].
      - rewrite !Z.lor_spec, H0. reflexivity.
      - rewrite !Z.lor_spec, H1. reflexivity. }
    destruct (String.eqb (TrimSpace p) "ALT").
    { apply (IH _ _ Hp); cbn [Hotkey.modifiers Hotkey.vk Hotkey.foundKey];
        try assumption.
      - intros i Hi. rewrite !Z.lor_spec, (Hhi i Hi).
        unfold ModAlt, Hotkey.MOD_ALT.
        replace (Z.testbit 1 i) with false
          by (symmetry; apply Z.bits_above_log2; cbn; lia).
        replace (Z.testbit 2 i) with false
          by (symmetry; apply Z.bits_above_log2; cbn; lia).
        reflexivity.
      - rewrite !Z.lor_spec, H0. reflexivity.
      - rewrite !Z.lor_spec, H1. reflexivity. }
    destruct (String.eqb (TrimSpace p) "SHIFT").
    { apply (IH _ _ Hp); cbn [Hotkey.modifiers Hotkey.vk Hotkey.foundKey];
        try assumption.
      - intros i Hi. rewrite !Z.lor_spec, (Hhi i Hi). reflexivity.
      - rewrite !Z.lor_spec, H0. reflexivity.
      - rewrite !Z.lor_spec, H1. reflexivity. }
    destruct (String.eqb (TrimSpace p) "WIN").
    { apply (IH _ _ Hp); cbn [Hotkey.modifiers Hotkey.vk Hotkey.foundKey];
        try assumption.
      - intros i Hi. rewrite !Z.lor_spec, (Hhi i Hi). reflexivity.
      - rewrite !Z.lor_spec, H0. reflexivity.
      - rewrite !Z.lor_spec, H1. reflexivity. }
    destruct (keyMap !! TrimSpace p) as [code|] eqn:E; [|discriminate].
    specialize (IH _ lm Hp). cbn [Hotkey.modifiers Hotkey.vk Hotkey.foundKey] in IH.
    apply IH; try assumption.
    intros _. apply keyMap_codes in E. lia.
Qed.

(** Every hotkey string that [parseHotkey] of package [config] accepts
    is accepted by the legacy branch of [parseHotkeyToSignature] too: the
    signature has source type keyboard and ten raw bytes, the key code
    [parseHotkey] found followed by zeros.  Its modifiers are those of
    [parseHotkey] with the bits of Ctrl and Alt exchanged. *)
Theorem legacy_signature_agrees_with_config (now : Z)
    (range : list (string * Z)) (s : string) (m vk : Z) :
  Hotkey.config_parseHotkey ToUpper TrimSpace s = (m, vk, None) ->
  exists sig lm,
    Host.legacy_signature ToUpper TrimSpace now range s = Some sig
    /\ SourceType sig = SourceKeyboard
    /\ RawData sig = put_le_uint16 vk ++ replicate 8 x00
    /\ ModifierState sig = byte_of_Z lm
    /\ Z.testbit lm 0 = Z.testbit m 1
    /\ Z.testbit lm 1 = Z.testbit m 0
    /\ Z.testbit lm 2 = Z.testbit m 2
    /\ Z.testbit lm 3 = Z.testbit m 3
    /\ well_hashed sig.
Proof.
  unfold Hotkey.config_parseHotkey, Hotkey.parts_of.
  destruct (Hotkey.parse_parts _ _ _) as [bad|st] eqn:Ep; [discriminate|].
  destruct (Hotkey.foundKey st) eqn:Ef; cbn [negb]; [|discriminate].
  intros [= <- <-].
  assert (Hinit : Hotkey.foundKey Hotkey.init_state = true ->
                  Hotkey.vk Hotkey.init_state <> 0)
    by (cbn [Hotkey.init_state Hotkey.foundKey]; discriminate).
  destruct (legacy_fold_config _ _ _ 0 Ep (fun i _ => eq_refl) eq_refl
              eq_refl Hinit) as (lm & Hf & Hhi & H0 & H1 & Hvk).
  cbn [Hotkey.init_state Hotkey.vk] in Hf. specialize (Hvk Ef).
  exists (NewInputSignature range now SourceKeyboard
            (put_le_uint16 (Hotkey.vk st) ++ replicate 8 x00)
            (byte_of_Z lm)), lm.
  split.
  { unfold Host.legacy_signature. rewrite Hf.
    destruct (Z.eqb_spec (Hotkey.vk st) 0) as [Hz|_]; [contradiction|].
    reflexivity. }
  destruct (NewInputSignature_fields range now SourceKeyboard
              (put_le_uint16 (Hotkey.vk st) ++ replicate 8 x00)
              (byte_of_Z lm)) as (Hs & Hr & Hm & Hw & _).
  split; [exact Hs|]. split; [exact Hr|]. split; [exact Hm|].
  split; [exact H0|]. split; [exact H1|].
  split; [apply Hhi; lia|]. split; [apply Hhi; lia|]. exact Hw.
Qed.
End LegacyAndConfig.

Lemma substring_all (s : string) : substring 0 (String.length s) s = s.
Proof.
  induction s as [|c s IH]; [reflexivity|]. cbn. rewrite IH. reflexivity.
Qed.

Lemma sig_prefix (e : string) :
  String.prefix "sig:" ("sig:" +:+ e) = true
  /\ substring 4 (String.length ("sig:" +:+ e) - 4) ("sig:" +:+ e) = e.
Proof.
  split; [destruct e; reflexivity|].
  change (substring 0 (String.length e - 0) e = e).
  rewrite Nat.sub_0_r. apply substring_all.
Qed.

Section Captured.
Variable ToUpper : string -> string.
Variable TrimSpace : string -> string.
Variable DecodeString : string -> option (list byte).
Variable EncodeToString : list byte -> string.
Hypothesis Decode_Encode :
  forall data, DecodeString (EncodeToString data) = Some data.

Lemma decode_encoded (range : list (string * Z)) (s : InputSignature) :
  Z.of_nat (length (RawData s)) < 2 ^ 16 ->
  exists s',
    SignatureFromBytes range (ToBytes s) = inr s'
    /\ struct_eq s' s /\ Hash s' = computeHash s.
Proof.
  intros Hlen. unfold ToBytes.
  pose proof (le_uint16_put (Z.of_nat (length (RawData s)))) as Hput.
  destruct (put_le_uint16 (Z.of_nat (length (RawData s))))
    as [|lo [|hi [|? ?]]] eqn:Eput; try contradiction.
  rewrite Z.mod_small in Hput by lia. cbn [app].
  destruct (SignatureFromBytes_v1 range (SourceType s) (ModifierState s)
              lo hi (RawData s)) as (s' & Hs & Hst & Hm & Hraw & Hh & Hd).
  rewrite Hput, Nat2Z.id, read_into_exact in Hraw.
  exists s'. unfold struct_eq. repeat split; try assumption.
  rewrite Hh. apply computeHash_fields. repeat split; assumption.
Qed.

(** A captured key event round trips through the configuration.  The id
    [CaptureHotkeyWithDisplay] returns for it is parsed back by
    [parseHotkeyToSignature] into a signature equal to the captured one,
    and a listener with that signature registered blocks the same event,
    under the same modifiers, and starts the registered callback.  The
    base64 codec is assumed to decode what it encoded. *)
Theorem captured_hotkey_fires {Cb : Type}
    (WM_KEYUP WM_SYSKEYUP : Z) (isKeyDown : Z -> bool)
    (now now1 now2 next : Z) (range : list (string * Z))
    (nCode wParam : Z) (kb : KBDLLHOOKSTRUCT) (id : string) (cb : Cb) :
  0 <= nCode ->
  wParam = WM_KEYDOWN \/ wParam = WM_SYSKEYDOWN
    \/ wParam = WM_KEYUP \/ wParam = WM_SYSKEYUP ->
  isModifierKey (VkCode kb) = false ->
  let captured := keyboard_signature isKeyDown now range kb wParam in
  exists sig,
    Host.parseHotkeyToSignature ToUpper TrimSpace DecodeString now1 range
      (fst (Host.CaptureHotkeyWithDisplay_result EncodeToString captured))
    = Some sig
    /\ Equals sig captured = true
    /\ let l := {| matcher := Register NewSignatureMatcher sig id (Some cb);
                   captureMode := false; captureChan := None |} in
       keyboardCallback WM_KEYUP WM_SYSKEYUP isKeyDown now2 next range
         l nCode wParam kb = (1, l, Some cb).
Proof.
  intros Hn Hw Hmod captured.
  pose proof (NewInputSignature_fields range now SourceKeyboard
                (keyboard_rawData kb wParam) (getCurrentModifiers isKeyDown))
    as Hc.
  cbv zeta in Hc.
  change (NewInputSignature range now SourceKeyboard
            (keyboard_rawData kb wParam) (getCurrentModifiers isKeyDown))
    with captured in Hc.
  destruct Hc as (Hcs & Hcr & Hcm & Hcw & _).
  destruct (decode_encoded range captured) as (sig & Hdec & Hstruct & Hhash).
  { rewrite Hcr. unfold keyboard_rawData.
    destruct (put_le_uint16_two (VkCode kb)) as (v0 & v1 & ->).
    destruct (put_le_uint16_two (ScanCode kb)) as (s0 & s1 & ->).
    destruct (put_le_uint32_four (Flags kb)) as (f0 & f1 & f2 & f3 & ->).
    destruct (put_le_uint16_two wParam) as (w0 & w1 & ->).
    cbn [app length]. lia. }
  exists sig.
  assert (Heq : Equals sig captured = true).
  { apply Equals_spec. split; [|exact Hstruct]. rewrite Hhash.
    symmetry. exact Hcw. }
  split; [|split; [exact Heq|]].
  - unfold Host.parseHotkeyToSignature, Host.CaptureHotkeyWithDisplay_result,
      Host.ToBase64. cbn [fst].
    destruct (sig_prefix (EncodeToString (ToBytes captured))) as [-> ->].
    unfold Host.SignatureFromBase64. rewrite Decode_Encode, Hdec. reflexivity.
  - intros l. unfold keyboardCallback. rewrite Hmod.
    replace (0 <=? nCode) with true by (symmetry; apply Z.leb_le; exact Hn).
    replace ((wParam =? WM_KEYDOWN) || (wParam =? WM_SYSKEYDOWN)
             || (wParam =? WM_KEYUP) || (wParam =? WM_SYSKEYUP)) with true.
    2: { symmetry. destruct Hw as [-> | [-> | [-> | ->]]];
         rewrite Z.eqb_refl, ?orb_true_r; reflexivity. }
    cbn [andb]. subst l. cbn [captureMode matcher].
    set (q := keyboard_signature isKeyDown now2 range kb wParam).
    pose proof (NewInputSignature_fields range now2 SourceKeyboard
                  (keyboard_rawData kb wParam)
                  (getCurrentModifiers isKeyDown)) as Hq0.
    cbv zeta in Hq0.
    change (NewInputSignature range now2 SourceKeyboard
              (keyboard_rawData kb wParam) (getCurrentModifiers isKeyDown))
      with q in Hq0.
    destruct Hq0 as (Hqs & Hqr & Hqm & Hqw & _).
    assert (Hsq : struct_eq sig q).
    { destruct Hstruct as (Hs1 & Hs2 & Hs3). unfold struct_eq.
      rewrite Hs1, Hs2, Hs3, Hcs, Hcr, Hcm, Hqs, Hqr, Hqm. auto. }
    assert (Hhq : Hash q = Hash sig).
    { rewrite Hqw, Hhash. apply computeHash_fields.
      destruct Hsq as (Hs1 & Hs2 & Hs3). destruct Hstruct as (Hc1 & Hc2 & Hc3).
      unfold struct_eq. rewrite <- Hs1, <- Hs2, <- Hs3. auto. }
    assert (Hq : Equals sig q = true).
    { apply Equals_spec. split; [symmetry; exact Hhq | exact Hsq]. }
    unfold Match, Register. rewrite Hhq, lookup_insert_eq.
    unfold NewSignatureMatcher. rewrite lookup_empty.
    unfold default. cbn [from_option app Match_range Signature Callback].
    unfold Datatypes.id. cbn [app Match_range Signature Callback].
    rewrite Hq. reflexivity.
Qed.
End Captured.

Lemma legacy_listener_registry (h : Z)
    (regs : list (RegisteredSignature nat)) :
  matcher legacy_listener !! h = Some regs ->
  Forall (fun r => exists U T n rg s,
            Host.legacy_signature U T n rg s = Some (Signature r)) regs.
Proof.
  unfold legacy_listener, Register. cbn [matcher].
  unfold NewSignatureMatcher. rewrite lookup_empty.
  intros Hl. apply lookup_insert_Some in Hl as [[_ <-] | [_ Hl]].
  - repeat constructor.
    exists Hotkey.ToUpper_ascii, Hotkey.TrimSpace_ascii, 0, keyMap_entries,
      "Ctrl+Alt+C".
    vm_compute. reflexivity.
  - rewrite lookup_empty in Hl. discriminate.
Qed.

Lemma legacy_hotkeys_never_fire_witness :
  keyboardCallback 0x0101 0x0105 ctrl_alt_held 5 0 keyMap_entries
    legacy_listener 0 WM_KEYDOWN key_c_down
  = (0, legacy_listener, None).
Proof.
  apply (legacy_hotkeys_never_fire 0x0101 0x0105 ctrl_alt_held 5 0
           keyMap_entries legacy_listener 0 WM_KEYDOWN key_c_down).
  - exact legacy_listener_registry.
  - reflexivity.
  - left. reflexivity.
Defined.

Lemma capture_is_one_shot_witness :
  exists l',
    keyboardCallback 0x0101 0x0105 ctrl_alt_held 5 0 keyMap_entries
      (StartCapture legacy_listener) 0 WM_KEYDOWN key_c_down = (1, l', None)
    /\ captureChan l'
       = Some (keyboard_signature ctrl_alt_held 5 keyMap_entries key_c_down
                 WM_KEYDOWN)
    /\ captureMode l' = false
    /\ matcher l' = matcher legacy_listener
    /\ forall isKeyDown2 now2 next2 nCode2 wParam2 kb2,
         keyboardCallback 0x0101 0x0105 isKeyDown2 now2 next2 keyMap_entries
           l' nCode2 wParam2 kb2
         = let '(r, _, cb) :=
             keyboardCallback 0x0101 0x0105 isKeyDown2 now2 next2
               keyMap_entries (StopCapture legacy_listener) nCode2 wParam2
               kb2 in
           (r, l', cb).
Proof.
  apply (capture_is_one_shot 0x0101 0x0105 ctrl_alt_held 5 0 keyMap_entries
           legacy_listener 0 WM_KEYDOWN key_c_down).
  - lia.
  - left. reflexivity.
  - reflexivity.
Defined.

Lemma legacy_signature_agrees_with_config_witness :
  exists sig lm,
    Host.legacy_signature Hotkey.ToUpper_ascii Hotkey.TrimSpace_ascii 0
      keyMap_entries "Ctrl+Alt+C" = Some sig
    /\ SourceType sig = SourceKeyboard
    /\ RawData sig = put_le_uint16 0x43 ++ replicate 8 x00
    /\ ModifierState sig = byte_of_Z lm
    /\ Z.testbit lm 0 = Z.testbit 3 1
    /\ Z.testbit lm 1 = Z.testbit 3 0
    /\ Z.testbit lm 2 = Z.testbit 3 2
    /\ Z.testbit lm 3 = Z.testbit 3 3
    /\ well_hashed sig.
Proof.
  apply (legacy_signature_agrees_with_config Hotkey.ToUpper_ascii
           Hotkey.TrimSpace_ascii 0 keyMap_entries "Ctrl+Alt+C" 3 0x43).
  vm_compute. reflexivity.
Defined.

Lemma plain_Decode_Encode (data : list byte) :
  plain_Decode (plain_Encode data) = Some data.
Proof.
  unfold plain_Decode, plain_Encode.
  rewrite list_byte_of_string_of_list_byte. reflexivity.
Qed.

Lemma captured_hotkey_fires_witness :
  exists sig,
    Host.parseHotkeyToSignature Hotkey.ToUpper_ascii Hotkey.TrimSpace_ascii
      plain_Decode 6 keyMap_entries
      (fst (Host.CaptureHotkeyWithDisplay_result plain_Encode
              (keyboard_signature ctrl_alt_held 5 keyMap_entries key_c_down
                 WM_KEYDOWN)))
    = Some sig
    /\ Equals sig
         (keyboard_signature ctrl_alt_held 5 keyMap_entries key_c_down
            WM_KEYDOWN) = true
    /\ keyboardCallback 0x0101 0x0105 ctrl_alt_held 7 0 keyMap_entries
         {| matcher := Register NewSignatureMatcher sig "toggle_queue"
                         (Some 1%nat);
            captureMode := false; captureChan := None |}
         0 WM_KEYDOWN key_c_down
       = (1,
          {| matcher := Register NewSignatureMatcher sig "toggle_queue"
                          (Some 1%nat);
             captureMode := false; captureChan := None |},
          Some 1%nat).
Proof.
  apply (captured_hotkey_fires Hotkey.ToUpper_ascii Hotkey.TrimSpace_ascii
           plain_Decode plain_Encode plain_Decode_Encode
           0x0101 0x0105 ctrl_alt_held 5 6 7 0 keyMap_entries 0 WM_KEYDOWN
           key_c_down "toggle_queue" 1%nat).
  - lia.
  - left. reflexivity.
  - reflexivity.
Defined.

(** * The hotkey parsers and generateSignatureFromHotkey *)

Section ParserFacts.
Variable ToUpper : string -> string.
Variable TrimSpace : string -> string.

(** [Hotkeys.parseHotkey] returns what [parseHotkey] of package [config]
    returns, with the error replaced by nil. *)
Theorem Hotkeys_parseHotkey_drops_error (hotkeyString : string) :
  Hotkey.Hotkeys_parseHotkey ToUpper TrimSpace hotkeyString
  = let '(modifiers, vk, _) :=
      Hotkey.config_parseHotkey ToUpper TrimSpace hotkeyString in
    (modifiers, vk, None).
Proof.
  unfold Hotkey.Hotkeys_parseHotkey, Hotkey.config_parseHotkey.
  destruct (Hotkey.parse_parts _ _ _) as [bad|st]; [reflexivity|].
  destruct (negb (Hotkey.foundKey st)); reflexivity.
Qed.

Lemma is_modifier_bits (part : string) (bit : Z) :
  Hotkey.is_modifier part = Some bit -> bit = 1 \/ bit = 2 \/ bit = 4 \/ bit = 8.
Proof.
  unfold Hotkey.is_modifier.
  repeat match goal with
  | |- context [if ?b then _ else _] => destruct b
  end; intros [= <-]; cbv; auto.
Qed.

Lemma lor_bit_range (a bit : Z) :
  0 <= a < 16 -> bit = 1 \/ bit = 2 \/ bit = 4 \/ bit = 8 ->
  0 <= Z.lor a bit < 16.
Proof.
  intros Ha Hb.
  assert (Hcases : a = 0 \/ a = 1 \/ a = 2 \/ a = 3 \/ a = 4 \/ a = 5
                   \/ a = 6 \/ a = 7 \/ a = 8 \/ a = 9 \/ a = 10 \/ a = 11
                   \/ a = 12 \/ a = 13 \/ a = 14 \/ a = 15) by lia.
  clear Ha.
  repeat (destruct Hcases as [-> | Hcases]);
    try subst a; repeat (destruct Hb as [-> | Hb]); try subst bit;
    (split; [apply Z.leb_le | apply Z.ltb_lt]; reflexivity).
Qed.

(** The loop, part by part: where it stops and what it has when it does
    not. *)
Lemma parse_parts_cases (parts : list string) (st : Hotkey.ParseState) :
  match Hotkey.parse_parts TrimSpace st parts with
  | inl bad =>
      exists pre p post,
        parts = pre ++ p :: post
        /\ Forall (fun q => ~ unknown_part TrimSpace q) pre
        /\ unknown_part TrimSpace p /\ bad = TrimSpace p
  | inr st' =>
      Forall (fun q => ~ unknown_part TrimSpace q) parts
      /\ (0 <= Hotkey.modifiers st < 16 -> 0 <= Hotkey.modifiers st' < 16)
      /\ (Hotkey.foundKey st' = true ->
          Hotkey.foundKey st = true /\ Hotkey.vk st' = Hotkey.vk st
            /\ Forall (fun q => Hotkey.is_modifier (TrimSpace q) <> None)
                 parts
          \/ exists q, In q parts /\ Hotkey.is_modifier (TrimSpace q) = None
                       /\ keyMap !! TrimSpace q = Some (Hotkey.vk st'))
      /\ (Hotkey.foundKey st' = false ->
          Hotkey.foundKey st = false
          /\ Forall (fun q => Hotkey.is_modifier (TrimSpace q) <> None)
               parts)
  end.
Proof.
  revert st. induction parts as [|p parts IH]; intros st.
  - cbn [Hotkey.parse_parts]. split; [constructor|]. split; [auto|].
    split; [intros Hfk; left; repeat split; [exact Hfk | constructor]|].
    intros Hfk. split; [exact Hfk | constructor].
  - cbn [Hotkey.parse_parts]. unfold Hotkey.parse_part.
    destruct (Hotkey.is_modifier (TrimSpace p)) as [bit|] eqn:Em.
    + match goal with |- context [Hotkey.parse_parts _ ?s parts] =>
        specialize (IH s) end.
      destruct (Hotkey.parse_parts _ _ parts) as [bad|st'].
      * destruct IH as (pre & q & post & -> & Hpre & Hq & ->).
        exists (p :: pre), q, post. repeat split; try apply Hq.
        constructor; [|exact Hpre]. intros [Hm _]. congruence.
      * cbn [Hotkey.modifiers Hotkey.vk Hotkey.foundKey] in IH.
        destruct IH as (Hk & Hr & Ht & Hf).
        split; [constructor; [intros [Hm _]; congruence | exact Hk]|].
        split; [intros Hst; apply Hr, lor_bit_range;
                [exact Hst | eapply is_modifier_bits; exact Em]|].
        split.
        -- intros Hfk. destruct (Ht Hfk) as [(H1 & H2 & H3) | (q & Hin & Hq)].
           ++ left. repeat split; try assumption.
              constructor; [congruence | exact H3].
           ++ right. exists q. split; [right; exact Hin | exact Hq].
        -- intros Hfk. destruct (Hf Hfk) as (H1 & H2).
           split; [exact H1|]. constructor; [congruence | exact H2].
    + destruct (keyMap !! TrimSpace p) as [code|] eqn:Ek.
      * match goal with |- context [Hotkey.parse_parts _ ?s parts] =>
          specialize (IH s) end.
        destruct (Hotkey.parse_parts _ _ parts) as [bad|st'].
        -- destruct IH as (pre & q & post & -> & Hpre & Hq & ->).
           exists (p :: pre), q, post. repeat split; try apply Hq.
           constructor; [|exact Hpre]. intros [_ Hm]. congruence.
        -- cbn [Hotkey.modifiers Hotkey.vk Hotkey.foundKey] in IH.
           destruct IH as (Hk & Hr & Ht & Hf).
           split; [constructor; [intros [_ Hm]; congruence | exact Hk]|].
           split; [exact Hr|]. split.
           ++ intros Hfk. right.
              destruct (Ht Hfk) as [(_ & H2 & _) | (q & Hin & Hq)].
              ** exists p. rewrite H2. split; [left; reflexivity|].
                 split; [exact Em | exact Ek].
              ** exists q. split; [right; exact Hin | exact Hq].
           ++ intros Hfk. destruct (Hf Hfk) as (H1 & _). discriminate.
      * exists [], p, parts. repeat split; try assumption. constructor.
Qed.

(** The three outcomes of [parseHotkey] of package [config].  Success:
    every part is a modifier or a key name, the key code is that of a key
    part and lies between 0x30 and 0xC0, the modifiers are below 16.
    Unknown-key error: it names the first part, trimmed, that is neither.
    No-valid-key error: every part is a modifier; it carries the string as
    given.  Both errors come with modifiers and key code zero. *)
Theorem config_parseHotkey_result (hotkeyString : string) :
  let parts := Hotkey.parts_of ToUpper hotkeyString in
  match Hotkey.config_parseHotkey ToUpper TrimSpace hotkeyString with
  | (m, vk, None) =>
      Forall (fun q => ~ unknown_part TrimSpace q) parts
      /\ 0 <= m < 16 /\ 0x30 <= vk <= 0xC0
      /\ exists q, In q parts /\ Hotkey.is_modifier (TrimSpace q) = None
                   /\ keyMap !! TrimSpace q = Some vk
  | (m, vk, Some (Hotkey.ErrUnknownKey bad)) =>
      m = 0 /\ vk = 0
      /\ exists pre p post,
           parts = pre ++ p :: post
           /\ Forall (fun q => ~ unknown_part TrimSpace q) pre
           /\ unknown_part TrimSpace p /\ bad = TrimSpace p
  | (m, vk, Some (Hotkey.ErrNoValidKey s)) =>
      m = 0 /\ vk = 0 /\ s = hotkeyString
      /\ Forall (fun q => Hotkey.is_modifier (TrimSpace q) <> None) parts
  end.
Proof.
  intros parts. unfold Hotkey.config_parseHotkey. fold parts.
  pose proof (parse_parts_cases parts Hotkey.init_state) as H.
  destruct (Hotkey.parse_parts _ _ parts) as [bad|st]; [auto|].
  cbn [Hotkey.init_state Hotkey.modifiers Hotkey.vk Hotkey.foundKey] in H.
  destruct H as (Hk & Hr & Ht & Hf).
  destruct (Hotkey.foundKey st) eqn:Efk; cbn [negb].
  - destruct (Ht eq_refl) as [(Hd & _) | (q & Hin & Hm & Hq)];
      [discriminate|].
    split; [exact Hk|]. split; [apply Hr; lia|].
    split; [eapply keyMap_codes; exact Hq|]. eauto.
  - destruct (Hf eq_refl) as (_ & Hall). auto.
Qed.
End ParserFacts.

(** The bytes [generateSignatureFromHotkey] encodes are accepted by
    [SignatureFromBytes], but as a signature of source type 4, which is
    [SourceUnknown] in input.go, with the two bytes of the key code as raw
    data and the [MOD_*] bits as modifiers; no signature the keyboard hook
    builds equals it. *)
Theorem signature_buffer_decodes (range : list (string * Z))
    (modifiers vk : Z) :
  exists sig,
    SignatureFromBytes range (Config.signature_buffer modifiers vk) = inr sig
    /\ SourceType sig = SourceUnknown
    /\ ModifierState sig = byte_of_Z modifiers
    /\ RawData sig = put_le_uint16 vk
    /\ well_hashed sig
    /\ forall isKeyDown now range' kb wParam,
         Equals sig
           (Listener.keyboard_signature isKeyDown now range' kb wParam)
         = false.
Proof.
  unfold Config.signature_buffer.
  destruct (put_le_uint16_two vk) as (b0 & b1 & Eb). rewrite Eb.
  cbn [length app]. change (put_le_uint16 (Z.of_nat 2)) with [x02; x00].
  cbn [app].
  destruct (SignatureFromBytes_v1 range Config.SourceKeyboard
              (byte_of_Z modifiers) x02 x00 [b0; b1])
    as (sig & Hs & Hst & Hm & Hraw & Hh & _).
  exists sig. split; [exact Hs|]. split; [exact Hst|]. split; [exact Hm|].
  split; [exact Hraw|]. split; [exact Hh|].
  intros. apply not_true_is_false. intros Heq.
  apply Equals_spec in Heq as (_ & Hsrc & _). rewrite Hst in Hsrc.
  unfold Listener.keyboard_signature in Hsrc.
  destruct (NewInputSignature_fields range' now SourceKeyboard
              (Listener.keyboard_rawData kb wParam)
              (Listener.getCurrentModifiers isKeyDown)) as (Hk & _).
  rewrite Hk in Hsrc. discriminate.
Qed.
